(** * FRUITELL trainer: capture, calibration store, fitting and weight line

    A shallow embedding of [fruitell_train.py] and the properties its
    specification states about it.

    - Python [float] and [numpy.float64] values are IEEE 754 binary64 numbers,
      modelled by [spec_float] with precision 53 and maximal exponent 1024;
      every arithmetic step rounds to nearest, ties to even.
    - Python exceptions are the [Raise] results of a small error monad.
    - Text is a [string] of bytes (the ASCII text the firmware emits). *)

From Stdlib Require Import ZArith NArith Lia Bool List String Ascii.
From Stdlib Require Import Floats.SpecFloat.
Import ListNotations.
Open Scope Z_scope.

(** ** Binary64 arithmetic *)

Definition float : Type := spec_float.

Module F64.

Definition prec : Z := 53.
Definition emax : Z := 1024.

Definition of_Z (z : Z) : float := binary_normalize prec emax z 0 false.

Definition zero : float := S754_zero false.
Definition one : float := Eval vm_compute in of_Z 1.
Definition two_pow_53 : float := Eval vm_compute in of_Z (2 ^ 53).

Definition add : float -> float -> float := SFadd prec emax.
Definition sub : float -> float -> float := SFsub prec emax.
Definition mul : float -> float -> float := SFmul prec emax.
Definition div : float -> float -> float := SFdiv prec emax.

Definition eqb : float -> float -> bool := SFeqb.
Definition ltb : float -> float -> bool := SFltb.
Definition leb : float -> float -> bool := SFleb.

Definition valid (x : float) : bool := valid_binary prec emax x.

Definition is_zero (x : float) : bool :=
  match x with S754_zero _ => true | _ => false end.

Definition is_nan (x : float) : bool :=
  match x with S754_nan => true | _ => false end.

Definition is_finite (x : float) : bool :=
  match x with S754_zero _ | S754_finite _ _ _ => true | _ => false end.

(** [0 <= x <= 1] in the order of the floats; false for NaN. *)
Definition in_unit_interval (x : float) : bool := leb zero x && leb x one.

End F64.

(** ** Exceptions and results *)

Inductive exn : Type :=
| ZeroDivisionError
| ValueError
| OverflowError
| TypeError
| KeyError
| FileNotFoundError
| CsvError
| SerialException
| KeyboardInterrupt.

Inductive result (A : Type) : Type :=
| Ok (a : A)
| Raise (e : exn).
Arguments Ok {A} a.
Arguments Raise {A} e.

Definition bind {A B : Type} (r : result A) (k : A -> result B) : result B :=
  match r with
  | Ok a => k a
  | Raise e => Raise e
  end.

Declare Scope py_scope.
Delimit Scope py_scope with py.
Notation "x <- c1 ;; c2" := (bind c1 (fun x => c2))
  (at level 61, c1 at next level, right associativity) : py_scope.
Open Scope py_scope.

(** ** Numbers as the functions see them

    [scale_echo] is called with Python floats (capture) and with the
    [numpy.float64] medians (training).  The two differ in one respect the
    function can observe: dividing a Python float by a zero Python float
    raises [ZeroDivisionError], dividing with a numpy scalar on either side
    follows IEEE 754 and returns an infinity or NaN. *)

Inductive num : Type :=
| PyFloat (x : float)
| NpFloat (x : float).

Definition num_val (a : num) : float :=
  match a with PyFloat x | NpFloat x => x end.

Definition is_np (a : num) : bool :=
  match a with NpFloat _ => true | PyFloat _ => false end.

(** The result of a binary operation is a numpy scalar as soon as one operand is. *)
Definition num_wrap (a b : num) (x : float) : num :=
  if is_np a || is_np b then NpFloat x else PyFloat x.

Definition num_add (a b : num) : num := num_wrap a b (F64.add (num_val a) (num_val b)).
Definition num_sub (a b : num) : num := num_wrap a b (F64.sub (num_val a) (num_val b)).
Definition num_eqb (a b : num) : bool := F64.eqb (num_val a) (num_val b).
Definition num_ltb (a b : num) : bool := F64.ltb (num_val a) (num_val b).

Definition num_div (a b : num) : result num :=
  if is_np a || is_np b then Ok (NpFloat (F64.div (num_val a) (num_val b)))
  else if F64.is_zero (num_val b) then Raise ZeroDivisionError
  else Ok (PyFloat (F64.div (num_val a) (num_val b))).

(** ** Echo normalizer *)

(** [x = 0.0 if x < 0 else (1.0 if x > 1 else x)] *)
Definition clamp01 (x : num) : num :=
  if num_ltb x (PyFloat F64.zero) then PyFloat F64.zero
  else if num_ltb (PyFloat F64.one) x then PyFloat F64.one
  else x.

Definition scale_echo (echo_us fa sa : num) : result num :=
  let sa := if num_eqb fa sa then num_add fa (PyFloat F64.one) else sa in
  let '(lo, hi) := if num_ltb fa sa then (fa, sa) else (sa, fa) in
  let span := num_sub hi lo in
  x <- num_div (num_sub echo_us lo) span ;;
  let x := clamp01 x in
  let x := if num_ltb fa sa then num_sub (PyFloat F64.one) x else x in
  Ok x.

(** ** Text: the string operations the program uses *)

Module Text.

Definition is_digit (c : ascii) : bool :=
  let n := N_of_ascii c in ((48 <=? n) && (n <=? 57))%N.

Definition digit_val (c : ascii) : N := (N_of_ascii c - 48)%N.

Definition digit_char (n : N) : ascii := ascii_of_N (48 + n).

(** The characters C's [isspace] accepts: [float()] and [int()] skip them at
    both ends of their argument. *)
Definition is_c_space (c : ascii) : bool :=
  let n := N_of_ascii c in ((n =? 32) || ((9 <=? n) && (n <=? 13)))%N.

(** The ASCII characters [str.strip()] removes: the above and the four
    separators 0x1c to 0x1f. *)
Definition is_py_space (c : ascii) : bool :=
  let n := N_of_ascii c in is_c_space c || ((28 <=? n) && (n <=? 31))%N.

Fixpoint lstrip (sp : ascii -> bool) (s : string) : string :=
  match s with
  | String c s' => if sp c then lstrip sp s' else s
  | EmptyString => EmptyString
  end.

(** Removes trailing characters satisfying [sp]. *)
Fixpoint rstrip (sp : ascii -> bool) (s : string) : string :=
  match s with
  | String c s' =>
      match rstrip sp s' with
      | EmptyString => if sp c then EmptyString else String c EmptyString
      | r => String c r
      end
  | EmptyString => EmptyString
  end.

Definition strip_with (sp : ascii -> bool) (s : string) : string :=
  rstrip sp (lstrip sp s).

(** [s.strip()] on ASCII text: the white space outside ASCII that Python
    also strips does not occur in a [string] of this model. *)
Definition strip : string -> string := strip_with is_py_space.

(** [s.split(sep)] for a one-character separator: never empty. *)
Fixpoint split (sep : ascii) (s : string) : list string :=
  match s with
  | EmptyString => [EmptyString]
  | String c s' =>
      if Ascii.eqb c sep then EmptyString :: split sep s'
      else match split sep s' with
           | f :: fs => String c f :: fs
           | [] => [String c EmptyString]
           end
  end.

(** [sep.join(fields)] *)
Fixpoint join (sep : string) (fields : list string) : string :=
  match fields with
  | [] => EmptyString
  | [f] => f
  | f :: fs => f ++ sep ++ join sep fs
  end.

Definition to_lower (c : ascii) : ascii :=
  let n := N_of_ascii c in
  if ((65 <=? n) && (n <=? 90))%N then ascii_of_N (n + 32) else c.

Fixpoint lower (s : string) : string :=
  match s with
  | String c s' => String (to_lower c) (lower s')
  | EmptyString => EmptyString
  end.

(** The concatenation of a list of strings. *)
Fixpoint concat_all (l : list string) : string :=
  match l with
  | [] => EmptyString
  | s :: l' => s ++ concat_all l'
  end.

Fixpoint all_chars (p : ascii -> bool) (s : string) : bool :=
  match s with
  | String c s' => p c && all_chars p s'
  | EmptyString => true
  end.

(** *** Decimal digits *)

(** The [w] low decimal digits of [n], most significant first. *)
Fixpoint fixed_digits (w : nat) (n : N) : string :=
  match w with
  | O => EmptyString
  | S w' => fixed_digits w' (n / 10) ++ String (digit_char (n mod 10)) EmptyString
  end.

Fixpoint dec_width_aux (fuel : nat) (n : N) : nat :=
  match fuel with
  | O => 1
  | S f => if (n <? 10)%N then 1%nat else S (dec_width_aux f (n / 10))
  end.

(** Number of decimal digits of [n] (1 for 0). *)
Definition dec_width (n : N) : nat := dec_width_aux (N.to_nat (N.log2 n)) n.

(** Decimal numeral of a natural number, without leading zeros. *)
Definition str_of_N (n : N) : string := fixed_digits (dec_width n) n.

(** [str(z)] for an integer. *)
Definition str_of_Z (z : Z) : string :=
  match z with
  | Zneg p => String "-" (str_of_N (Npos p))
  | _ => str_of_N (Z.to_N z)
  end.

(** Reads a run of digits in which single underscores may separate digits
    (PEP 515).  [acc] is the value read so far and [cnt] the number of digits
    read so far in this run; returns both with the unread rest. *)
Fixpoint scan_digits (acc : N) (cnt : nat) (s : string) : N * nat * string :=
  match s with
  | String c s' =>
      if is_digit c then scan_digits (10 * acc + digit_val c) (S cnt) s'
      else if Ascii.eqb c "_" then
        match cnt, s' with
        | S _, String c' _ => if is_digit c' then scan_digits acc cnt s' else (acc, cnt, s)
        | _, _ => (acc, cnt, s)
        end
      else (acc, cnt, s)
  | EmptyString => (acc, cnt, s)
  end.

(** An optional sign: [true] for minus. *)
Definition scan_sign (s : string) : bool * string :=
  match s with
  | String "-" s' => (true, s')
  | String "+" s' => (false, s')
  | _ => (false, s)
  end.

(** [int(s)] for a string in base 10; [None] is [ValueError]. *)
Definition py_int (s : string) : option Z :=
  let '(neg, s1) := scan_sign (strip_with is_c_space s) in
  match scan_digits 0 0 s1 with
  | (n, S _, EmptyString) => Some (if neg then Z.opp (Z.of_N n) else Z.of_N n)
  | _ => None
  end.

End Text.

(** ** Floats as text: [format(x, ".nf")] and [float(s)] *)

Module FloatText.
Import Text.

(** The binary64 nearest to [n / d] (ties to even), with sign [neg]. *)
Definition of_ratio (neg : bool) (n d : positive) : float :=
  let '(q, e, l) := SFdiv_core_binary F64.prec F64.emax (Zpos n) 0 (Zpos d) 0 in
  binary_round_aux F64.prec F64.emax neg q e l.

(** The binary64 nearest to [m * 10 ^ e], with sign [neg]: what [float()]
    returns for a decimal literal with digits [m] and exponent [e]. *)
Definition of_decimal (neg : bool) (m : N) (e : Z) : float :=
  match m with
  | N0 => S754_zero neg
  | Npos p =>
      match e with
      | Z0 => of_ratio neg p 1
      | Zpos k => of_ratio neg (p * 10 ^ k) 1
      | Zneg k => of_ratio neg p (10 ^ k)
      end
  end.

(** [n / d] rounded to the nearest integer, ties to even. *)
Definition div_half_even (n d : N) : N :=
  let q := (n / d)%N in
  match (2 * (n mod d) ?= d)%N with
  | Lt => q
  | Gt => (q + 1)%N
  | Eq => if N.even q then q else (q + 1)%N
  end.

(** [m * 2 ^ e * 10 ^ d] rounded to the nearest integer, ties to even. *)
Definition scaled (d : nat) (m : positive) (e : Z) : N :=
  match e with
  | Zneg k => div_half_even (Npos m * 10 ^ N.of_nat d) (2 ^ Npos k)
  | _ => (Npos m * 2 ^ Z.to_N e * 10 ^ N.of_nat d)%N
  end.

Definition sign_text (neg : bool) : string := if neg then "-" else EmptyString.

(** The numeral of [n / 10 ^ d] with exactly [d] digits after the point. *)
Definition fixed_text (d : nat) (n : N) : string :=
  str_of_N (n / 10 ^ N.of_nat d) ++
  match d with
  | O => EmptyString
  | _ => String "." (fixed_digits d n)
  end.

(** [f"{x:.df}"] *)
Definition format_f (d : nat) (x : float) : string :=
  match x with
  | S754_nan => "nan"
  | S754_infinity s => sign_text s ++ "inf"
  | S754_zero s => sign_text s ++ fixed_text d 0
  | S754_finite s m e => sign_text s ++ fixed_text d (scaled d m e)
  end.

(** The exponent part of a literal: empty, or [e]/[E], an optional sign and
    digits up to the end of the string. *)
Definition scan_exponent (s : string) : option Z :=
  match s with
  | EmptyString => Some 0
  | String c s' =>
      if Ascii.eqb (to_lower c) "e" then
        let '(neg, s1) := scan_sign s' in
        match scan_digits 0 0 s1 with
        | (n, S _, EmptyString) => Some (if neg then Z.opp (Z.of_N n) else Z.of_N n)
        | _ => None
        end
      else None
  end.

(** [float(s)] for a string of ASCII text; [None] is [ValueError].  The
    digits and white space outside ASCII that Python also accepts do not
    occur in a [string] of this model. *)
Definition py_float (s : string) : option float :=
  let '(neg, s1) := scan_sign (strip_with is_c_space s) in
  let name := lower s1 in
  if String.eqb name "inf" || String.eqb name "infinity" then Some (S754_infinity neg)
  else if String.eqb name "nan" then Some S754_nan
  else
    let '(ip, icnt, r1) := scan_digits 0 0 s1 in
    let '(m, fcnt, r2) :=
      match r1 with
      | String "." r => scan_digits ip 0 r
      | _ => (ip, O, r1)
      end in
    match icnt, fcnt with
    | O, O => None
    | _, _ =>
        match scan_exponent r2 with
        | Some ex => Some (of_decimal neg m (ex - Z.of_nat fcnt))
        | None => None
        end
    end.

(** [x] rounded to [d] decimals and read back: [float(f"{x:.df}")]. *)
Definition round_decimals (d : nat) (x : float) : float :=
  match x with
  | S754_finite s m e => of_decimal s (scaled d m e) (- Z.of_nat d)
  | _ => x
  end.

(** [int(x)] for a float: truncation toward zero. *)
Definition py_int_of_float (x : float) : result Z :=
  match x with
  | S754_nan => Raise ValueError
  | S754_infinity _ => Raise OverflowError
  | S754_zero _ => Ok 0
  | S754_finite s m e =>
      let a := match e with
               | Zneg k => Zpos m / 2 ^ Zpos k
               | _ => Zpos m * 2 ^ e
               end in
      Ok (if s then - a else a)
  end.

End FloatText.

(** ** Data model *)

(** The dictionary the line parsers return: one decoded device reading. *)
Module Rec.
Record t : Type := mk {
  ts_ms : Z;
  echo_us : float;
  mad_us : float;
  fresh_pct : float;
  conf_pct : float;
  fresh_anchor : float;
  spoil_anchor : float
}.
End Rec.

(** [@dataclass class Sample]: one labelled calibration point. *)
Module Sample.
Record t : Type := mk {
  echo_us : float;
  label : Z;
  fresh_anchor : float;
  spoil_anchor : float
}.
End Sample.

(** ** Line protocol parser: the structured CSV format *)

Definition float_of_field (s : string) : result float :=
  match FloatText.py_float s with
  | Some x => Ok x
  | None => Raise ValueError
  end.

(** The body of the [try] block of [parse_device_csv_line]. *)
Definition parse_device_csv_fields (line : string) : result (option Rec.t) :=
  let parts := map Text.strip (Text.split "," line) in
  if (List.length parts <? 7)%nat then Ok None
  else
    t <- float_of_field (nth 0 parts EmptyString) ;;
    ts <- FloatText.py_int_of_float t ;;
    echo <- float_of_field (nth 1 parts EmptyString) ;;
    mad <- float_of_field (nth 2 parts EmptyString) ;;
    fresh <- float_of_field (nth 3 parts EmptyString) ;;
    conf <- float_of_field (nth 4 parts EmptyString) ;;
    fa <- float_of_field (nth 5 parts EmptyString) ;;
    sa <- float_of_field (nth 6 parts EmptyString) ;;
    Ok (Some (Rec.mk ts echo mad fresh conf fa sa)).

(** [try: ... except: return None] *)
Definition parse_device_csv_line (line : string) : result (option Rec.t) :=
  match parse_device_csv_fields line with
  | Ok r => Ok r
  | Raise _ => Ok None
  end.

(** ** Weight serializer *)

(** [l[i] = v] for an index inside the list. *)
Fixpoint list_set {A : Type} (i : nat) (v : A) (l : list A) : list A :=
  match l, i with
  | [], _ => []
  | _ :: l', O => v :: l'
  | a :: l', S i' => a :: list_set i' v l'
  end.

Definition emit_W_line (w_fmed b : float) : string :=
  let weights := repeat F64.zero 10 in
  let weights := list_set 0 w_fmed weights in
  let w_txt := Text.join "," (map (FloatText.format_f 6) weights) in
  ("W:" ++ w_txt ++ "," ++ FloatText.format_f 6 b)%string.

(** ** The [csv] module, default (excel) dialect

    Delimiter comma, quote character the double quote (doubled inside a
    quoted field), line terminator CR LF, minimal quoting.  The files are
    opened without newline translation, so the text is written and read as
    it is. *)

Module Csv.
Local Open Scope string_scope.

Definition CR : ascii := ascii_of_N 13.
Definition LF : ascii := ascii_of_N 10.
Definition QUOTE : ascii := ascii_of_N 34.
Definition COMMA : ascii := ","%char.

Definition is_newline (c : ascii) : bool := Ascii.eqb c CR || Ascii.eqb c LF.

(** Characters that force a field to be quoted on output. *)
Definition is_special (c : ascii) : bool :=
  Ascii.eqb c COMMA || Ascii.eqb c QUOTE || is_newline c.

Fixpoint has_special (s : string) : bool :=
  match s with
  | String c s' => is_special c || has_special s'
  | EmptyString => false
  end.

Fixpoint double_quotes (s : string) : string :=
  match s with
  | String c s' =>
      if Ascii.eqb c QUOTE then String QUOTE (String QUOTE (double_quotes s'))
      else String c (double_quotes s')
  | EmptyString => EmptyString
  end.

Definition quote_field (f : string) : string :=
  if has_special f then String QUOTE (double_quotes f ++ String QUOTE EmptyString) else f.

(** [writer.writerow(fields)]: the text appended to the file. *)
Definition writerow (fields : list string) : string :=
  match fields with
  | [EmptyString] => String QUOTE (String QUOTE (String CR (String LF EmptyString)))
  | _ => Text.join (String COMMA EmptyString) (map quote_field fields)
         ++ String CR (String LF EmptyString)
  end.

(** Iterating over the file: lines with their terminators, a terminator
    being CR LF, CR or LF. *)
Fixpoint lines_from (cur : string) (s : string) : list string :=
  match s with
  | EmptyString =>
      match cur with
      | EmptyString => []
      | _ => [cur]
      end
  | String c s' =>
      if Ascii.eqb c LF then (cur ++ String c EmptyString) :: lines_from EmptyString s'
      else if Ascii.eqb c CR then
        match s' with
        | String c' s'' =>
            if Ascii.eqb c' LF
            then (cur ++ String c (String c' EmptyString)) :: lines_from EmptyString s''
            else (cur ++ String c EmptyString) :: lines_from EmptyString s'
        | EmptyString => [cur ++ String c EmptyString]
        end
      else lines_from (cur ++ String c EmptyString) s'
  end.

Definition lines (s : string) : list string := lines_from EmptyString s.

(** The reader's state machine. *)
Inductive rstate : Type :=
| START_RECORD
| START_FIELD
| IN_FIELD
| IN_QUOTED_FIELD
| QUOTE_IN_QUOTED_FIELD
| EAT_CRNL.

Record reader : Type := mkReader {
  state : rstate;
  fields : list string;
  field : string
}.

Definition reset : reader := mkReader START_RECORD [] EmptyString.

Definition set_state (s : rstate) (r : reader) : reader :=
  mkReader s (fields r) (field r).

Definition save_field (r : reader) : reader :=
  mkReader (state r) (fields r ++ [field r])%list EmptyString.

Definition add_char (c : ascii) (r : reader) : reader :=
  mkReader (state r) (fields r) (field r ++ String c EmptyString).

(** End of a record on a newline character ([eol = false]) or on the end of
    the line itself ([eol = true]). *)
Definition end_record (eol : bool) (r : reader) : reader :=
  set_state (if eol then START_RECORD else EAT_CRNL) (save_field r).

Definition start_field (c : option ascii) (r : reader) : result reader :=
  match c with
  | None => Ok (end_record true r)
  | Some ch =>
      if is_newline ch then Ok (end_record false r)
      else if Ascii.eqb ch QUOTE then Ok (set_state IN_QUOTED_FIELD r)
      else if Ascii.eqb ch COMMA then Ok (set_state START_FIELD (save_field r))
      else Ok (set_state IN_FIELD (add_char ch r))
  end.

(** One step on a character, [None] being the end-of-line mark. *)
Definition process_char (r : reader) (c : option ascii) : result reader :=
  match state r with
  | START_RECORD =>
      match c with
      | None => Ok r
      | Some ch => if is_newline ch then Ok (set_state EAT_CRNL r) else start_field c r
      end
  | START_FIELD => start_field c r
  | IN_FIELD =>
      match c with
      | None => Ok (end_record true r)
      | Some ch =>
          if is_newline ch then Ok (end_record false r)
          else if Ascii.eqb ch COMMA then Ok (set_state START_FIELD (save_field r))
          else Ok (add_char ch r)
      end
  | IN_QUOTED_FIELD =>
      match c with
      | None => Ok r
      | Some ch =>
          if Ascii.eqb ch QUOTE then Ok (set_state QUOTE_IN_QUOTED_FIELD r)
          else Ok (add_char ch r)
      end
  | QUOTE_IN_QUOTED_FIELD =>
      match c with
      | None => Ok (end_record true r)
      | Some ch =>
          if Ascii.eqb ch QUOTE then Ok (set_state IN_QUOTED_FIELD (add_char ch r))
          else if Ascii.eqb ch COMMA then Ok (set_state START_FIELD (save_field r))
          else if is_newline ch then Ok (end_record false r)
          else Ok (set_state IN_FIELD (add_char ch r))
      end
  | EAT_CRNL =>
      match c with
      | None => Ok (set_state START_RECORD r)
      | Some ch => if is_newline ch then Ok r else Raise CsvError
      end
  end.

Fixpoint process_chars (r : reader) (s : string) : result reader :=
  match s with
  | EmptyString => Ok r
  | String c s' => r' <- process_char r (Some c) ;; process_chars r' s'
  end.

(** A whole line, then the end-of-line mark. *)
Definition process_line (r : reader) (line : string) : result reader :=
  r' <- process_chars r line ;; process_char r' None.

Definition is_start_record (s : rstate) : bool :=
  match s with START_RECORD => true | _ => false end.

Definition is_in_quoted (s : rstate) : bool :=
  match s with IN_QUOTED_FIELD => true | _ => false end.

(** All the records of a sequence of lines, [r] being the state of the record
    under construction. *)
Fixpoint read_records (r : reader) (ls : list string) : result (list (list string)) :=
  match ls with
  | [] =>
      if negb (String.eqb (field r) EmptyString) || is_in_quoted (state r)
      then Ok [fields (save_field r)]
      else Ok []
  | l :: ls' =>
      r' <- process_line r l ;;
      if is_start_record (state r')
      then recs <- read_records reset ls' ;; Ok (fields r' :: recs)
      else read_records r' ls'
  end.

(** [list(csv.reader(f))] *)
Definition reader_rows (text : string) : result (list (list string)) :=
  read_records reset (lines text).

(** A row of a [DictReader]: the header names bound to the fields of the
    row, [None] standing for a field the row lacks. *)
Definition dict : Type := list (string * option string).

Fixpoint zip_row (names row : list string) : dict :=
  match names, row with
  | n :: ns, v :: vs => (n, Some v) :: zip_row ns vs
  | n :: ns, [] => (n, None) :: zip_row ns []
  | [], _ => []
  end.

(** The binding of [k], the last one when the header repeats a name. *)
Fixpoint lookup (k : string) (d : dict) : option (option string) :=
  match d with
  | [] => None
  | (k', v) :: d' =>
      match lookup k d' with
      | Some r => Some r
      | None => if String.eqb k k' then Some v else None
      end
  end.

Definition is_blank (row : list string) : bool :=
  match row with [] => true | _ => false end.

(** [list(csv.DictReader(f))]: the first record gives the names, blank
    records after it are skipped. *)
Definition dict_rows (text : string) : result (list dict) :=
  recs <- reader_rows text ;;
  match recs with
  | [] => Ok []
  | names :: rows => Ok (map (zip_row names) (filter (fun r => negb (is_blank r)) rows))
  end.

End Csv.

(** ** Sample store *)

(** The files of the host, by path. *)
Definition filesystem : Type := string -> option string.

Definition fs_write (path text : string) (fs : filesystem) : filesystem :=
  fun p => if String.eqb p path then Some text else fs p.

Definition sample_row (r : Sample.t) : list string :=
  [FloatText.format_f 3 (Sample.echo_us r);
   Text.str_of_Z (Sample.label r);
   FloatText.format_f 3 (Sample.fresh_anchor r);
   FloatText.format_f 3 (Sample.spoil_anchor r)].

(** The text [save_csv] writes: the header row, then one row per sample. *)
Definition csv_text (rows : list Sample.t) : string :=
  (Csv.writerow ["echo_us"; "label"; "fresh_anchor"; "spoil_anchor"]
   ++ Text.concat_all (map (fun r => Csv.writerow (sample_row r)) rows))%string.

Definition save_csv (path : string) (rows : list Sample.t) (fs : filesystem) : filesystem :=
  fs_write path (csv_text rows) fs.

(** [float(v)] and [int(v)] for a value of a [DictReader] row, which is a
    string or [None]. *)
Definition float_of_value (v : option string) : result float :=
  match v with
  | None => Raise TypeError
  | Some s => float_of_field s
  end.

Definition int_of_value (v : option string) : result Z :=
  match v with
  | None => Raise TypeError
  | Some s =>
      match Text.py_int s with
      | Some z => Ok z
      | None => Raise ValueError
      end
  end.

(** [row[k]] *)
Definition getitem (d : Csv.dict) (k : string) : result (option string) :=
  match Csv.lookup k d with
  | Some v => Ok v
  | None => Raise KeyError
  end.

(** [row.get(k, default)] *)
Definition get_default (d : Csv.dict) (k default : string) : option string :=
  match Csv.lookup k d with
  | Some v => v
  | None => Some default
  end.

Definition load_row (row : Csv.dict) : result Sample.t :=
  v <- getitem row "echo_us" ;;
  echo <- float_of_value v ;;
  v <- getitem row "label" ;;
  lab <- int_of_value v ;;
  fa <- float_of_value (get_default row "fresh_anchor" "1400") ;;
  sa <- float_of_value (get_default row "spoil_anchor" "2600") ;;
  Ok (Sample.mk echo lab fa sa).

Fixpoint load_rows (rows : list Csv.dict) : result (list Sample.t) :=
  match rows with
  | [] => Ok []
  | row :: rows' =>
      s <- load_row row ;;
      ss <- load_rows rows' ;;
      Ok (s :: ss)
  end.

Definition load_csv (path : string) (fs : filesystem) : result (list Sample.t) :=
  match fs path with
  | None => Raise FileNotFoundError
  | Some text => rows <- Csv.dict_rows text ;; load_rows rows
  end.

(** A sample as it comes back from the store: floats at three decimals. *)
Definition stored (r : Sample.t) : Sample.t :=
  Sample.mk (FloatText.round_decimals 3 (Sample.echo_us r))
            (Sample.label r)
            (FloatText.round_decimals 3 (Sample.fresh_anchor r))
            (FloatText.round_decimals 3 (Sample.spoil_anchor r)).

(** ** Capture pipeline: the consumer loop of [capture_mode] *)

(** What the loop shows to the operator; the exact text is not modelled. *)
Inductive message : Type :=
| MsgStatus (rec : Rec.t) (x : num) (conf : float)
| MsgSaved (count : Z)
| MsgNoSample
| MsgStop
| MsgNoData.

(** The variables of the loop. *)
Record capture_state : Type := mkCapture {
  rows : list Sample.t;
  rec_current : option Rec.t;
  saved : Z;
  shown : list message
}.

Definition capture_start : capture_state := mkCapture [] None 0 [].

Definition show (m : message) (st : capture_state) : capture_state :=
  mkCapture (rows st) (rec_current st) (saved st) (shown st ++ [m]).

Definition f240 : float := Eval vm_compute in F64.mul (F64.of_Z 120) (F64.of_Z 2).
Definition f100 : float := Eval vm_compute in F64.of_Z 100.

(** [max(a, b)] of two floats: [b] when [b > a], else [a]. *)
Definition py_max (a b : float) : float := if F64.ltb a b then b else a.

(** [rec["conf_pct"] if rec["conf_pct"] > 0 else
     max(0.0, (1.0 - (rec["mad_us"]/(120.0*2))) * 100.0)] *)
Definition confidence (rec : Rec.t) : float :=
  if F64.ltb F64.zero (Rec.conf_pct rec) then Rec.conf_pct rec
  else py_max F64.zero
         (F64.mul (F64.sub F64.one (F64.div (Rec.mad_us rec) f240)) f100).

(** First half of an iteration: the record taken from the queue, if any
    ([None] is [queue.Empty]). *)
Definition consume_record (min_conf : float) (q : option Rec.t) (st : capture_state)
  : result capture_state :=
  match q with
  | None => Ok st
  | Some rec =>
      let conf := confidence rec in
      if F64.leb min_conf conf then
        let st := mkCapture (rows st) (Some rec) (saved st) (shown st) in
        x <- scale_echo (PyFloat (Rec.echo_us rec))
                        (PyFloat (Rec.fresh_anchor rec))
                        (PyFloat (Rec.spoil_anchor rec)) ;;
        Ok (show (MsgStatus rec x conf) st)
      else Ok st
  end.

Definition labelled (rec : Rec.t) (lab : Z) : Sample.t :=
  Sample.mk (Rec.echo_us rec) lab (Rec.fresh_anchor rec) (Rec.spoil_anchor rec).

(** Second half: the key taken from the key queue, the empty string when
    there is none.  The boolean tells whether the loop breaks. *)
Definition consume_key (key : string) (st : capture_state) : capture_state * bool :=
  if String.eqb key "f" || String.eqb key "s" then
    match rec_current st with
    | Some rec =>
        let lab := if String.eqb key "f" then 1 else 0 in
        let st := mkCapture (rows st ++ [labelled rec lab]) (rec_current st)
                            (saved st + 1) (shown st) in
        let st := show (MsgSaved (saved st)) st in
        (mkCapture (rows st) None (saved st) (shown st), false)
    | None => (show MsgNoSample st, false)
    end
  else if String.eqb key "q" then (show MsgStop st, true)
  else (st, false).

(** What one iteration of the loop finds: the queue of records, the queue of
    keys, and whether more than two seconds passed without a record. *)
Record tick : Type := mkTick {
  tick_rec : option Rec.t;
  tick_key : string;
  tick_stale : bool
}.

Definition iteration (min_conf : float) (t : tick) (st : capture_state)
  : result (capture_state * bool) :=
  st <- consume_record min_conf (tick_rec t) st ;;
  let '(st, stop) := consume_key (tick_key t) st in
  if stop then Ok (st, true)
  else Ok (if tick_stale t then show MsgNoData st else st, false).

(** The loop over what the successive iterations find.  It ends on [q]; when
    the ticks run out before, the operator interrupts the program. *)
Fixpoint capture_loop (min_conf : float) (ticks : list tick) (st : capture_state)
  : result capture_state :=
  match ticks with
  | [] => Raise KeyboardInterrupt
  | t :: ticks' =>
      r <- iteration min_conf t st ;;
      let '(st', stop) := r in
      if stop then Ok st' else capture_loop min_conf ticks' st'
  end.

(** The serial connection at teardown: whether its [write] and its [close]
    succeed. *)
Record serial : Type := mkSerial {
  write_ok : bool;
  close_ok : bool
}.

(** The calls made on the serial connection, in order. *)
Inductive call : Type :=
| CallWrite (data : string)
| CallClose.

(** [b"TRAIN:OFF\n"] *)
Definition TRAIN_OFF : string := ("TRAIN:OFF" ++ String Csv.LF EmptyString)%string.

(** A call on the connection is made, and logged, whether it then succeeds
    or raises. *)
Definition ser_write (ser : serial) (data : string) (log : list call)
  : list call * result unit :=
  ((log ++ [CallWrite data])%list, if write_ok ser then Ok tt else Raise SerialException).

Definition ser_close (ser : serial) (log : list call) : list call * result unit :=
  ((log ++ [CallClose])%list, if close_ok ser then Ok tt else Raise SerialException).

(** The [finally] block: [try: ser.write(b"TRAIN:OFF\n") except: pass], then
    [ser.close()].  It returns the calls made on the connection and how
    the block ends. *)
Definition teardown (ser : serial) : list call * result unit :=
  let '(log, r) := ser_write ser TRAIN_OFF [] in
  match r with
  | Ok _ => ser_close ser log
  | Raise _ => ser_close ser log
  end.

(** The command-line arguments [capture_mode] reads. *)
Record capture_args : Type := mkArgs {
  min_conf : float;
  out : option string
}.

(** [if args.out: save_csv(args.out, rows)]: nothing is saved when the
    option is absent or empty. *)
Definition store_rows (out : option string) (rows : list Sample.t) (fs : filesystem)
  : filesystem :=
  match out with
  | Some path => if String.eqb path EmptyString then fs else save_csv path rows fs
  | None => fs
  end.

(** [capture_mode] from the start of the loop: the loop under [try], the
    [finally] block, then the store.  An exception of the [finally] block
    replaces the one in flight. *)
Definition capture_mode (args : capture_args) (ser : serial) (ticks : list tick)
  (fs : filesystem) : result filesystem :=
  let body := capture_loop (min_conf args) ticks capture_start in
  match snd (teardown ser) with
  | Raise e => Raise e
  | Ok _ =>
      st <- body ;;
      Ok (store_rows (out args) (rows st) fs)
  end.

(** ** Model fitter: [train_from_csv]

    [numpy.median] and the solver [fit_logistic_1d] (scikit-learn, or a
    gradient descent on [numpy.exp]) are numerical code outside this
    development: the fitter is modelled over any two such functions.  The
    solver may raise, as scikit-learn does on a feature that is not
    finite. *)

(** The steps of a training run, in program order. *)
Inductive step : Type :=
| Loaded (n : nat)
| NoRows
| Medians (fa sa : float)
| Normalized (X : list float)
| NeedBothClasses
| Solved (X : list float) (y : list Z) (w b : float)
| WLine (line : string).

(** A run: the steps taken and the exception that ended it, if any. *)
Record run : Type := mkRun {
  steps : list step;
  raised : option exn
}.

(** [np.array(labels, int)]: the labels as 64-bit integers. *)
Definition int64_array (l : list Z) : result (list Z) :=
  if forallb (fun z => (- 2 ^ 63 <=? z) && (z <? 2 ^ 63)) l then Ok l
  else Raise OverflowError.

(** [len(set(y.tolist()))] *)
Definition distinct_count (l : list Z) : nat := List.length (nodup Z.eq_dec l).

(** [scale_echo] on every row, in order. *)
Fixpoint scale_all (fa sa : num) (rows : list Sample.t) : result (list float) :=
  match rows with
  | [] => Ok []
  | r :: rows' =>
      x <- scale_echo (PyFloat (Sample.echo_us r)) fa sa ;;
      xs <- scale_all fa sa rows' ;;
      Ok (num_val x :: xs)
  end.

Section Fitter.

Variable median : list float -> float.
Variable fit_logistic_1d : list float -> list Z -> result (float * float).

(** [train_from_csv] once the rows are loaded. *)
Definition train_rows (rows : list Sample.t) : run :=
  let t0 := [Loaded (List.length rows)] in
  match rows with
  | [] => mkRun (t0 ++ [NoRows]) None
  | _ :: _ =>
      let fa := median (map Sample.fresh_anchor rows) in
      let sa := median (map Sample.spoil_anchor rows) in
      let t1 := t0 ++ [Medians fa sa] in
      match scale_all (NpFloat fa) (NpFloat sa) rows with
      | Raise e => mkRun t1 (Some e)
      | Ok X =>
          let t2 := t1 ++ [Normalized X] in
          match int64_array (map Sample.label rows) with
          | Raise e => mkRun t2 (Some e)
          | Ok y =>
              if (distinct_count y <? 2)%nat then mkRun (t2 ++ [NeedBothClasses]) None
              else
                match fit_logistic_1d X y with
                | Raise e => mkRun t2 (Some e)
                | Ok (w, b) =>
                    mkRun (t2 ++ [Solved X y w b; WLine (emit_W_line w b)]) None
                end
          end
      end
  end.

Definition train_from_csv (path : string) (fs : filesystem) : run :=
  match load_csv path fs with
  | Raise e => mkRun [] (Some e)
  | Ok rows => train_rows rows
  end.

End Fitter.

(** The median of a list without NaN, for the examples: the middle element
    of the sorted list, or the mean of the two middle ones. *)
Fixpoint insert_sorted (x : float) (l : list float) : list float :=
  match l with
  | [] => [x]
  | y :: l' => if F64.leb x y then x :: l else y :: insert_sorted x l'
  end.

Definition sort_floats (l : list float) : list float := fold_right insert_sorted [] l.

Definition median_of (l : list float) : float :=
  if existsb F64.is_nan l then S754_nan
  else
    let s := sort_floats l in
    let n := List.length s in
    if Nat.even n
    then F64.div (F64.add (nth (n / 2 - 1) s S754_nan) (nth (n / 2) s S754_nan)) (F64.of_Z 2)
    else nth (n / 2) s S754_nan.

(** What the specification asks of a fit on too few classes. *)
Definition is_compute_step (s : step) : bool :=
  match s with
  | Medians _ _ | Normalized _ | Solved _ _ _ _ | WLine _ => true
  | _ => false
  end.

Definition is_solver_step (s : step) : bool :=
  match s with
  | Solved _ _ _ _ | WLine _ => true
  | _ => false
  end.

(** ** The specification's words *)

(** The confidence of the specification: the device-reported confidence if
    positive, else the proxy max(0, (1 - mad / (2 * 120)) * 100). *)
Definition spec_confidence (rec : Rec.t) : float :=
  if F64.ltb F64.zero (Rec.conf_pct rec) then Rec.conf_pct rec
  else py_max F64.zero
         (F64.mul
            (F64.sub F64.one
               (F64.div (Rec.mad_us rec) (F64.mul (F64.of_Z 2) (F64.of_Z 120))))
            (F64.of_Z 100)).

(** The slot after a record has been consumed with confidence [conf]. *)
Definition spec_slot (min_conf conf : float) (rec : Rec.t) (slot : option Rec.t)
  : option Rec.t :=
  if F64.leb min_conf conf then Some rec else slot.

(** Examples of records and samples. *)
Definition example_rec : Rec.t :=
  Rec.mk 10 (F64.of_Z 1500) (F64.of_Z 12) F64.zero F64.zero (F64.of_Z 1400) (F64.of_Z 2600).

Definition degenerate_rec : Rec.t :=
  Rec.mk 11 (F64.of_Z 1500) (F64.of_Z 12) F64.zero F64.zero F64.two_pow_53 F64.two_pow_53.

Definition example_sample (lab : Z) : Sample.t :=
  Sample.mk (F64.of_Z 1500) lab (F64.of_Z 1400) (F64.of_Z 2600).

Definition no_files : filesystem := fun _ => None.

Definition null_solver : list float -> list Z -> result (float * float) :=
  fun _ _ => Ok (F64.one, F64.zero).

(** A fixed-point numeral with exactly [d] decimals: an optional minus sign,
    at least one digit, a point, and [d] digits. *)
Fixpoint skip_digits (s : string) : string :=
  match s with
  | String c s' => if Text.is_digit c then skip_digits s' else s
  | EmptyString => EmptyString
  end.

Definition drop_minus (s : string) : string :=
  match s with
  | String "-" r => r
  | _ => s
  end.

Definition is_unsigned_fixed_point (d : nat) (s : string) : bool :=
  match s with
  | String c _ =>
      Text.is_digit c &&
      match skip_digits s with
      | String "." f => Text.all_chars Text.is_digit f && (String.length f =? d)%nat
      | _ => false
      end
  | EmptyString => false
  end.

Definition is_fixed_point (d : nat) (s : string) : bool :=
  is_unsigned_fixed_point d (drop_minus s).

(** The characters of a numeral: digits, point, minus sign. *)
Definition is_numeral_char (c : ascii) : bool :=
  Text.is_digit c || Ascii.eqb c "." || Ascii.eqb c "-".

(** Text that needs no quoting in a CSV row and that no parser strips:
    no comma, quote, newline or white space, and not empty. *)
Definition is_plain_char (c : ascii) : bool :=
  negb (Csv.is_special c) && negb (Text.is_py_space c).

Definition is_plain (s : string) : bool :=
  negb (String.eqb s EmptyString) && Text.all_chars is_plain_char s.

(** A row of plain fields: what the writer emits for it is the fields
    joined by commas. *)
Definition is_plain_row (row : list string) : bool :=
  negb (Csv.is_blank row) && forallb is_plain row.

Definition csv_header : list string :=
  ["echo_us"; "label"; "fresh_anchor"; "spoil_anchor"]%string.

(** A field of a device line is numeric when [float()] accepts it. *)
Definition is_numeric (s : string) : bool :=
  match FloatText.py_float s with
  | Some _ => true
  | None => false
  end.

(** The first field must also convert to an integer: it is finite. *)
Definition is_finite_numeric (s : string) : bool :=
  match FloatText.py_float s with
  | Some x => F64.is_finite x
  | None => false
  end.

(** The line terminator of the writer. *)
Definition CRLF : string := String Csv.CR (String Csv.LF EmptyString).

(** The states in which the reader expects the first character of a field. *)
Definition field_start (s : Csv.rstate) : Prop :=
  s = Csv.START_RECORD \/ s = Csv.START_FIELD.

(** The eleven fields of the weight line: the weight, nine times the
    literal zero, the bias. *)
Definition W_fields (w b : float) : list string :=
  FloatText.format_f 6 w :: repeat "0.000000"%string 9 ++ [FloatText.format_f 6 b].

(** The anchor 2^52 - 0.5, the largest binary64 number below 2^52: adding
    1.0 to it rounds to 2^52. *)
Definition anchor_below_2_pow_52 : float := S754_finite false 9007199254740991 (-1).

Definition two_pow_52 : float := Eval vm_compute in F64.of_Z (2 ^ 52).

Definition one_half : float := Eval vm_compute in F64.div (F64.of_Z 1) (F64.of_Z 2).

(** A session of two iterations: a record arrives and [f] is pressed, then
    [q] is pressed. *)
Definition one_sample_session : list tick :=
  [mkTick (Some example_rec) "f" false; mkTick None "q" false].

(** The feature of a row in training: the normalizer applied to its echo
    and the two anchors, which are numpy scalars there. *)
Definition feature_of (fa sa : float) (r : Sample.t) (x : float) : Prop :=
  exists v, scale_echo (PyFloat (Sample.echo_us r)) (NpFloat fa) (NpFloat sa) = Ok v
            /\ num_val v = x.

(** A number whose value is a binary64 number in canonical form, as every
    Python float and numpy scalar is. *)
Definition num_valid (a : num) : bool := F64.valid (num_val a).

(** ** Capture sessions as a whole *)

(** The readings of a session that pass the confidence gate, in the order
    in which the loop takes them from the queue. *)
Definition gated (min_conf : float) (ticks : list tick) : list Rec.t :=
  flat_map (fun t => match tick_rec t with
                     | Some rec => if F64.leb min_conf (confidence rec) then [rec] else []
                     | None => []
                     end) ticks.

(** [l1] is [l2] with some elements left out. *)
Inductive subseq {A : Type} : list A -> list A -> Prop :=
| subseq_nil : subseq [] []
| subseq_skip (x : A) (l1 l2 : list A) : subseq l1 l2 -> subseq l1 (x :: l2)
| subseq_cons (x : A) (l1 l2 : list A) : subseq l1 l2 -> subseq (x :: l1) (x :: l2).

(** The candidate slot as a list of at most one reading. *)
Definition slot (st : capture_state) : list Rec.t :=
  match rec_current st with
  | Some rec => [rec]
  | None => []
  end.

Definition is_binary_label (lab : Z) : Prop := lab = 0 \/ lab = 1.

(** The counts shown by the [+saved (n)] messages, in order. *)
Definition saved_counts (ms : list message) : list Z :=
  flat_map (fun m => match m with MsgSaved n => [n] | _ => [] end) ms.

(** A session that never runs into the equal-anchors defect: two readings,
    the second one labelled twice in a row. *)
Definition two_reading_session : list tick :=
  [mkTick (Some example_rec) EmptyString false;
   mkTick (Some example_rec) "s" false;
   mkTick None "s" false;
   mkTick None "q" false;
   mkTick (Some example_rec) "f" false].

(** A reading with the label the operator gave it. *)
Definition pick_sample (p : Rec.t * Z) : Sample.t := labelled (fst p) (snd p).


(** A capture file whose header lacks the two anchor columns. *)
Definition two_column_text : string :=
  (Csv.writerow ["echo_us"; "label"] ++ Csv.writerow ["1500.000"; "1"])%string.

Definition two_column_files : filesystem := fs_write "cap.csv" two_column_text no_files.

(** A capture file whose second row stops after the label. *)
Definition truncated_text : string :=
  (Csv.writerow csv_header ++ Csv.writerow ["1500.000"; "1"])%string.

Definition truncated_files : filesystem := fs_write "cap.csv" truncated_text no_files.

(** ** The uploader: [fruitell_program_from_csv.py] *)

Module Uploader.

(** A parsed row: echo, label, fresh anchor, spoil anchor. *)
Definition row : Type := (Z * Z * Z * Z)%type.

(** [next(r, None)] on a csv reader over the lines [ls]: the next record
    with the lines left, or [None] when the lines are exhausted.  [r] is
    the state of the record under construction. *)
Fixpoint next_record (r : Csv.reader) (ls : list string)
  : result (option (list string * list string)) :=
  match ls with
  | [] =>
      if negb (String.eqb (Csv.field r) EmptyString) || Csv.is_in_quoted (Csv.state r)
      then Ok (Some (Csv.fields (Csv.save_field r), []))
      else Ok None
  | l :: ls' =>
      r' <- Csv.process_line r l ;;
      if Csv.is_start_record (Csv.state r') then Ok (Some (Csv.fields r', ls'))
      else next_record r' ls'
  end.

(** [isnum(s)]: [float(s)] does not raise. *)
Definition isnum (s : string) : bool :=
  match FloatText.py_float s with
  | Some _ => true
  | None => false
  end.

(** [s.replace(" ", "_")] *)
Fixpoint replace_spaces (s : string) : string :=
  match s with
  | String c s' => String (if Ascii.eqb c " " then "_"%char else c) (replace_spaces s')
  | EmptyString => EmptyString
  end.

(** [c.strip().lower().replace(" ", "_")] *)
Definition column_name (c : string) : string :=
  replace_spaces (Text.lower (Text.strip c)).

(** The [alias] dictionary, in insertion order. *)
Definition alias : list (string * list string) :=
  [("echo_us", ["echo_us"; "echo"; "med_us"; "median_us"]);
   ("label", ["label"; "class"; "y"]);
   ("fresh_anchor", ["fresh_anchor"; "fresh"; "fresh_us"; "f_anchor"]);
   ("spoil_anchor", ["spoil_anchor"; "spoil"; "spoil_us"; "s_anchor"])]%string.

Definition mem (s : string) (l : list string) : bool := existsb (String.eqb s) l.

(** The dictionary [idx]: the column found for each key. *)
Definition index : Type := list (string * nat).

(** [k in idx] *)
Definition bound (k : string) (idx : index) : bool :=
  existsb (fun p => String.eqb k (fst p)) idx.

(** [idx[k]], when [k] is bound. *)
Definition find (k : string) (idx : index) : option nat :=
  match List.find (fun p => String.eqb k (fst p)) idx with
  | Some p => Some (snd p)
  | None => None
  end.

(** [for k, al in alias.items(): if n in al and k not in idx: idx[k] = i] *)
Definition index_name (i : nat) (n : string) (idx : index) : index :=
  fold_left (fun idx ka =>
               if mem n (snd ka) && negb (bound (fst ka) idx)
               then (idx ++ [(fst ka, i)])%list else idx)
            alias idx.

(** [for i, n in enumerate(hdr): ...], [i] being the index of the head. *)
Fixpoint index_names (i : nat) (hdr : list string) (idx : index) : index :=
  match hdr with
  | [] => idx
  | n :: hdr' => index_names (S i) hdr' (index_name i n idx)
  end.

(** [int(float(r[i]))]; [None] stands for any exception: an index out of
    range, a cell [float()] refuses, a float [int()] refuses. *)
Definition int_of_cell (r : list string) (i : nat) : option Z :=
  match nth_error r i with
  | None => None
  | Some s =>
      match FloatText.py_float s with
      | None => None
      | Some x =>
          match FloatText.py_int_of_float x with
          | Ok z => Some z
          | Raise _ => None
          end
      end
  end.

(** The tuple built under [try]; [None] when the [except] clause runs. *)
Definition convert (cols : nat * nat * nat * nat) (r : list string) : option row :=
  let '(ce, cl, cf, cs) := cols in
  match int_of_cell r ce, int_of_cell r cl, int_of_cell r cf, int_of_cell r cs with
  | Some e, Some l, Some f, Some s => Some (e, l, f, s)
  | _, _, _, _ => None
  end.

(** The loop over the rows: short rows and rows that fail to convert are
    skipped. *)
Definition collect (cols : nat * nat * nat * nat) (rs : list (list string)) : list row :=
  flat_map (fun r =>
              if (List.length r <? 4)%nat then []
              else match convert cols r with
                   | Some t => [t]
                   | None => []
                   end) rs.

Definition read_rows (csv_path : string) (fs : filesystem) : result (list row) :=
  match fs csv_path with
  | None => Raise FileNotFoundError
  | Some text =>
      nxt <- next_record Csv.reset (Csv.lines text) ;;
      match nxt with
      | None => Ok []
      | Some (first, rest) =>
          let header := existsb (fun c => negb (isnum (Text.strip c))) first in
          if header then
            let hdr := map column_name first in
            let idx := index_names 0 hdr [] in
            match find "echo_us" idx, find "label" idx,
                  find "fresh_anchor" idx, find "spoil_anchor" idx with
            | Some ce, Some cl, Some cf, Some cs =>
                rs <- Csv.read_records Csv.reset rest ;;
                Ok (collect (ce, cl, cf, cs) rs)
            | _, _, _, _ => Ok []
            end
          else
            rs <- Csv.read_records Csv.reset rest ;;
            Ok (collect (0, 1, 2, 3)%nat (first :: rs))
      end
  end.

(** The line [main] sends for a row: [f"{echo},{lab},{fa},{sa}\r\n"]. *)
Definition row_line (r : row) : string :=
  let '(echo, lab, fa, sa) := r in
  (Text.str_of_Z echo ++ "," ++ Text.str_of_Z lab ++ "," ++ Text.str_of_Z fa ++ ","
   ++ Text.str_of_Z sa ++ CRLF)%string.

End Uploader.

(** What the uploader makes of a float the trainer stored: the float at
    three decimals, truncated toward zero; nothing when it is not finite. *)
Definition stored_int (x : float) : option Z :=
  match FloatText.py_int_of_float (FloatText.round_decimals 3 x) with
  | Ok z => Some z
  | Raise _ => None
  end.

(** The uploader's row for a stored sample, if it has one. *)
Definition uploaded (r : Sample.t) : list Uploader.row :=
  match stored_int (Sample.echo_us r), stored_int (Sample.fresh_anchor r),
        stored_int (Sample.spoil_anchor r) with
  | Some e, Some f, Some s => [(e, Sample.label r, f, s)]
  | _, _, _ => []
  end.

(** A file of integer rows without a header, as the csv writer emits it. *)
Definition int_row (r : Uploader.row) : list string :=
  let '(echo, lab, fa, sa) := r in
  [Text.str_of_Z echo; Text.str_of_Z lab; Text.str_of_Z fa; Text.str_of_Z sa].

Definition int_text (rs : list Uploader.row) : string :=
  Text.concat_all (map (fun r => Csv.writerow (int_row r)) rs).

Definition row_below_2_pow_53 (r : Uploader.row) : Prop :=
  let '(echo, lab, fa, sa) := r in
  Z.abs echo < 2 ^ 53 /\ Z.abs lab < 2 ^ 53 /\ Z.abs fa < 2 ^ 53 /\ Z.abs sa < 2 ^ 53.

(** ** Opening the port: [open_port_with_retries] *)

(** What one pass through the [try] block ends with: the port opened and
    settled, a [serial.SerialException] (with its text), or any other
    exception. *)
Inductive open_outcome : Type :=
| Opened (ser : serial)
| SerialError (msg : string)
| OtherError (e : exn).

(** What the function ends with: the port, or the exception it raises. *)
Inductive open_result : Type :=
| Port (ser : serial)
| RaiseLast (msg : string)
| RaiseOther (e : exn)
| RaiseRuntimeError.

(** The loop [for i in range(1, tries+1)], at attempt [i] with [left]
    attempts to go; [attempt i] is what the [i]-th pass ends with and
    [log] the retries printed so far. *)
Fixpoint open_attempts (attempt : nat -> open_outcome) (i left : nat)
  (last_err : option string) (log : list (nat * string))
  : open_result * list (nat * string) :=
  match left with
  | O =>
      (match last_err with
       | Some msg => RaiseLast msg
       | None => RaiseRuntimeError
       end, log)
  | S left' =>
      match attempt i with
      | Opened ser => (Port ser, log)
      | SerialError msg =>
          open_attempts attempt (S i) left' (Some msg) (log ++ [(i, msg)])
      | OtherError e => (RaiseOther e, log)
      end
  end.

Definition open_port_with_retries (attempt : nat -> open_outcome) (tries : Z)
  : open_result * list (nat * string) :=
  open_attempts attempt 1 (Z.to_nat tries) None [].

(** Attempts [from], ..., [from + n - 1] all end with a SerialException,
    with the texts [msgs]. *)
Fixpoint all_busy (attempt : nat -> open_outcome) (from : nat) (msgs : list string) : Prop :=
  match msgs with
  | [] => True
  | msg :: msgs' => attempt from = SerialError msg /\ all_busy attempt (S from) msgs'
  end.

(** The retry lines printed for these texts, numbered from [from]. *)
Fixpoint retry_log (from : nat) (msgs : list string) : list (nat * string) :=
  match msgs with
  | [] => []
  | msg :: msgs' => (from, msg) :: retry_log (S from) msgs'
  end.

(** ** Port detection: [autodetect_port] *)

(** What [comports()] reports for a port: its device name, its USB vendor
    id (an integer or [None]) and its description (a string or [None]). *)
Module Ports.
Record info : Type := mk {
  device : string;
  vid : option N;
  description : option string
}.
End Ports.

Definition hex_digit (n : N) : ascii :=
  ascii_of_N (if (n <? 10)%N then 48 + n else 55 + n).

(** The [w] low hexadecimal digits of [n], most significant first, in
    upper case. *)
Fixpoint hex_fixed (w : nat) (n : N) : string :=
  match w with
  | O => EmptyString
  | S w' => (hex_fixed w' (n / 16) ++ String (hex_digit (n mod 16)) EmptyString)%string
  end.

Fixpoint hex_width_aux (fuel : nat) (n : N) : nat :=
  match fuel with
  | O => 1
  | S f => if (n <? 16)%N then 1%nat else S (hex_width_aux f (n / 16))
  end.

(** Number of hexadecimal digits of [n] (1 for 0). *)
Definition hex_width (n : N) : nat := hex_width_aux (N.to_nat (N.log2 n)) n.

(** [f"{v:04X}"]: upper-case hexadecimal, padded with zeros to four
    digits. *)
Definition format_04X (v : N) : string := hex_fixed (Nat.max 4 (hex_width v)) v.

(** [sub in s] for two strings. *)
Fixpoint contains (sub s : string) : bool :=
  String.prefix sub s ||
  match s with
  | String _ s' => contains sub s'
  | EmptyString => false
  end.

Definition preferred_vids : list string := ["1A86"; "2341"; "2A03"; "10C4"]%string.

(** [o or ""] for a string or [None]. *)
Definition or_empty (o : option string) : string :=
  match o with
  | Some s => s
  | None => EmptyString
  end.

Fixpoint autodetect_port (ports : list Ports.info) : option string :=
  match ports with
  | [] => None
  | p :: ports' =>
      let vid := match Ports.vid p with
                 | Some v => format_04X v
                 | None => EmptyString
                 end in
      if existsb (String.eqb vid) preferred_vids then Some (Ports.device p)
      else if contains "CH340" (or_empty (Ports.description p))
              || contains "Arduino" (or_empty (Ports.description p))
           then Some (Ports.device p)
      else autodetect_port ports'
  end.

(** The vendor ids the text table stands for: 0x1A86, 0x2341, 0x2A03 and
    0x10C4. *)
Definition preferred_vid_numbers : list N := [6790; 9025; 10755; 4292]%N.

(** A port the detection accepts: a preferred vendor, or a description
    naming a CH340 or an Arduino. *)
Definition is_known_port (p : Ports.info) : bool :=
  match Ports.vid p with
  | Some v => existsb (N.eqb v) preferred_vid_numbers
  | None => false
  end
  || match Ports.description p with
     | Some d => contains "CH340" d || contains "Arduino" d
     | None => false
     end.

(** The value of a hexadecimal digit and of a hexadecimal numeral. *)
Definition hex_val (c : ascii) : N :=
  let n := N_of_ascii c in if (n <? 58)%N then (n - 48)%N else (n - 55)%N.

Fixpoint unhex (acc : N) (s : string) : N :=
  match s with
  | String c s' => unhex (16 * acc + hex_val c) s'
  | EmptyString => acc
  end.

(** ** The reader thread of [capture_mode] and the key reader

    [parse_human_line] matches a regular expression and reads the clock:
    the threads are modelled over any such function. *)

(** What one turn of the reader's loop finds: the line [ser.readline()]
    returns, decoded ([None] when it raises), the clock at the test,
    whether a write made in this turn succeeds, and the clock after it. *)
Record turn : Type := mkTurn {
  turn_line : option string;
  turn_clock : float;
  turn_write_ok : bool;
  turn_clock' : float
}.

(** The variables of the thread, with the number of [TRAIN:ON] lines
    written and the records put on the queue so far. *)
Record reader_state : Type := mkReaderState {
  got_any : bool;
  last_tx : float;
  nudges : nat;
  qrecs : list Rec.t
}.

Definition f1_5 : float := Eval vm_compute in F64.div (F64.of_Z 3) (F64.of_Z 2).

Section ReaderThread.

Variable parse_human_line : string -> option Rec.t.

(** [parse_device_csv_line(raw) or parse_human_line(raw)] *)
Definition parse_line (raw : string) : result (option Rec.t) :=
  r <- parse_device_csv_line raw ;;
  match r with
  | Some rec => Ok (Some rec)
  | None => Ok (parse_human_line raw)
  end.

(** Before the loop: [ser.write(b"TRAIN:ON\n"); last_tx = time.time()].
    [None] when an exception ends the thread. *)
Definition reader_start (write_ok : bool) (clock : float) : option reader_state :=
  if write_ok then Some (mkReaderState false clock 1 []) else None.

(** One turn of the loop; [None] when an exception ends the thread. *)
Definition reader_turn (t : turn) (st : reader_state) : option reader_state :=
  match turn_line t with
  | None => None
  | Some line =>
      let raw := Text.strip line in
      if String.eqb raw EmptyString && negb (got_any st)
         && F64.ltb f1_5 (F64.sub (turn_clock t) (last_tx st))
      then
        if turn_write_ok t
        then Some (mkReaderState (got_any st) (turn_clock' t) (S (nudges st)) (qrecs st))
        else None
      else if String.eqb raw EmptyString then Some st
      else
        match parse_line raw with
        | Raise _ => None
        | Ok (Some rec) =>
            Some (mkReaderState true (last_tx st) (nudges st) (qrecs st ++ [rec]))
        | Ok None => Some (mkReaderState true (last_tx st) (nudges st) (qrecs st))
        end
  end.

(** The loop over successive turns: the state reached, and whether the
    thread is still running. *)
Fixpoint reader_run (ts : list turn) (st : reader_state) : reader_state * bool :=
  match ts with
  | [] => (st, true)
  | t :: ts' =>
      match reader_turn t st with
      | Some st' => reader_run ts' st'
      | None => (st, false)
      end
  end.

(** The records a turn contributes to the queue. *)
Definition turn_records (t : turn) : list Rec.t :=
  match turn_line t with
  | Some line =>
      if String.eqb (Text.strip line) EmptyString then []
      else match parse_line (Text.strip line) with
           | Ok (Some rec) => [rec]
           | _ => []
           end
  | None => []
  end.

(** A turn that reads a line with something on it. *)
Definition turn_has_text (t : turn) : bool :=
  match turn_line t with
  | Some line => negb (String.eqb (Text.strip line) EmptyString)
  | None => false
  end.

End ReaderThread.

(** The fallback branch of [start_key_reader]: the key put on the queue
    for a line read from the standard input, if any. *)
Definition key_of_line (line : string) : option string :=
  match Text.lower (Text.strip line) with
  | String c _ => Some (String c EmptyString)
  | EmptyString => None
  end.

(** A parser of human-readable lines that matches nothing, and a few
    turns of the reader: silence, a nudge, a record, silence. *)
Definition no_human_line : string -> option Rec.t := fun _ => None.

Definition quiet_turns : list turn :=
  [mkTurn (Some EmptyString) (F64.of_Z 1) true (F64.of_Z 1);
   mkTurn (Some EmptyString) (F64.of_Z 2) true (F64.of_Z 2)].

Definition record_turn : turn :=
  mkTurn (Some "10,1500,12,0,0,1400,2600"%string) (F64.of_Z 3) true (F64.of_Z 3).

Definition late_turns : list turn :=
  [mkTurn (Some EmptyString) (F64.of_Z 9) true (F64.of_Z 9)].

Definition reader_started : reader_state := mkReaderState false F64.zero 1 [].

(** ** Live test: the body of the loop of [live_test] *)

Section LiveTest.

Variable median : list float -> float.
Variable parse_human_line : string -> option Rec.t.

(** [fa] and [sa]: the medians of the anchors of the loaded rows, which
    numpy returns as its own scalars, or the integers 1400 and 2600 when
    there are no rows.  The normalizer converts the two integers to floats
    in each of its operations on them; they are modelled by these floats. *)
Definition live_anchors (rows : list Sample.t) : num * num :=
  match rows with
  | [] => (PyFloat (F64.of_Z 1400), PyFloat (F64.of_Z 2600))
  | _ :: _ => (NpFloat (median (map Sample.fresh_anchor rows)),
               NpFloat (median (map Sample.spoil_anchor rows)))
  end.

(** One line received: the freshness and the confidence displayed, or
    nothing when no parser accepts the line. *)
Definition live_line (rows : list Sample.t) (line : string)
  : result (option (num * float)) :=
  let raw := Text.strip line in
  r <- parse_line parse_human_line raw ;;
  match r with
  | None => Ok None
  | Some rec =>
      let '(fa, sa) := live_anchors rows in
      x <- scale_echo (PyFloat (Rec.echo_us rec)) fa sa ;;
      let fresh := if F64.ltb F64.zero (Rec.fresh_pct rec)
                   then PyFloat (Rec.fresh_pct rec)
                   else num_wrap x (PyFloat f100) (F64.mul (num_val x) f100) in
      Ok (Some (fresh, confidence rec))
  end.

End LiveTest.

(** ** Decimal numerals and nearest integers

    What a fixed-point numeral denotes and what it is to be the nearest
    integer, stated on their own: the properties of the formatter and of
    the float reader are measured against these. *)

(** The number a string of digits denotes, after [acc]. *)
Fixpoint digits_value (acc : N) (s : string) : N :=
  match s with
  | String c s' => digits_value (10 * acc + Text.digit_val c) s'
  | EmptyString => acc
  end.

Definition is_digits (s : string) : bool :=
  negb (String.eqb s EmptyString) && Text.all_chars Text.is_digit s.

(** An unsigned numeral with exactly [d] decimals denotes [n / 10 ^ d]:
    the result is [n]. *)
Definition unsigned_decimal (d : nat) (s : string) : option N :=
  match Text.split "." s with
  | [ip; fp] =>
      if is_digits ip && Text.all_chars Text.is_digit fp && (String.length fp =? d)%nat
      then Some (digits_value 0 ip * 10 ^ N.of_nat d + digits_value 0 fp)%N
      else None
  | _ => None
  end.

(** A numeral with an optional minus sign and exactly [d] decimals: whether
    it has the sign, and the [n] of its digits. *)
Definition has_minus (s : string) : bool :=
  match s with
  | String "-" _ => true
  | _ => false
  end.

Definition decimal_of (d : nat) (s : string) : option (bool * N) :=
  match unsigned_decimal d (drop_minus s) with
  | Some n => Some (has_minus s, n)
  | None => None
  end.

(** The two powers of two that clear an exponent [e]: a float
    [m * 2 ^ e] is [m * pow2_pos e / pow2_neg e]. *)
Definition pow2_pos (e : Z) : Z := 2 ^ Z.max 0 e.
Definition pow2_neg (e : Z) : Z := 2 ^ Z.max 0 (- e).

(** [n] is the integer nearest to [m * 2 ^ e * 10 ^ d], the even one of
    the two when it lies half way:
    [|n - m * 2 ^ e * 10 ^ d| <= 1/2], multiplied by [pow2_neg e]. *)
Definition nearest_scaled (d : nat) (m : positive) (e : Z) (n : Z) : Prop :=
  let v := Zpos m * pow2_pos e * 10 ^ Z.of_nat d in
  2 * Z.abs (n * pow2_neg e - v) <= pow2_neg e
  /\ (2 * Z.abs (n * pow2_neg e - v) = pow2_neg e -> Z.even n = true).

(** The sign and the digits of the numeral with [d] decimals nearest to a
    finite float [x]. *)
Definition decimal_rounding (d : nat) (x : float) (neg : bool) (n : N) : Prop :=
  match x with
  | S754_zero s => neg = s /\ n = 0%N
  | S754_finite s m e => neg = s /\ nearest_scaled d m e (Z.of_N n)
  | _ => False
  end.

(** The floats 0.75 and -1/3. *)
Definition three_quarters : float := Eval vm_compute in F64.div (F64.of_Z 3) (F64.of_Z 4).
Definition minus_third : float := Eval vm_compute in F64.div (F64.of_Z (-1)) (F64.of_Z 3).

(** ** Rounding, in integers

    [X / D] is a non-negative rational in units of the current exponent.
    [located D X m l] says that it lies in [[m, m + 1)] and that [l] is
    its place there: on [m], below the middle, on it, above it. *)
Definition located (D X m : Z) (l : location) : Prop :=
  m * D <= X < (m + 1) * D /\
  match l with
  | loc_Exact => X = m * D
  | loc_Inexact Lt => m * D < X /\ 2 * (X - m * D) < D
  | loc_Inexact Eq => 2 * (X - m * D) = D
  | loc_Inexact Gt => D < 2 * (X - m * D)
  end.

(** The float [m * 2 ^ e] is within half a unit of its last place of
    [num / den]: [|m * 2 ^ e - num / den| <= 2 ^ e / 2], cleared of its
    denominators. *)
Definition float_near (num den : Z) (m : positive) (e : Z) : Prop :=
  2 * Z.abs (den * (Zpos m * pow2_pos e) - num * pow2_neg e) <= den * pow2_pos e.

(** [y] is [x] after a round trip through [d] decimals: there is the
    decimal [n / 10 ^ d] nearest to [x] (ties to the even [n]), [y] has the
    sign of [x] and is zero when [n] is, and otherwise a binary64 number
    within half a unit of its last place of that decimal; a float with at
    most [d] decimals comes back as it is.  Infinities, NaN and zeros come
    back as they are. *)
Definition rounded_to (d : nat) (x y : float) : Prop :=
  match x with
  | S754_finite s m e =>
      exists n : Z,
        nearest_scaled d m e n
        /\ ((n = 0 /\ y = S754_zero s)
            \/ (0 < n /\ exists my ey,
                  y = S754_finite s my ey
                  /\ F64.valid y = true
                  /\ float_near n (10 ^ Z.of_nat d) my ey))
        /\ (n * pow2_neg e = Zpos m * pow2_pos e * 10 ^ Z.of_nat d -> y = x)
  | _ => y = x
  end.

(** A sample and what the store returns for it: the label as it is, and
    each float that is a binary64 number rounded to three decimals. *)
Definition sample_rounded (r r' : Sample.t) : Prop :=
  Sample.label r' = Sample.label r
  /\ (F64.valid (Sample.echo_us r) = true
      -> rounded_to 3 (Sample.echo_us r) (Sample.echo_us r'))
  /\ (F64.valid (Sample.fresh_anchor r) = true
      -> rounded_to 3 (Sample.fresh_anchor r) (Sample.fresh_anchor r'))
  /\ (F64.valid (Sample.spoil_anchor r) = true
      -> rounded_to 3 (Sample.spoil_anchor r) (Sample.spoil_anchor r')).

(** [|x| < 2 ^ 43]: far above any echo time in microseconds. *)
Definition below_2_pow_43 (x : float) : bool :=
  match x with
  | S754_finite _ m e => Zdigits2 (Zpos m) + e <=? 43
  | _ => true
  end.

(** The integer the uploader is to get for a float [x] of the trainer: the
    decimal with three decimals nearest to [x], truncated toward zero;
    nothing for an infinity or NaN. *)
Definition rounded_int (x : float) (o : option Z) : Prop :=
  match x with
  | S754_zero _ => o = Some 0
  | S754_finite s m e =>
      exists n : Z,
        nearest_scaled 3 m e n
        /\ o = Some (if s then - (n / 1000) else n / 1000)
  | _ => o = None
  end.

(** A sample whose echo, 1500.0004, has more than three decimals, and one
    whose echo, 1500.9996, rounds up to the next integer. *)
Definition echo_off_grid : float :=
  Eval vm_compute in FloatText.of_decimal false 15000004 (-4).

Definition echo_near_1501 : float :=
  Eval vm_compute in FloatText.of_decimal false 15009996 (-4).

Definition off_grid_sample : Sample.t :=
  Sample.mk echo_off_grid 1 (F64.of_Z 1400) (F64.of_Z 2600).

Definition near_1501_sample : Sample.t :=
  Sample.mk echo_near_1501 1 (F64.of_Z 1400) (F64.of_Z 2600).

(** The floats of a sample are binary64 numbers below 2^43 in magnitude. *)
Definition upload_range (r : Sample.t) : bool :=
  F64.valid (Sample.echo_us r) && below_2_pow_43 (Sample.echo_us r)
  && F64.valid (Sample.fresh_anchor r) && below_2_pow_43 (Sample.fresh_anchor r)
  && F64.valid (Sample.spoil_anchor r) && below_2_pow_43 (Sample.spoil_anchor r).

(** The rows the uploader is to read for a sample the trainer saved: one
    row of integers when its three floats are finite, none otherwise. *)
Definition uploads (r : Sample.t) (out : list Uploader.row) : Prop :=
  if F64.is_finite (Sample.echo_us r) && F64.is_finite (Sample.fresh_anchor r)
     && F64.is_finite (Sample.spoil_anchor r)
  then exists e f s,
      out = [(e, Sample.label r, f, s)]
      /\ rounded_int (Sample.echo_us r) (Some e)
      /\ rounded_int (Sample.fresh_anchor r) (Some f)
      /\ rounded_int (Sample.spoil_anchor r) (Some s)
  else out = [].

(** A record with no reported confidence and a spread of 500 microseconds:
    its proxy is negative. *)
Definition wide_spread_rec : Rec.t :=
  Rec.mk 0 F64.zero (F64.of_Z 500) F64.zero F64.zero F64.zero F64.zero.

(** * Properties *)

(** ** Capture pipeline *)

Lemma consume_record_rows min_conf q st st' :
  consume_record min_conf q st = Ok st' -> rows st' = rows st /\ saved st' = saved st.
Proof.
  unfold consume_record. destruct q as [rec|]; [|intros [= <-]; auto].
  destruct (F64.leb min_conf (confidence rec)); [|intros [= <-]; auto].
  destruct (scale_echo _ _ _); simpl; [|discriminate].
  intros [= <-]. auto.
Qed.

Lemma consume_record_slot min_conf rec st st' :
  consume_record min_conf (Some rec) st = Ok st' ->
  rec_current st' = spec_slot min_conf (confidence rec) rec (rec_current st).
Proof.
  unfold consume_record, spec_slot.
  destruct (F64.leb min_conf (confidence rec)); [|intros [= <-]; auto].
  destruct (scale_echo _ _ _); simpl; [|discriminate].
  intros [= <-]. reflexivity.
Qed.

Lemma confidence_spec rec : confidence rec = spec_confidence rec.
Proof. reflexivity. Qed.

Example confidence_reported :
  confidence (Rec.mk 0 F64.zero (F64.of_Z 500) F64.zero (F64.of_Z 75) F64.zero F64.zero)
  = F64.of_Z 75.
Proof. vm_compute. reflexivity. Qed.

Example confidence_proxy :
  confidence (Rec.mk 0 F64.zero (F64.of_Z 60) F64.zero F64.zero F64.zero F64.zero)
  = F64.of_Z 75.
Proof. vm_compute. reflexivity. Qed.

Example confidence_proxy_floor :
  confidence (Rec.mk 0 F64.zero (F64.of_Z 500) F64.zero F64.zero F64.zero F64.zero)
  = F64.zero.
Proof. vm_compute. reflexivity. Qed.



(** The counter of saved samples is the number of samples, all along the loop. *)
Lemma consume_key_saved key st :
  saved st = Z.of_nat (List.length (rows st)) ->
  saved (fst (consume_key key st)) = Z.of_nat (List.length (rows (fst (consume_key key st)))).
Proof.
  intros H. unfold consume_key.
  destruct (String.eqb key "f" || String.eqb key "s").
  - destruct (rec_current st); simpl; [|assumption].
    rewrite length_app. simpl. lia.
  - destruct (String.eqb key "q"); simpl; assumption.
Qed.

Lemma iteration_saved min_conf t st st' stop :
  saved st = Z.of_nat (List.length (rows st)) ->
  iteration min_conf t st = Ok (st', stop) ->
  saved st' = Z.of_nat (List.length (rows st')).
Proof.
  intros H. unfold iteration.
  destruct (consume_record min_conf (tick_rec t) st) as [st1|] eqn:E1; simpl; [|discriminate].
  apply consume_record_rows in E1. destruct E1 as [Er Es].
  assert (H1 : saved st1 = Z.of_nat (List.length (rows st1))) by (rewrite Er, Es; exact H).
  pose proof (consume_key_saved (tick_key t) st1 H1) as H2.
  destruct (consume_key (tick_key t) st1) as [st2 b]. simpl in H2.
  destruct b; [intros [= <- <-]; exact H2|].
  intros [= <- <-]. destruct (tick_stale t); exact H2.
Qed.

Lemma capture_loop_saved min_conf ticks : forall st st',
  saved st = Z.of_nat (List.length (rows st)) ->
  capture_loop min_conf ticks st = Ok st' ->
  saved st' = Z.of_nat (List.length (rows st')).
Proof.
  induction ticks as [|t ticks IH]; intros st st' H; simpl; [discriminate|].
  destruct (iteration min_conf t st) as [[st1 stop]|] eqn:E; simpl; [|discriminate].
  pose proof (iteration_saved _ _ _ _ _ H E) as H1.
  destruct stop; [intros [= <-]; exact H1|]. apply IH, H1.
Qed.

(** ** Session teardown *)

Example one_sample_session_loop :
  exists st, capture_loop F64.zero one_sample_session capture_start = Ok st
             /\ rows st = [example_sample 1].
Proof. eexists. split; vm_compute; reflexivity. Qed.

(** C9, as stated, fails: when [close] raises, the exception leaves
    [capture_mode] and the sample labelled before is not stored. *)
Lemma close_failure_escapes :
  capture_mode (mkArgs F64.zero (Some "run.csv"%string)) (mkSerial true false)
               one_sample_session no_files
  = Raise SerialException.
Proof. vm_compute. reflexivity. Qed.

(** C9, amended: a failing TRAIN:OFF write never leaves the session.  The
    write is attempted and, whether it succeeds or raises, [close] is
    called next: the teardown ends as [close] ends.  So when [close]
    succeeds a session ended with [q] hands all its samples to the store,
    and when [close] raises the exception leaves the session, whatever
    the session was, and nothing is stored. *)
Theorem teardown_swallows_write_failure (args : capture_args) (ser : serial)
  (ticks : list tick) (fs : filesystem) :
  fst (teardown ser) = [CallWrite TRAIN_OFF; CallClose]
  /\ snd (teardown ser) = (if close_ok ser then Ok tt else Raise SerialException)
  /\ (close_ok ser = true ->
      forall st, capture_loop (min_conf args) ticks capture_start = Ok st ->
                 capture_mode args ser ticks fs = Ok (store_rows (out args) (rows st) fs))
  /\ (close_ok ser = false -> capture_mode args ser ticks fs = Raise SerialException).
Proof.
  assert (Hlog : fst (teardown ser) = [CallWrite TRAIN_OFF; CallClose])
    by (unfold teardown, ser_write, ser_close; now destruct (write_ok ser)).
  assert (Hend : snd (teardown ser)
                 = (if close_ok ser then Ok tt else Raise SerialException))
    by (unfold teardown, ser_write, ser_close; now destruct (write_ok ser)).
  split; [exact Hlog|]. split; [exact Hend|]. split.
  - intros Hclose st Hloop. unfold capture_mode. now rewrite Hend, Hclose, Hloop.
  - intros Hclose. unfold capture_mode. now rewrite Hend, Hclose.
Qed.

Lemma teardown_swallows_write_failure_witness :
  capture_mode (mkArgs F64.zero (Some "run.csv"%string)) (mkSerial false true)
               one_sample_session no_files
  = Ok (save_csv "run.csv" [example_sample 1] no_files).
Proof.
  exact (proj1 (proj2 (proj2 (teardown_swallows_write_failure
                  (mkArgs F64.zero (Some "run.csv"%string)) (mkSerial false true)
                  one_sample_session no_files)))
               eq_refl
               (mkCapture [example_sample 1] None 1
                  [MsgStatus example_rec
                     (PyFloat (S754_finite false 8256599316845909 (-53)))
                     (F64.of_Z 95);
                   MsgSaved 1; MsgStop])
               eq_refl).
Defined.

(** ** Model fitter *)

(** With numpy anchors the normalizer always returns. *)
Lemma scale_echo_np (e : num) (fa sa : float) :
  exists v, scale_echo e (NpFloat fa) (NpFloat sa) = Ok v.
Proof.
  unfold scale_echo.
  destruct (num_eqb (NpFloat fa) (NpFloat sa));
    match goal with
    | |- context [if num_ltb ?a ?b then (?a, ?b) else (?b, ?a)] =>
        destruct (num_ltb a b)
    end;
    unfold num_div, num_sub, num_add, num_wrap; simpl;
    rewrite ?orb_true_r; simpl; eexists; reflexivity.
Qed.

Lemma scale_all_np (fa sa : float) (rows : list Sample.t) :
  exists X, scale_all (NpFloat fa) (NpFloat sa) rows = Ok X
            /\ Forall2 (feature_of fa sa) rows X.
Proof.
  induction rows as [|r rows [X [HX HF]]]; simpl.
  - exists []. split; [reflexivity | constructor].
  - destruct (scale_echo_np (PyFloat (Sample.echo_us r)) fa sa) as [v Hv].
    rewrite Hv, HX. simpl. exists (num_val v :: X). split; [reflexivity|].
    constructor; [|exact HF]. exists v. split; [exact Hv | reflexivity].
Qed.

(** Where the normalizer returns on Python floats, it returns the same value
    on numpy anchors. *)
Lemma scale_echo_np_agrees (e fa sa : float) (v : num) :
  scale_echo (PyFloat e) (PyFloat fa) (PyFloat sa) = Ok v ->
  exists v', scale_echo (PyFloat e) (NpFloat fa) (NpFloat sa) = Ok v'
             /\ num_val v' = num_val v.
Proof.
  unfold scale_echo, num_eqb, num_ltb, num_add, num_sub, num_div, clamp01,
    num_eqb, num_ltb, num_wrap; simpl.
  destruct (F64.eqb fa sa); simpl;
    match goal with
    | |- context [if F64.ltb ?a ?b then _ else _] => destruct (F64.ltb a b) eqn:Elt
    end; simpl;
    match goal with
    | |- context [F64.is_zero ?s] => destruct (F64.is_zero s); simpl; try discriminate
    end;
    match goal with
    | |- context [F64.ltb ?q F64.zero] =>
        destruct (F64.ltb q F64.zero); simpl;
        [|destruct (F64.ltb F64.one q); simpl]
    end;
    intros [= <-]; eexists; split; reflexivity.
Qed.

Section FitterProperties.

Variable median : list float -> float.
Variable fit_logistic_1d : list float -> list Z -> result (float * float).

(** C6: on a non-empty list the fitter takes the medians of the fresh and
    of the spoil anchors, normalizes every echo with the Echo Normalizer on
    those two medians, and these features (with the labels) are what the
    solver is given: with two classes of labels the solver runs on them,
    and either its result is the step taken or its exception ends the
    run. *)
Theorem fit_uses_median_anchors (rows : list Sample.t) :
  rows <> [] ->
  let fa := median (map Sample.fresh_anchor rows) in
  let sa := median (map Sample.spoil_anchor rows) in
  let r := train_rows median fit_logistic_1d rows in
  exists X,
    Forall2 (feature_of fa sa) rows X
    /\ firstn 3 (steps r) = [Loaded (List.length rows); Medians fa sa; Normalized X]
    /\ (forall X' y w b, In (Solved X' y w b) (steps r) ->
          X' = X /\ y = map Sample.label rows /\ fit_logistic_1d X y = Ok (w, b))
    /\ (int64_array (map Sample.label rows) = Ok (map Sample.label rows) ->
        (2 <= distinct_count (map Sample.label rows))%nat ->
        match fit_logistic_1d X (map Sample.label rows) with
        | Ok (w, b) => In (Solved X (map Sample.label rows) w b) (steps r)
        | Raise e =>
            raised r = Some e
            /\ steps r = [Loaded (List.length rows); Medians fa sa; Normalized X]
        end).
Proof.
  intros Hne fa sa r.
  destruct (scale_all_np fa sa rows) as [X [HX HF]].
  exists X. split; [exact HF|].
  subst r. unfold train_rows. destruct rows as [|r0 rows']; [contradiction|].
  fold fa sa. rewrite HX.
  set (labels := map Sample.label (r0 :: rows')).
  unfold int64_array.
  destruct (forallb _ labels) eqn:E64.
  - destruct (distinct_count labels <? 2)%nat eqn:Ecl.
    + simpl. split; [reflexivity|]. split.
      * intros X' y w b [H|[H|[H|[H|[]]]]]; discriminate.
      * intros _ H2. apply Nat.ltb_lt in Ecl. lia.
    + destruct (fit_logistic_1d X labels) as [[w b]|e] eqn:Efit; simpl.
      * split; [reflexivity|]. split.
        -- intros X' y w' b' [H|[H|[H|[H|[H|[]]]]]]; try discriminate.
           inversion H; subst. auto.
        -- intros _ _. auto 6.
      * split; [reflexivity|]. split.
        -- intros X' y w b [H|[H|[H|[]]]]; discriminate.
        -- intros _ _. auto.
  - simpl. split; [reflexivity|]. split.
    + intros X' y w b [H|[H|[H|[]]]]; discriminate.
    + discriminate.
Qed.

(** C7, amended: with fewer than two label classes the fitter never reaches
    the solver and produces no weight line: it stops on an empty list before
    anything is computed, and otherwise after the medians and the
    normalization, on the class test (or on a label that does not fit a
    64-bit integer). *)
Theorem fit_needs_two_classes (rows : list Sample.t) :
  (distinct_count (map Sample.label rows) < 2)%nat ->
  let r := train_rows median fit_logistic_1d rows in
  existsb is_solver_step (steps r) = false
  /\ (raised r = None \/ raised r = Some OverflowError)
  /\ (raised r = None ->
      (rows = [] /\ steps r = [Loaded 0; NoRows])
      \/ exists X,
           steps r = [Loaded (List.length rows);
                      Medians (median (map Sample.fresh_anchor rows))
                              (median (map Sample.spoil_anchor rows));
                      Normalized X;
                      NeedBothClasses]).
Proof.
  intros Hcl r. subst r. unfold train_rows.
  destruct rows as [|r0 rows']; [simpl; auto|].
  set (fa := median _). set (sa := median _).
  destruct (scale_all_np fa sa (r0 :: rows')) as [X [HX _]]. rewrite HX.
  unfold int64_array.
  set (labels := map Sample.label (r0 :: rows')) in *.
  destruct (forallb _ labels).
  - apply Nat.ltb_lt in Hcl. rewrite Hcl. simpl. repeat split; auto.
    intros _. right. exists X. reflexivity.
  - simpl. repeat split; auto. discriminate.
Qed.

End FitterProperties.

(** C7, as stated, fails: on a list with a single class the medians and the
    normalization have run before the fitter stops. *)
Lemma single_class_is_normalized :
  (distinct_count (map Sample.label [example_sample 1]) < 2)%nat
  /\ steps (train_rows median_of null_solver [example_sample 1])
     = [Loaded 1;
        Medians (F64.of_Z 1400) (F64.of_Z 2600);
        Normalized [S754_finite false 8256599316845909 (-53)];
        NeedBothClasses]
  /\ existsb is_compute_step (steps (train_rows median_of null_solver [example_sample 1]))
     = true.
Proof. vm_compute. repeat split; auto. Qed.

Lemma fit_needs_two_classes_witness :
  existsb is_solver_step (steps (train_rows median_of null_solver [example_sample 1])) = false.
Proof.
  refine (proj1 (fit_needs_two_classes median_of null_solver [example_sample 1] _)).
  vm_compute. lia.
Defined.

Lemma fit_uses_median_anchors_witness :
  exists X,
    firstn 3 (steps (train_rows median_of null_solver [example_sample 1; example_sample 0]))
    = [Loaded 2; Medians (F64.of_Z 1400) (F64.of_Z 2600); Normalized X].
Proof.
  destruct (fit_uses_median_anchors median_of null_solver
              [example_sample 1; example_sample 0]) as [X [_ [H _]]].
  - discriminate.
  - exists X. exact H.
Defined.

(** ** Text *)

Lemma append_assoc (a b c : string) : ((a ++ b) ++ c = a ++ (b ++ c))%string.
Proof. induction a as [|x a IH]; simpl; [reflexivity | now rewrite IH]. Qed.

Lemma append_nil_r (a : string) : (a ++ EmptyString)%string = a.
Proof. induction a as [|x a IH]; simpl; [reflexivity | now rewrite IH]. Qed.

Lemma all_chars_app p (a b : string) :
  Text.all_chars p (a ++ b) = Text.all_chars p a && Text.all_chars p b.
Proof.
  induction a as [|x a IH]; simpl; [reflexivity|].
  now rewrite IH, andb_assoc.
Qed.

Lemma all_chars_weaken (p q : ascii -> bool) (s : string) :
  (forall c, p c = true -> q c = true) ->
  Text.all_chars p s = true -> Text.all_chars q s = true.
Proof.
  intros Hpq. induction s as [|c s IH]; simpl; [reflexivity|].
  intros H. apply andb_true_iff in H. destruct H as [Hc Hs].
  now rewrite (Hpq _ Hc), IH.
Qed.

Lemma digit_char_spec (k : N) :
  (k < 10)%N ->
  Text.is_digit (Text.digit_char k) = true /\ Text.digit_val (Text.digit_char k) = k.
Proof.
  intros H. destruct k as [|p]; [vm_compute; auto|].
  repeat (destruct p as [p|p|]; try lia; try (vm_compute; split; reflexivity)).
Qed.

Lemma digit_is_numeral_char (c : ascii) :
  Text.is_digit c = true -> is_numeral_char c = true.
Proof. intros H. unfold is_numeral_char. now rewrite H. Qed.

(** Numeral characters are plain: by enumeration of the 256 characters. *)
Lemma numeral_char_plain (c : ascii) :
  is_numeral_char c = true -> is_plain_char c = true.
Proof.
  destruct c as [[] [] [] [] [] [] [] []]; vm_compute; congruence.
Qed.

Lemma plain_char_not_space (c : ascii) :
  is_plain_char c = true -> Text.is_py_space c = false /\ Text.is_c_space c = false.
Proof.
  destruct c as [[] [] [] [] [] [] [] []]; vm_compute; split; congruence.
Qed.

Lemma plain_char_not_special (c : ascii) :
  is_plain_char c = true ->
  Csv.is_special c = false /\ Csv.is_newline c = false
  /\ Ascii.eqb c Csv.COMMA = false /\ Ascii.eqb c Csv.QUOTE = false
  /\ Ascii.eqb c Csv.CR = false /\ Ascii.eqb c Csv.LF = false.
Proof.
  destruct c as [[] [] [] [] [] [] [] []]; vm_compute; repeat split; congruence.
Qed.

Lemma fixed_digits_are_digits (w : nat) : forall n,
  Text.all_chars Text.is_digit (Text.fixed_digits w n) = true.
Proof.
  induction w as [|w IH]; intros n; simpl; [reflexivity|].
  rewrite all_chars_app, IH. simpl.
  destruct (digit_char_spec (n mod 10)) as [-> _]; [|reflexivity].
  apply N.mod_lt. discriminate.
Qed.

Lemma fixed_digits_length (w : nat) : forall n,
  String.length (Text.fixed_digits w n) = w.
Proof.
  induction w as [|w IH]; intros n; simpl; [reflexivity|].
  assert (L : forall a b, String.length (a ++ b) = (String.length a + String.length b)%nat).
  { induction a as [|x a IHa]; intros b; simpl; [reflexivity | now rewrite IHa]. }
  rewrite L, IH. simpl. lia.
Qed.

Lemma dec_width_aux_pos fuel n : (1 <= Text.dec_width_aux fuel n)%nat.
Proof. destruct fuel; simpl; [lia|]. destruct (n <? 10)%N; lia. Qed.

Lemma dec_width_aux_bound (fuel : nat) : forall n,
  (n < 10 ^ N.of_nat (S fuel))%N ->
  (n < 10 ^ N.of_nat (Text.dec_width_aux fuel n))%N.
Proof.
  induction fuel as [|f IH]; intros n H.
  - exact H.
  - simpl Text.dec_width_aux. destruct (n <? 10)%N eqn:E.
    + apply N.ltb_lt in E. exact E.
    + apply N.ltb_ge in E.
      assert (Hq : (n / 10 < 10 ^ N.of_nat (S f))%N).
      { apply N.Div0.div_lt_upper_bound.
        replace (10 * 10 ^ N.of_nat (S f))%N with (10 ^ N.of_nat (S (S f)))%N; [exact H|].
        rewrite (Nat2N.inj_succ (S f)), N.pow_succ_r'. reflexivity. }
      specialize (IH _ Hq).
      rewrite Nat2N.inj_succ, N.pow_succ_r'.
      pose proof (N.div_mod n 10 ltac:(discriminate)) as Hdm.
      pose proof (N.mod_lt n 10 ltac:(discriminate)) as Hm.
      lia.
Qed.

Lemma dec_width_bound (n : N) : (n < 10 ^ N.of_nat (Text.dec_width n))%N.
Proof.
  unfold Text.dec_width. apply dec_width_aux_bound.
  rewrite Nat2N.inj_succ, N2Nat.id.
  destruct n as [|p]; [reflexivity|].
  apply N.lt_le_trans with (2 ^ N.succ (N.log2 (Npos p)))%N.
  - apply N.log2_spec. reflexivity.
  - apply N.pow_le_mono_l. lia.
Qed.

Lemma str_of_N_digits (n : N) :
  Text.all_chars Text.is_digit (Text.str_of_N n) = true.
Proof. apply fixed_digits_are_digits. Qed.

Lemma str_of_N_first (n : N) :
  exists c s, Text.str_of_N n = String c s /\ Text.is_digit c = true.
Proof.
  pose proof (str_of_N_digits n) as H.
  pose proof (fixed_digits_length (Text.dec_width n) n) as L.
  pose proof (dec_width_aux_pos (N.to_nat (N.log2 n)) n) as P.
  unfold Text.str_of_N in *. fold (Text.dec_width n) in P.
  destruct (Text.fixed_digits (Text.dec_width n) n) as [|c s]; simpl in *; [lia|].
  exists c, s. apply andb_true_iff in H. now split.
Qed.

Lemma lstrip_plain sp (s : string) :
  Text.all_chars (fun c => negb (sp c)) s = true -> Text.lstrip sp s = s.
Proof.
  destruct s as [|c s]; simpl; [reflexivity|].
  intros H. apply andb_true_iff in H. destruct H as [Hc _].
  apply negb_true_iff in Hc. now rewrite Hc.
Qed.

Lemma rstrip_plain sp (s : string) :
  Text.all_chars (fun c => negb (sp c)) s = true -> Text.rstrip sp s = s.
Proof.
  induction s as [|c s IH]; simpl; [reflexivity|].
  intros H. apply andb_true_iff in H. destruct H as [Hc Hs].
  rewrite (IH Hs). apply negb_true_iff in Hc. rewrite Hc. now destruct s.
Qed.

Lemma strip_with_plain sp (s : string) :
  Text.all_chars (fun c => negb (sp c)) s = true -> Text.strip_with sp s = s.
Proof.
  intros H. unfold Text.strip_with. rewrite (lstrip_plain _ _ H). now apply rstrip_plain.
Qed.

Lemma plain_strip (s : string) :
  Text.all_chars is_plain_char s = true ->
  Text.strip s = s /\ Text.strip_with Text.is_c_space s = s.
Proof.
  intros H. split; apply strip_with_plain; revert H; apply all_chars_weaken;
    intros c Hc; apply plain_char_not_space in Hc; destruct Hc as [H1 H2];
    now rewrite ?H1, ?H2.
Qed.

Lemma scan_digits_stop acc cnt c rest :
  Text.is_digit c = false -> Ascii.eqb c "_" = false ->
  Text.scan_digits acc cnt (String c rest) = (acc, cnt, String c rest).
Proof. intros H1 H2. simpl. now rewrite H1, H2. Qed.

Lemma scan_digits_digit acc cnt c rest :
  Text.is_digit c = true ->
  Text.scan_digits acc cnt (String c rest)
  = Text.scan_digits (10 * acc + Text.digit_val c)%N (S cnt) rest.
Proof. intros H. cbn [Text.scan_digits]. now rewrite H. Qed.

Lemma scan_digits_fixed (w : nat) : forall n acc cnt rest,
  Text.scan_digits acc cnt (Text.fixed_digits w n ++ rest)
  = Text.scan_digits (acc * 10 ^ N.of_nat w + n mod 10 ^ N.of_nat w)%N (cnt + w) rest.
Proof.
  induction w as [|w IH]; intros n acc cnt rest.
  - simpl. rewrite N.mod_1_r, N.mul_1_r, N.add_0_r, Nat.add_0_r. reflexivity.
  - simpl Text.fixed_digits. rewrite append_assoc. simpl append. rewrite IH.
    destruct (digit_char_spec (n mod 10)) as [Hd Hv]; [apply N.mod_lt; discriminate|].
    rewrite (scan_digits_digit _ _ _ _ Hd), Hv.
    f_equal; [|lia].
    rewrite Nat2N.inj_succ, N.pow_succ_r'.
    rewrite (N.Div0.mod_mul_r n 10 (10 ^ N.of_nat w)). lia.
Qed.

Lemma scan_sign_digit (c : ascii) (s : string) :
  Text.is_digit c = true -> Text.scan_sign (String c s) = (false, String c s).
Proof.
  destruct c as [[] [] [] [] [] [] [] []]; try reflexivity; vm_compute; discriminate.
Qed.

Lemma digit_not_name (c : ascii) (s : string) :
  Text.is_digit c = true ->
  (String.eqb (Text.lower (String c s)) "inf"
   || String.eqb (Text.lower (String c s)) "infinity") = false
  /\ String.eqb (Text.lower (String c s)) "nan" = false.
Proof.
  destruct c as [[] [] [] [] [] [] [] []]; intros H; try (vm_compute in H; discriminate);
    split; reflexivity.
Qed.

Lemma py_float_fixed (neg : bool) (d : nat) (n : N) :
  (1 <= d)%nat ->
  FloatText.py_float (FloatText.sign_text neg ++ FloatText.fixed_text d n)
  = Some (FloatText.of_decimal neg n (- Z.of_nat d)).
Proof.
  intros Hd. destruct d as [|d]; [lia|]. clear Hd.
  set (ip := (n / 10 ^ N.of_nat (S d))%N).
  set (frac := Text.fixed_digits (S d) n).
  assert (Ht : FloatText.fixed_text (S d) n = (Text.str_of_N ip ++ String "." frac)%string)
    by reflexivity.
  rewrite Ht. clear Ht.
  destruct (str_of_N_first ip) as [c [s [Hs Hc]]].
  assert (Hplain : Text.all_chars is_plain_char
                     (FloatText.sign_text neg ++ Text.str_of_N ip ++ String "." frac) = true).
  { apply all_chars_weaken with (p := is_numeral_char); [apply numeral_char_plain|].
    assert (A1 : Text.all_chars is_numeral_char (FloatText.sign_text neg) = true)
      by now destruct neg.
    pose proof (all_chars_weaken _ _ _ digit_is_numeral_char (str_of_N_digits ip)) as A2.
    pose proof (all_chars_weaken _ _ _ digit_is_numeral_char
                  (fixed_digits_are_digits (S d) n)) as A3.
    fold frac in A3.
    rewrite !all_chars_app, A1, A2. cbn [Text.all_chars]. rewrite A3. reflexivity. }
  unfold FloatText.py_float.
  rewrite (proj2 (plain_strip _ Hplain)).
  assert (Hsign : Text.scan_sign (FloatText.sign_text neg ++ Text.str_of_N ip ++ String "." frac)
                  = (neg, (Text.str_of_N ip ++ String "." frac)%string)).
  { destruct neg; simpl; [reflexivity|]. rewrite Hs. simpl. now apply scan_sign_digit. }
  rewrite Hsign.
  assert (Hname := digit_not_name c (s ++ String "." frac) Hc).
  destruct Hname as [Hinf Hnan].
  rewrite Hs. simpl append. rewrite Hinf, Hnan.
  change (String c (s ++ String "." frac))%string with (String c s ++ String "." frac)%string.
  rewrite <- Hs. unfold Text.str_of_N.
  rewrite scan_digits_fixed.
  rewrite scan_digits_stop by reflexivity.
  rewrite N.mul_0_l, N.add_0_l, N.mod_small by apply dec_width_bound.
  pose proof (dec_width_aux_pos (N.to_nat (N.log2 ip)) ip) as Hw.
  fold (Text.dec_width ip) in Hw.
  rewrite <- (append_nil_r frac). unfold frac. rewrite scan_digits_fixed.
  cbn [Text.scan_digits].
  destruct (Text.dec_width ip) as [|w]; [lia|]. simpl.
  do 2 f_equal.
  unfold ip. rewrite N.mul_comm, <- N.div_mod'. reflexivity.
Qed.

(** [float()] reads back the [d]-decimal rendering of a float as that float
    rounded to [d] decimals. *)
Lemma py_float_format (d : nat) (x : float) :
  (1 <= d)%nat ->
  FloatText.py_float (FloatText.format_f d x) = Some (FloatText.round_decimals d x).
Proof.
  intros Hd. destruct x as [s|s| |s m e]; simpl FloatText.format_f.
  - rewrite (py_float_fixed s d 0 Hd). reflexivity.
  - destruct s; reflexivity.
  - reflexivity.
  - apply py_float_fixed, Hd.
Qed.

Lemma fixed_text_numeral (d : nat) (n : N) :
  Text.all_chars is_numeral_char (FloatText.fixed_text d n) = true.
Proof.
  unfold FloatText.fixed_text. rewrite all_chars_app.
  rewrite (all_chars_weaken _ _ _ digit_is_numeral_char (str_of_N_digits _)).
  destruct d as [|d]; [reflexivity|]. cbn [Text.all_chars].
  now rewrite (all_chars_weaken _ _ _ digit_is_numeral_char (fixed_digits_are_digits _ _)).
Qed.

Lemma not_empty_app_r (a b : string) :
  String.eqb b EmptyString = false -> String.eqb (a ++ b) EmptyString = false.
Proof. intros H. destruct a; [exact H | reflexivity]. Qed.

Lemma fixed_text_not_empty (d : nat) (n : N) :
  String.eqb (FloatText.fixed_text d n) EmptyString = false.
Proof.
  unfold FloatText.fixed_text.
  destruct (str_of_N_first (n / 10 ^ N.of_nat d)) as [c [s [-> _]]]. reflexivity.
Qed.

(** What [format_f] prints needs no quoting and survives stripping. *)
Lemma format_f_plain (d : nat) (x : float) : is_plain (FloatText.format_f d x) = true.
Proof.
  unfold is_plain.
  destruct x as [s|s| |s m e]; simpl FloatText.format_f;
    try (destruct s; reflexivity); try reflexivity.
  - rewrite not_empty_app_r by apply fixed_text_not_empty.
    apply (all_chars_weaken _ _ _ numeral_char_plain).
    rewrite all_chars_app, fixed_text_numeral. now destruct s.
  - rewrite not_empty_app_r by apply fixed_text_not_empty.
    apply (all_chars_weaken _ _ _ numeral_char_plain).
    rewrite all_chars_app, fixed_text_numeral. now destruct s.
Qed.

Lemma skip_digits_app (a : string) (c : ascii) (r : string) :
  Text.all_chars Text.is_digit a = true -> Text.is_digit c = false ->
  skip_digits (a ++ String c r) = String c r.
Proof.
  intros Ha Hc. induction a as [|x a IH]; simpl.
  - now rewrite Hc.
  - simpl in Ha. apply andb_true_iff in Ha. destruct Ha as [Hx Ha].
    rewrite Hx. now apply IH.
Qed.

Lemma drop_minus_digit (c : ascii) (s : string) :
  Text.is_digit c = true -> drop_minus (String c s) = String c s.
Proof.
  destruct c as [[] [] [] [] [] [] [] []]; try reflexivity; vm_compute; discriminate.
Qed.

Lemma fixed_text_unsigned (d : nat) (n : N) :
  (1 <= d)%nat -> is_unsigned_fixed_point d (FloatText.fixed_text d n) = true.
Proof.
  intros Hd. destruct d as [|d]; [lia|].
  unfold FloatText.fixed_text, is_unsigned_fixed_point.
  rewrite skip_digits_app by (apply str_of_N_digits || reflexivity).
  destruct (str_of_N_first (n / 10 ^ N.of_nat (S d))) as [c [t [-> Hc]]].
  cbn [append]. rewrite Hc.
  rewrite fixed_digits_are_digits, fixed_digits_length, Nat.eqb_refl. reflexivity.
Qed.

(** The rendering of a finite float is a fixed-point numeral with exactly
    [d] decimals. *)
Lemma format_f_fixed_point (d : nat) (x : float) :
  (1 <= d)%nat -> F64.is_finite x = true ->
  is_fixed_point d (FloatText.format_f d x) = true.
Proof.
  intros Hd Hx.
  assert (H : forall s n,
             is_fixed_point d (FloatText.sign_text s ++ FloatText.fixed_text d n) = true).
  { intros s n. unfold is_fixed_point.
    pose proof (fixed_text_unsigned d n Hd) as Hu.
    destruct s; cbn [FloatText.sign_text append drop_minus]; [exact Hu|].
    unfold FloatText.fixed_text in *.
    destruct (str_of_N_first (n / 10 ^ N.of_nat d)) as [c [t [Ht Hc]]].
    rewrite Ht in *. cbn [append] in *. now rewrite drop_minus_digit. }
  destruct x as [s|s| |s m e]; try discriminate; simpl FloatText.format_f; apply H.
Qed.

Lemma str_of_Z_plain (z : Z) : is_plain (Text.str_of_Z z) = true.
Proof.
  unfold is_plain.
  assert (H : forall n, negb (String.eqb (Text.str_of_N n) EmptyString)
                        && Text.all_chars is_plain_char (Text.str_of_N n) = true).
  { intros n. destruct (str_of_N_first n) as [c [s [Hs _]]].
    rewrite (all_chars_weaken _ _ _ numeral_char_plain
               (all_chars_weaken _ _ _ digit_is_numeral_char (str_of_N_digits n))).
    now rewrite Hs. }
  destruct z as [|p|p]; simpl Text.str_of_Z; try apply H.
  specialize (H (Npos p)). apply andb_true_iff in H. destruct H as [_ H].
  cbn [Text.all_chars String.eqb negb andb]. now rewrite H.
Qed.

(** [int(str(z)) == z] *)
Lemma py_int_str (z : Z) : Text.py_int (Text.str_of_Z z) = Some z.
Proof.
  pose proof (str_of_Z_plain z) as Hp. unfold is_plain in Hp.
  apply andb_true_iff in Hp. destruct Hp as [_ Hp].
  unfold Text.py_int. rewrite (proj2 (plain_strip _ Hp)).
  assert (H : forall n, Text.scan_digits 0 0 (Text.str_of_N n)
                        = (n, Text.dec_width n, EmptyString)).
  { intros n. rewrite <- (append_nil_r (Text.str_of_N n)). unfold Text.str_of_N.
    rewrite scan_digits_fixed. cbn [Text.scan_digits].
    rewrite N.mul_0_l, N.add_0_l, N.mod_small by apply dec_width_bound. reflexivity. }
  assert (W : forall n, exists w, Text.dec_width n = S w).
  { intros n. pose proof (dec_width_aux_pos (N.to_nat (N.log2 n)) n) as P.
    fold (Text.dec_width n) in P. destruct (Text.dec_width n) as [|w]; [lia|]. now exists w. }
  destruct z as [|p|p]; simpl Text.str_of_Z.
  - reflexivity.
  - destruct (str_of_N_first (Npos p)) as [c [s [Hs Hc]]].
    rewrite Hs, (scan_sign_digit _ _ Hc), <- Hs, H.
    destruct (W (Npos p)) as [w ->]. reflexivity.
  - cbn [Text.scan_sign]. rewrite H. destruct (W (Npos p)) as [w ->]. reflexivity.
Qed.

(** ** The csv reader on what the csv writer emits *)

Lemma plain_no_special (f : string) :
  Text.all_chars is_plain_char f = true -> Csv.has_special f = false.
Proof.
  induction f as [|c f IH]; simpl; [reflexivity|].
  intros H. apply andb_true_iff in H. destruct H as [Hc Hf].
  destruct (plain_char_not_special c Hc) as [-> _]. now apply IH.
Qed.

Lemma quote_field_plain (f : string) : is_plain f = true -> Csv.quote_field f = f.
Proof.
  unfold is_plain, Csv.quote_field. intros H. apply andb_true_iff in H.
  destruct H as [_ H]. now rewrite (plain_no_special f H).
Qed.

Lemma map_quote_field_plain (row : list string) :
  forallb is_plain row = true -> map Csv.quote_field row = row.
Proof.
  induction row as [|f row IH]; simpl; [reflexivity|].
  intros H. apply andb_true_iff in H. destruct H as [Hf Hrow].
  now rewrite (quote_field_plain f Hf), IH.
Qed.

Lemma writerow_plain (row : list string) :
  is_plain_row row = true ->
  Csv.writerow row = (Text.join "," row ++ CRLF)%string.
Proof.
  unfold is_plain_row. intros H. apply andb_true_iff in H. destruct H as [_ H].
  unfold Csv.writerow. rewrite (map_quote_field_plain row H).
  destruct row as [|f [|g row]]; try reflexivity;
    destruct f; try reflexivity; simpl in H; discriminate.
Qed.

Lemma lines_from_plain (f : string) : forall cur rest,
  Text.all_chars is_plain_char f = true ->
  Csv.lines_from cur (f ++ rest) = Csv.lines_from (cur ++ f) rest.
Proof.
  induction f as [|c f IH]; intros cur rest H; simpl.
  - now rewrite append_nil_r.
  - simpl in H. apply andb_true_iff in H. destruct H as [Hc Hf].
    destruct (plain_char_not_special c Hc) as [_ [_ [_ [_ [Hcr Hlf]]]]].
    rewrite Hlf, Hcr, (IH _ _ Hf), append_assoc. reflexivity.
Qed.

Lemma lines_from_comma (cur rest : string) :
  Csv.lines_from cur (String "," rest) = Csv.lines_from (cur ++ ",") rest.
Proof. reflexivity. Qed.

Lemma lines_from_crlf (cur rest : string) :
  Csv.lines_from cur (CRLF ++ rest) = (cur ++ CRLF)%string :: Csv.lines_from EmptyString rest.
Proof. reflexivity. Qed.

Lemma lines_from_join (row : list string) : forall cur rest,
  forallb is_plain row = true ->
  Csv.lines_from cur (Text.join "," row ++ rest)
  = Csv.lines_from (cur ++ Text.join "," row) rest.
Proof.
  induction row as [|f row IH]; intros cur rest H.
  - simpl. now rewrite append_nil_r.
  - simpl in H. apply andb_true_iff in H. destruct H as [Hf Hrow].
    unfold is_plain in Hf. apply andb_true_iff in Hf. destruct Hf as [_ Hf].
    destruct row as [|g row].
    + simpl Text.join. now apply lines_from_plain.
    + change (Text.join "," (f :: g :: row))
        with (f ++ "," ++ Text.join "," (g :: row))%string.
      rewrite !append_assoc, (lines_from_plain f _ _ Hf).
      cbn [append]. rewrite lines_from_comma, (IH _ _ Hrow), !append_assoc.
      reflexivity.
Qed.

Lemma lines_writerow (row : list string) (rest : string) :
  is_plain_row row = true ->
  Csv.lines_from EmptyString (Csv.writerow row ++ rest)
  = Csv.writerow row :: Csv.lines_from EmptyString rest.
Proof.
  intros H. rewrite (writerow_plain row H).
  unfold is_plain_row in H. apply andb_true_iff in H. destruct H as [_ H].
  rewrite append_assoc, (lines_from_join row _ _ H), lines_from_crlf. reflexivity.
Qed.

Lemma lines_of_rows (rows : list (list string)) :
  forallb is_plain_row rows = true ->
  Csv.lines (Text.concat_all (map Csv.writerow rows)) = map Csv.writerow rows.
Proof.
  unfold Csv.lines. induction rows as [|row rows IH]; simpl; [reflexivity|].
  intros H. apply andb_true_iff in H. destruct H as [Hrow Hrows].
  now rewrite (lines_writerow row _ Hrow), IH.
Qed.

Lemma process_chars_app (a b : string) : forall r,
  Csv.process_chars r (a ++ b)
  = (r' <- Csv.process_chars r a ;; Csv.process_chars r' b).
Proof.
  induction a as [|c a IH]; intros r; simpl; [reflexivity|].
  destruct (Csv.process_char r (Some c)); simpl; [apply IH | reflexivity].
Qed.

Lemma process_in_field (f : string) : forall fs cur,
  Text.all_chars is_plain_char f = true ->
  Csv.process_chars (Csv.mkReader Csv.IN_FIELD fs cur) f
  = Ok (Csv.mkReader Csv.IN_FIELD fs (cur ++ f)).
Proof.
  induction f as [|c f IH]; intros fs cur H; simpl.
  - now rewrite append_nil_r.
  - simpl in H. apply andb_true_iff in H. destruct H as [Hc Hf].
    destruct (plain_char_not_special c Hc) as [_ [Hnl [Hco _]]].
    unfold Csv.process_char. simpl. rewrite Hnl, Hco. simpl.
    unfold Csv.add_char. simpl. rewrite (IH _ _ Hf), append_assoc. reflexivity.
Qed.

Lemma process_field (f : string) (st : Csv.rstate) (fs : list string) :
  field_start st -> is_plain f = true ->
  Csv.process_chars (Csv.mkReader st fs EmptyString) f
  = Ok (Csv.mkReader Csv.IN_FIELD fs f).
Proof.
  intros Hst H. unfold is_plain in H. apply andb_true_iff in H. destruct H as [Hne H].
  destruct f as [|c f]; [discriminate|].
  simpl in H. apply andb_true_iff in H. destruct H as [Hc Hf].
  destruct (plain_char_not_special c Hc) as [_ [Hnl [Hco [Hq _]]]].
  assert (Hfirst : Csv.process_char (Csv.mkReader st fs EmptyString) (Some c)
                   = Ok (Csv.mkReader Csv.IN_FIELD fs (String c EmptyString))).
  { unfold Csv.process_char, Csv.start_field.
    destruct Hst as [-> | ->]; simpl; rewrite Hnl, ?Hq, ?Hco; reflexivity. }
  cbn [Csv.process_chars]. rewrite Hfirst. simpl bind.
  now rewrite (process_in_field f fs _ Hf).
Qed.

Lemma process_row (row : list string) : forall st fs,
  field_start st -> is_plain_row row = true ->
  Csv.process_chars (Csv.mkReader st fs EmptyString) (Text.join "," row ++ CRLF)
  = Ok (Csv.mkReader Csv.EAT_CRNL (fs ++ row) EmptyString).
Proof.
  unfold is_plain_row.
  induction row as [|f row IH]; intros st fs Hst H; [discriminate|].
  simpl in H. apply andb_true_iff in H. destruct H as [Hf Hrow].
  destruct row as [|g row].
  - cbn [Text.join]. rewrite process_chars_app, (process_field f st fs Hst Hf).
    reflexivity.
  - change (Text.join "," (f :: g :: row))
      with (f ++ "," ++ Text.join "," (g :: row))%string.
    rewrite append_assoc, process_chars_app, (process_field f st fs Hst Hf).
    cbn [bind append Csv.process_chars].
    change (Csv.process_char (Csv.mkReader Csv.IN_FIELD fs f) (Some ","%char))
      with (Ok (Csv.mkReader Csv.START_FIELD (fs ++ [f]) EmptyString)).
    cbn [bind]. rewrite IH; [|right; reflexivity|exact Hrow].
    now rewrite <- app_assoc.
Qed.

Lemma process_line_writerow (row : list string) :
  is_plain_row row = true ->
  Csv.process_line Csv.reset (Csv.writerow row)
  = Ok (Csv.mkReader Csv.START_RECORD row EmptyString).
Proof.
  intros H. rewrite (writerow_plain row H). unfold Csv.process_line, Csv.reset.
  rewrite (process_row row _ [] (or_introl eq_refl) H). reflexivity.
Qed.

Lemma read_records_rows (rows : list (list string)) :
  forallb is_plain_row rows = true ->
  Csv.read_records Csv.reset (map Csv.writerow rows) = Ok rows.
Proof.
  induction rows as [|row rows IH]; simpl; [reflexivity|].
  intros H. apply andb_true_iff in H. destruct H as [Hrow Hrows].
  rewrite (process_line_writerow row Hrow). simpl. now rewrite (IH Hrows).
Qed.

(** Reading back what the writer wrote gives the rows, as long as the
    fields are plain. *)
Lemma reader_rows_writer (rows : list (list string)) :
  forallb is_plain_row rows = true ->
  Csv.reader_rows (Text.concat_all (map Csv.writerow rows)) = Ok rows.
Proof.
  intros H. unfold Csv.reader_rows. rewrite (lines_of_rows rows H).
  now apply read_records_rows.
Qed.

(** ** Sample store round trip *)

Lemma sample_row_plain (r : Sample.t) : is_plain_row (sample_row r) = true.
Proof.
  unfold is_plain_row, sample_row. cbn [Csv.is_blank negb forallb andb].
  now rewrite !format_f_plain, str_of_Z_plain.
Qed.

Lemma sample_rows_plain (rows : list Sample.t) :
  forallb is_plain_row (csv_header :: map sample_row rows) = true.
Proof.
  cbn [forallb]. replace (is_plain_row csv_header) with true by reflexivity.
  cbn [andb]. induction rows as [|r rows IH]; [reflexivity|].
  cbn [map forallb]. now rewrite sample_row_plain, IH.
Qed.

Lemma csv_text_rows (rows : list Sample.t) :
  csv_text rows = Text.concat_all (map Csv.writerow (csv_header :: map sample_row rows)).
Proof. unfold csv_text. cbn [map Text.concat_all]. now rewrite map_map. Qed.

Lemma filter_not_blank (rows : list Sample.t) :
  filter (fun r => negb (Csv.is_blank r)) (map sample_row rows) = map sample_row rows.
Proof. induction rows as [|r rows IH]; simpl; [reflexivity | now rewrite IH]. Qed.

Lemma dict_rows_csv_text (rows : list Sample.t) :
  Csv.dict_rows (csv_text rows)
  = Ok (map (fun r => Csv.zip_row csv_header (sample_row r)) rows).
Proof.
  unfold Csv.dict_rows.
  rewrite csv_text_rows, (reader_rows_writer _ (sample_rows_plain rows)).
  cbn [bind]. now rewrite filter_not_blank, map_map.
Qed.

Lemma float_of_field_format (x : float) :
  float_of_field (FloatText.format_f 3 x) = Ok (FloatText.round_decimals 3 x).
Proof. unfold float_of_field. rewrite py_float_format by lia. reflexivity. Qed.

Lemma load_row_sample_row (r : Sample.t) :
  load_row (Csv.zip_row csv_header (sample_row r)) = Ok (stored r).
Proof.
  unfold load_row, sample_row, csv_header.
  change (getitem (Csv.zip_row _ _) "echo_us")
    with (@Ok (option string) (Some (FloatText.format_f 3 (Sample.echo_us r)))).
  cbn [bind float_of_value]. rewrite float_of_field_format. cbn [bind].
  change (getitem (Csv.zip_row _ _) "label")
    with (@Ok (option string) (Some (Text.str_of_Z (Sample.label r)))).
  cbn [bind int_of_value]. rewrite py_int_str. cbn [bind].
  change (get_default (Csv.zip_row _ _) "fresh_anchor" "1400")
    with (Some (FloatText.format_f 3 (Sample.fresh_anchor r))).
  change (get_default (Csv.zip_row _ _) "spoil_anchor" "2600")
    with (Some (FloatText.format_f 3 (Sample.spoil_anchor r))).
  cbn [float_of_value]. rewrite !float_of_field_format. reflexivity.
Qed.

Lemma load_rows_sample_rows (rows : list Sample.t) :
  load_rows (map (fun r => Csv.zip_row csv_header (sample_row r)) rows)
  = Ok (map stored rows).
Proof.
  induction rows as [|r rows IH]; [reflexivity|].
  cbn [map load_rows]. now rewrite load_row_sample_row, IH.
Qed.

Example round_trip_example :
  load_csv "run.csv" (save_csv "run.csv" [example_sample 1; example_sample 0] no_files)
  = Ok [example_sample 1; example_sample 0].
Proof. vm_compute. reflexivity. Qed.

(** Rounding to three decimals changes nothing on a float that has at most
    three decimals, such as an integer number of microseconds. *)
Example round_decimals_1500 : FloatText.round_decimals 3 (F64.of_Z 1500) = F64.of_Z 1500.
Proof. vm_compute. reflexivity. Qed.

(** ** Weight serializer *)

Lemma split_not_nil (sep : ascii) (s : string) : Text.split sep s <> [].
Proof.
  destruct s as [|c s]; simpl; [discriminate|].
  destruct (Ascii.eqb c sep); [discriminate|].
  destruct (Text.split sep s); discriminate.
Qed.

Lemma split_plain (f rest : string) :
  Text.all_chars is_plain_char f = true ->
  Text.split "," (f ++ rest)
  = match Text.split "," rest with
    | g :: gs => (f ++ g)%string :: gs
    | [] => [f]
    end.
Proof.
  induction f as [|c f IH]; intros H.
  - cbn [append]. pose proof (split_not_nil "," rest) as Hn.
    now destruct (Text.split "," rest).
  - simpl in H. apply andb_true_iff in H. destruct H as [Hc Hf].
    destruct (plain_char_not_special c Hc) as [_ [_ [Hco _]]].
    cbn [append Text.split]. change ","%char with Csv.COMMA. rewrite Hco.
    change Csv.COMMA with ","%char. rewrite (IH Hf).
    now destruct (Text.split "," rest).
Qed.

Lemma split_join (fields : list string) :
  fields <> [] -> forallb is_plain fields = true ->
  Text.split "," (Text.join "," fields) = fields.
Proof.
  induction fields as [|f fields IH]; intros Hne H; [contradiction|].
  simpl in H. apply andb_true_iff in H. destruct H as [Hf Hfs].
  unfold is_plain in Hf. apply andb_true_iff in Hf. destruct Hf as [_ Hf].
  destruct fields as [|g fields].
  - cbn [Text.join]. rewrite <- (append_nil_r f) at 1. rewrite (split_plain f _ Hf).
    cbn [Text.split]. now rewrite append_nil_r.
  - change (Text.join "," (f :: g :: fields))
      with (f ++ String "," (Text.join "," (g :: fields)))%string.
    rewrite (split_plain f _ Hf). cbn [Text.split Ascii.eqb Bool.eqb].
    rewrite IH by (discriminate || exact Hfs). now rewrite append_nil_r.
Qed.

Lemma join_snoc (fields : list string) (x : string) :
  fields <> [] ->
  Text.join "," (fields ++ [x]) = (Text.join "," fields ++ "," ++ x)%string.
Proof.
  induction fields as [|f fields IH]; intros Hne; [contradiction|].
  destruct fields as [|g fields]; [reflexivity|].
  change (Text.join "," ((f :: g :: fields) ++ [x]))
    with (f ++ "," ++ Text.join "," ((g :: fields) ++ [x]))%string.
  rewrite IH by discriminate.
  change (Text.join "," (f :: g :: fields))
    with (f ++ "," ++ Text.join "," (g :: fields))%string.
  now rewrite !append_assoc.
Qed.

(** ** Line protocol parser *)

(** C2, as stated, fails: a line with eight fields is accepted, its first
    seven fields making the record. *)
Lemma eight_fields_accepted :
  List.length (Text.split "," "1,2,3,4,5,6,7,8") = 8%nat
  /\ parse_device_csv_line "1,2,3,4,5,6,7,8"
     = Ok (Some (Rec.mk 1 (F64.of_Z 2) (F64.of_Z 3) (F64.of_Z 4) (F64.of_Z 5)
                        (F64.of_Z 6) (F64.of_Z 7))).
Proof. vm_compute. split; reflexivity. Qed.

(** And a first field that is a number but not a finite one is refused. *)
Example infinite_timestamp_refused :
  forallb is_numeric (Text.split "," "inf,2,3,4,5,6,7") = true
  /\ parse_device_csv_line "inf,2,3,4,5,6,7" = Ok None.
Proof. vm_compute. split; reflexivity. Qed.

Example six_fields_refused : parse_device_csv_line "1,2,3,4,5,6" = Ok None.
Proof. vm_compute. reflexivity. Qed.

Example non_numeric_refused : parse_device_csv_line "1,2,3,x,5,6,7" = Ok None.
Proof. vm_compute. reflexivity. Qed.

Lemma float_of_field_numeric (s : string) :
  (exists x, float_of_field s = Ok x /\ FloatText.py_float s = Some x /\ is_numeric s = true)
  \/ (float_of_field s = Raise ValueError /\ is_numeric s = false).
Proof.
  unfold float_of_field, is_numeric. destruct (FloatText.py_float s) as [x|].
  - left. exists x. auto.
  - right. auto.
Qed.

Lemma int_of_float_finite (t : float) :
  (exists z, FloatText.py_int_of_float t = Ok z /\ F64.is_finite t = true)
  \/ ((exists e, FloatText.py_int_of_float t = Raise e) /\ F64.is_finite t = false).
Proof.
  destruct t as [s|s| |s m e]; simpl; eauto.
Qed.

(** C2, amended: the structured-CSV parser never raises; it returns a record
    exactly when the line has at least seven comma-separated fields, the
    first seven (stripped) are accepted by [float()], and the first one is
    finite; the record holds the first field truncated to an integer and
    the six others as parsed.  Every other line gives [None]. *)
Theorem csv_line_parser (line : string) :
  let parts := map Text.strip (Text.split "," line) in
  exists o, parse_device_csv_line line = Ok o
    /\ (o <> None <->
        (7 <= List.length parts)%nat
        /\ forallb is_numeric (firstn 7 parts) = true
        /\ is_finite_numeric (nth 0 parts EmptyString) = true)
    /\ (forall rec, o = Some rec ->
        (exists t, FloatText.py_float (nth 0 parts EmptyString) = Some t
                   /\ FloatText.py_int_of_float t = Ok (Rec.ts_ms rec))
        /\ FloatText.py_float (nth 1 parts EmptyString) = Some (Rec.echo_us rec)
        /\ FloatText.py_float (nth 2 parts EmptyString) = Some (Rec.mad_us rec)
        /\ FloatText.py_float (nth 3 parts EmptyString) = Some (Rec.fresh_pct rec)
        /\ FloatText.py_float (nth 4 parts EmptyString) = Some (Rec.conf_pct rec)
        /\ FloatText.py_float (nth 5 parts EmptyString) = Some (Rec.fresh_anchor rec)
        /\ FloatText.py_float (nth 6 parts EmptyString) = Some (Rec.spoil_anchor rec)).
Proof.
  intros parts. unfold parse_device_csv_line, parse_device_csv_fields.
  fold parts. generalize parts. clear parts line. intros parts.
  destruct (List.length parts <? 7)%nat eqn:Elen.
  - apply Nat.ltb_lt in Elen. exists None. split; [reflexivity|]. split.
    + split; [congruence | intros [H _]; lia].
    + discriminate.
  - apply Nat.ltb_ge in Elen.
    destruct parts as [|p0 [|p1 [|p2 [|p3 [|p4 [|p5 [|p6 rest]]]]]]];
      simpl in Elen; try lia.
    cbn [nth firstn forallb].
    unfold is_finite_numeric, is_numeric, float_of_field.
    destruct (FloatText.py_float p0) as [t|]; cbn [bind];
      [|exists None; split; [reflexivity|]; split;
        [split; [congruence | intros [_ [_ H]]; discriminate] | discriminate]].
    destruct (int_of_float_finite t) as [[z [Hz Hfin]] | [[e He] Hfin]];
      rewrite ?Hz, ?He, Hfin; cbn [bind];
      [|exists None; split; [reflexivity|]; split;
        [split; [congruence | intros [_ [_ H]]; discriminate] | discriminate]].
    destruct (FloatText.py_float p1) as [x1|]; cbn [bind andb];
      [|exists None; split; [reflexivity|]; split;
        [split; [congruence | intros [_ [H _]]; discriminate] | discriminate]].
    destruct (FloatText.py_float p2) as [x2|]; cbn [bind andb];
      [|exists None; split; [reflexivity|]; split;
        [split; [congruence | intros [_ [H _]]; discriminate] | discriminate]].
    destruct (FloatText.py_float p3) as [x3|]; cbn [bind andb];
      [|exists None; split; [reflexivity|]; split;
        [split; [congruence | intros [_ [H _]]; discriminate] | discriminate]].
    destruct (FloatText.py_float p4) as [x4|]; cbn [bind andb];
      [|exists None; split; [reflexivity|]; split;
        [split; [congruence | intros [_ [H _]]; discriminate] | discriminate]].
    destruct (FloatText.py_float p5) as [x5|]; cbn [bind andb];
      [|exists None; split; [reflexivity|]; split;
        [split; [congruence | intros [_ [H _]]; discriminate] | discriminate]].
    destruct (FloatText.py_float p6) as [x6|]; cbn [bind andb];
      [|exists None; split; [reflexivity|]; split;
        [split; [congruence | intros [_ [H _]]; discriminate] | discriminate]].
    eexists. split; [reflexivity|]. split.
    + split; [intros _; repeat split; simpl; lia | congruence].
    + intros rec [= <-]. cbn. repeat split. exists t. split; [reflexivity | exact Hz].
Qed.

Lemma csv_line_parser_witness :
  exists rec, parse_device_csv_line " 12.9 , 2e3,3,4,5,6, 7 " = Ok (Some rec)
              /\ Rec.ts_ms rec = 12.
Proof.
  destruct (csv_line_parser " 12.9 , 2e3,3,4,5,6, 7 ") as [o [Ho [Hsome Hrec]]].
  destruct o as [rec|].
  - exists rec. split; [exact Ho|].
    destruct (Hrec rec eq_refl) as [[t [Ht Hts]] _].
    vm_compute in Ht. injection Ht as <-. vm_compute in Hts. now injection Hts.
  - exfalso. apply (proj2 Hsome); [|reflexivity].
    vm_compute. repeat split. lia.
Defined.

(** ** Echo normalizer *)

Example scale_echo_1000 :
  scale_echo (PyFloat (F64.of_Z 1000)) (PyFloat (F64.of_Z 1400)) (PyFloat (F64.of_Z 2600))
  = Ok (PyFloat F64.one).
Proof. vm_compute. reflexivity. Qed.

Example scale_echo_2600 :
  scale_echo (PyFloat (F64.of_Z 2600)) (PyFloat (F64.of_Z 1400)) (PyFloat (F64.of_Z 2600))
  = Ok (PyFloat F64.zero).
Proof. vm_compute. reflexivity. Qed.

Example scale_echo_2000 :
  scale_echo (PyFloat (F64.of_Z 2000)) (PyFloat (F64.of_Z 1400)) (PyFloat (F64.of_Z 2600))
  = Ok (PyFloat (F64.div (F64.of_Z 1) (F64.of_Z 2))).
Proof. vm_compute. reflexivity. Qed.

(** *** Division by one is exact *)

Lemma div_eucl_mul (a b : Z) : 0 < b -> Z.div_eucl (a * b) b = (a, 0).
Proof.
  intros Hb. pose proof (Z.div_mul a b ltac:(lia)) as Hd.
  pose proof (Z.mod_mul a b ltac:(lia)) as Hm.
  unfold Z.div, Z.modulo in Hd, Hm.
  destruct (Z.div_eucl (a * b) b) as [q r]. simpl in Hd, Hm. now subst.
Qed.

Lemma div_core_one (m : positive) (e : Z) :
  canonical_mantissa F64.prec F64.emax m e = true ->
  SFdiv_core_binary F64.prec F64.emax (Zpos m) e (Zpos 4503599627370496) (-52)
  = if e =? -1074 then (Zpos m, e, loc_Exact) else (Zpos (xO m), e - 1, loc_Exact).
Proof.
  unfold canonical_mantissa. intros Hc. apply Z.eqb_eq in Hc.
  unfold SFdiv_core_binary.
  change (Zdigits2 (Zpos m)) with (Zpos (digits2_pos m)).
  change (Zdigits2 (Zpos 4503599627370496)) with 53.
  set (d := Zpos (digits2_pos m)) in *.
  unfold fexp, emin, F64.prec, F64.emax in *.
  destruct (Z.eqb_spec e (-1074)) as [He|He].
  - replace (Z.min (Z.max (d + e - (53 + -52) - 53) (3 - 1024 - 53)) (e - -52)) with e by lia.
    replace (e - -52 - e) with 52 by lia.
    cbv iota. rewrite Z.shiftl_mul_pow2 by lia.
    change (2 ^ 52) with 4503599627370496.
    rewrite div_eucl_mul by lia. reflexivity.
  - replace (Z.min (Z.max (d + e - (53 + -52) - 53) (3 - 1024 - 53)) (e - -52))
      with (e - 1) by lia.
    replace (e - -52 - (e - 1)) with 53 by lia.
    cbv iota. rewrite Z.shiftl_mul_pow2 by lia.
    replace (Zpos m * 2 ^ 53) with (Zpos (xO m) * 4503599627370496) by lia.
    rewrite div_eucl_mul by lia. reflexivity.
Qed.

Lemma round_exact_canonical (s : bool) (m : positive) (e : Z) :
  canonical_mantissa F64.prec F64.emax m e = true ->
  (e <=? F64.emax - F64.prec) = true ->
  binary_round_aux F64.prec F64.emax s (Zpos m) e loc_Exact = S754_finite s m e.
Proof.
  unfold canonical_mantissa. intros Hc Hb. apply Z.eqb_eq in Hc.
  unfold binary_round_aux, shr_fexp.
  change (Zdigits2 (Zpos m)) with (Zpos (digits2_pos m)).
  rewrite Hc, Z.sub_diag. cbn [shr shr_record_of_loc shr_m loc_of_shr_record round_nearest_even].
  change (Zdigits2 (Zpos m)) with (Zpos (digits2_pos m)).
  rewrite Hc, Z.sub_diag. cbn [shr shr_record_of_loc shr_m].
  now rewrite Hb.
Qed.

Lemma round_exact_doubled (s : bool) (m : positive) (e : Z) :
  canonical_mantissa F64.prec F64.emax m e = true ->
  (e <=? F64.emax - F64.prec) = true ->
  binary_round_aux F64.prec F64.emax s (Zpos (xO m)) (e - 1) loc_Exact = S754_finite s m e.
Proof.
  unfold canonical_mantissa. intros Hc Hb. apply Z.eqb_eq in Hc.
  unfold binary_round_aux, shr_fexp.
  change (Zdigits2 (Zpos (xO m))) with (Zpos (Pos.succ (digits2_pos m))).
  replace (Zpos (Pos.succ (digits2_pos m)) + (e - 1)) with (Zpos (digits2_pos m) + e) by lia.
  rewrite Hc. replace (e - (e - 1)) with 1 by lia.
  cbn [shr shr_record_of_loc iter_pos shr_1 orb shr_m loc_of_shr_record round_nearest_even].
  replace (e - 1 + 1) with e by lia.
  change (Zdigits2 (Zpos m)) with (Zpos (digits2_pos m)).
  rewrite Hc, Z.sub_diag. cbn [shr shr_record_of_loc shr_m].
  now rewrite Hb.
Qed.

(** Dividing a binary64 number by 1.0 returns it. *)
Lemma div_one (z : float) : F64.valid z = true -> F64.div z F64.one = z.
Proof.
  destruct z as [s|s| |s m e]; try (destruct s; reflexivity); try reflexivity.
  unfold F64.valid, valid_binary, bounded. intros H.
  apply andb_true_iff in H. destruct H as [Hc Hb].
  unfold F64.div, F64.one, SFdiv. rewrite (div_core_one m e Hc), xorb_false_r.
  destruct (e =? -1074).
  - now apply round_exact_canonical.
  - now apply round_exact_doubled.
Qed.

(** *** Rounding returns canonical floats *)

Lemma fexp_eq (x : Z) : fexp F64.prec F64.emax x = Z.max (x - 53) (-1074).
Proof. reflexivity. Qed.

Lemma digits2_pos_size (p : positive) : digits2_pos p = Pos.size p.
Proof. induction p; simpl; congruence. Qed.

Lemma Zdigits2_log2 (m : Z) : 0 < m -> Zdigits2 m = Z.log2 m + 1.
Proof.
  destruct m as [|p|p]; try lia. intros _. simpl Zdigits2.
  rewrite digits2_pos_size. destruct p; simpl; lia.
Qed.

Lemma shr_1_m (mrs : shr_record) :
  0 <= shr_m mrs -> shr_m (shr_1 mrs) = Z.shiftr (shr_m mrs) 1.
Proof.
  destruct mrs as [[|p|p] r s]; simpl; [reflexivity | destruct p; reflexivity | lia].
Qed.

Lemma iter_shr_m (p : positive) : forall mrs,
  0 <= shr_m mrs ->
  shr_m (iter_pos shr_1 p mrs) = Z.shiftr (shr_m mrs) (Zpos p).
Proof.
  induction p as [p IH|p IH|]; intros mrs H; simpl iter_pos.
  - assert (H1 : 0 <= shr_m (shr_1 mrs)) by (rewrite shr_1_m by lia; apply Z.shiftr_nonneg; lia).
    assert (H2 : 0 <= shr_m (iter_pos shr_1 p (shr_1 mrs)))
      by (rewrite IH by lia; apply Z.shiftr_nonneg; lia).
    rewrite IH, IH, shr_1_m by lia.
    rewrite !Z.shiftr_shiftr by lia. f_equal. lia.
  - assert (H2 : 0 <= shr_m (iter_pos shr_1 p mrs))
      by (rewrite IH by lia; apply Z.shiftr_nonneg; lia).
    rewrite IH, IH by lia. rewrite Z.shiftr_shiftr by lia. f_equal. lia.
  - now apply shr_1_m.
Qed.

Lemma shr_spec (mrs : shr_record) (e k : Z) :
  0 <= shr_m mrs -> 0 <= k ->
  shr_m (fst (shr mrs e k)) = Z.shiftr (shr_m mrs) k /\ snd (shr mrs e k) = e + k.
Proof.
  intros Hm Hk. destruct k as [|p|p]; try lia; simpl.
  - split; [now rewrite Z.shiftr_0_r | lia].
  - split; [now apply iter_shr_m | reflexivity].
Qed.

Lemma shr_record_of_loc_m (m : Z) (l : location) : shr_m (shr_record_of_loc m l) = m.
Proof. destruct l as [|[]]; reflexivity. Qed.

Lemma shr_fexp_spec (m e : Z) (l : location) :
  0 <= m -> e <= fexp F64.prec F64.emax (Zdigits2 m + e) ->
  shr_m (fst (shr_fexp F64.prec F64.emax m e l))
    = Z.shiftr m (fexp F64.prec F64.emax (Zdigits2 m + e) - e)
  /\ snd (shr_fexp F64.prec F64.emax m e l) = fexp F64.prec F64.emax (Zdigits2 m + e).
Proof.
  intros Hm Hk. unfold shr_fexp.
  destruct (shr_spec (shr_record_of_loc m l) e
              (fexp F64.prec F64.emax (Zdigits2 m + e) - e)) as [H1 H2].
  - now rewrite shr_record_of_loc_m.
  - lia.
  - rewrite H1, H2, shr_record_of_loc_m. split; [reflexivity | lia].
Qed.

Lemma round_nearest_even_bounds (m : Z) (l : location) :
  m <= round_nearest_even m l <= m + 1.
Proof.
  destruct l as [|[]]; simpl; try lia. destruct (Z.even m); lia.
Qed.

Lemma Zdigits2_0 : Zdigits2 0 = 0.
Proof. reflexivity. Qed.

Lemma Zdigits2_nonneg (m : Z) : 0 <= Zdigits2 m.
Proof. destruct m; simpl; lia. Qed.

Lemma Zdigits2_shiftr (m k : Z) :
  0 < m -> 0 <= k -> Zdigits2 (Z.shiftr m k) = Z.max 0 (Zdigits2 m - k).
Proof.
  intros Hm Hk. rewrite (Zdigits2_log2 m Hm).
  destruct (Z.eq_dec (Z.shiftr m k) 0) as [H0|H0].
  - rewrite H0. apply Z.shiftr_eq_0_iff in H0. simpl. lia.
  - assert (Hpos : 0 < Z.shiftr m k).
    { pose proof (proj2 (Z.shiftr_nonneg m k) ltac:(lia)). lia. }
    rewrite (Zdigits2_log2 _ Hpos), Z.log2_shiftr by lia.
    assert (~ (Z.log2 m < k)).
    { intros Hlt. apply H0. apply Z.shiftr_eq_0_iff. right. lia. }
    lia.
Qed.

Lemma Zdigits2_succ (m : Z) :
  0 <= m -> Zdigits2 m <= Zdigits2 (m + 1) <= Zdigits2 m + 1.
Proof.
  intros Hm. destruct (Z.eq_dec m 0) as [->|Hne]; [simpl; lia|].
  rewrite (Zdigits2_log2 m), (Zdigits2_log2 (m + 1)) by lia.
  pose proof (Z.log2_le_mono m (m + 1) ltac:(lia)).
  pose proof (Z.log2_succ_le m). unfold Z.succ in *. lia.
Qed.

(** The result of the rounding step is zero, an infinity, or a finite float
    whose mantissa and exponent are canonical and whose exponent is in
    range. *)
Lemma binary_round_aux_valid (sx : bool) (mx ex : Z) (lx : location) :
  0 <= mx -> ex <= fexp F64.prec F64.emax (Zdigits2 mx + ex) ->
  F64.valid (binary_round_aux F64.prec F64.emax sx mx ex lx) = true.
Proof.
  intros Hm He. unfold binary_round_aux.
  destruct (shr_fexp_spec mx ex lx Hm He) as [H1 H2].
  destruct (shr_fexp F64.prec F64.emax mx ex lx) as [mrs1 e1]. simpl in H1, H2.
  set (m1 := shr_m mrs1) in *.
  set (m1' := round_nearest_even m1 (loc_of_shr_record mrs1)).
  pose proof (round_nearest_even_bounds m1 (loc_of_shr_record mrs1)) as Hr. fold m1' in Hr.
  assert (Hm1 : 0 <= m1) by (rewrite H1; apply Z.shiftr_nonneg; lia).
  assert (Hd1 : Zdigits2 m1 = Z.max 0 (Zdigits2 mx + ex - e1)).
  { destruct (Z.eq_dec mx 0) as [->|Hne].
    - rewrite H1, Z.shiftr_0_l. change (Zdigits2 0) with 0 in *. lia.
    - rewrite H1, Zdigits2_shiftr by lia. rewrite H2. lia. }
  assert (Hd1' : Zdigits2 m1 <= Zdigits2 m1' <= Zdigits2 m1 + 1).
  { pose proof (Zdigits2_succ m1 Hm1).
    assert (m1' = m1 \/ m1' = m1 + 1) as [-> | ->] by lia; lia. }
  assert (He1 : e1 = Z.max (Zdigits2 mx + ex - 53) (-1074)) by (rewrite H2; apply fexp_eq).
  assert (Hk' : e1 <= fexp F64.prec F64.emax (Zdigits2 m1' + e1)).
  { rewrite fexp_eq. lia. }
  destruct (shr_fexp_spec m1' e1 loc_Exact ltac:(lia) Hk') as [H3 H4].
  destruct (shr_fexp F64.prec F64.emax m1' e1 loc_Exact) as [mrs2 e2]. simpl in H3, H4.
  destruct (shr_m mrs2) as [|m2|m2] eqn:Em2; try reflexivity.
  destruct (e2 <=? F64.emax - F64.prec) eqn:Eb; [|reflexivity].
  unfold F64.valid, valid_binary, bounded. rewrite Eb, andb_true_r.
  unfold canonical_mantissa. apply Z.eqb_eq.
  change (Zpos (digits2_pos m2)) with (Zdigits2 (Zpos m2)).
  assert (Hm1' : 0 < m1').
  { destruct (Z.eq_dec m1' 0) as [E0|E0]; [|lia].
    rewrite E0, Z.shiftr_0_l in H3. discriminate. }
  rewrite H3, Zdigits2_shiftr by (rewrite ?fexp_eq; lia).
  rewrite H4, !fexp_eq in *. pose proof (Zdigits2_nonneg mx).
  assert (1 <= Zdigits2 m1') by (rewrite (Zdigits2_log2 m1' Hm1'); pose proof (Z.log2_nonneg m1'); lia).
  lia.
Qed.

Lemma digits2_pos_iter_xO (m d : positive) :
  Zpos (digits2_pos (Pos.iter xO m d)) = Zpos (digits2_pos m) + Zpos d.
Proof.
  induction d as [|d IH] using Pos.peano_ind.
  - simpl. lia.
  - rewrite Pos.iter_succ. simpl digits2_pos. lia.
Qed.

Lemma binary_round_valid (sx : bool) (mx : positive) (ex : Z) :
  F64.valid (binary_round F64.prec F64.emax sx mx ex) = true.
Proof.
  unfold binary_round, shl_align.
  destruct (fexp F64.prec F64.emax (Zpos (digits2_pos mx) + ex) - ex) as [|d|d] eqn:Ed;
    apply binary_round_aux_valid; try lia;
    change (Zdigits2 (Zpos ?p)) with (Zpos (digits2_pos p)).
  - lia.
  - lia.
  - rewrite digits2_pos_iter_xO.
    replace (Zpos (digits2_pos mx) + Zpos d
             + fexp F64.prec F64.emax (Zpos (digits2_pos mx) + ex))
      with (Zpos (digits2_pos mx) + ex) by lia.
    lia.
Qed.

Lemma binary_normalize_valid (m e : Z) (szero : bool) :
  F64.valid (binary_normalize F64.prec F64.emax m e szero) = true.
Proof. destruct m; simpl; [reflexivity | apply binary_round_valid ..]. Qed.

(** Sums and differences of binary64 numbers are binary64 numbers. *)
Lemma sub_valid (x y : float) :
  F64.valid x = true -> F64.valid y = true -> F64.valid (F64.sub x y) = true.
Proof.
  intros Hx Hy. unfold F64.sub.
  destruct x as [sx|sx| |sx mx ex], y as [sy|sy| |sy my ey]; simpl SFsub;
    try reflexivity; try assumption;
    try (destruct sx, sy; reflexivity).
  apply binary_normalize_valid.
Qed.

Lemma add_valid (x y : float) :
  F64.valid x = true -> F64.valid y = true -> F64.valid (F64.add x y) = true.
Proof.
  intros Hx Hy. unfold F64.add.
  destruct x as [sx|sx| |sx mx ex], y as [sy|sy| |sy my ey]; simpl SFadd;
    try reflexivity; try assumption;
    try (destruct sx, sy; reflexivity).
  apply binary_normalize_valid.
Qed.

(** *** Equal anchors *)

Lemma compare_refl (a : float) : F64.is_nan a = false -> SFcompare a a = Some Eq.
Proof.
  destruct a as [s|s| |s m e]; simpl; try discriminate; intros _.
  - reflexivity.
  - now destruct s.
  - rewrite Z.compare_refl, Pos.compare_cont_refl. now destruct s.
Qed.

Lemma eqb_refl (a : float) : F64.is_nan a = false -> F64.eqb a a = true.
Proof. intros H. unfold F64.eqb, SFeqb. now rewrite compare_refl. Qed.

Lemma ltb_not_nan (a b : float) : F64.ltb a b = true -> F64.is_nan a = false.
Proof. now destruct a. Qed.

Lemma sub_self (a : float) :
  F64.is_finite a = true -> F64.sub a a = F64.zero.
Proof.
  destruct a as [s|s| |s m e]; try discriminate; intros _.
  - now destruct s.
  - unfold F64.sub, SFsub, shl_align. rewrite Z.min_id, Z.sub_diag. reflexivity.
Qed.

Lemma ltb_add_one_finite (a : float) :
  F64.ltb a (F64.add a F64.one) = true -> F64.is_finite a = true.
Proof. destruct a as [s|[]| |s m e]; try reflexivity; discriminate. Qed.

(** The normalizer on two equal anchors [a], when the perturbed anchor
    [a + 1.0] is above [a] and exactly one unit away. *)
Lemma scale_echo_equal_anchors (e a : float) :
  F64.valid e = true -> F64.valid a = true ->
  F64.ltb a (F64.add a F64.one) = true ->
  F64.sub (F64.add a F64.one) a = F64.one ->
  scale_echo (PyFloat e) (PyFloat a) (PyFloat a)
  = Ok (num_sub (PyFloat F64.one) (clamp01 (PyFloat (F64.sub e a)))).
Proof.
  intros He Ha Hlt Hspan.
  unfold scale_echo.
  assert (Heq : num_eqb (PyFloat a) (PyFloat a) = true)
    by (apply eqb_refl; now apply ltb_not_nan in Hlt).
  rewrite Heq.
  assert (Hlt' : num_ltb (PyFloat a) (num_add (PyFloat a) (PyFloat F64.one)) = true)
    by exact Hlt.
  rewrite Hlt'.
  assert (Hdiv : num_div (num_sub (PyFloat e) (PyFloat a))
                         (num_sub (num_add (PyFloat a) (PyFloat F64.one)) (PyFloat a))
                 = Ok (PyFloat (F64.sub e a))).
  { unfold num_div, num_sub, num_add, num_wrap. cbn [is_np orb num_val].
    rewrite Hspan. cbn [F64.is_zero F64.one]. now rewrite div_one by now apply sub_valid. }
  rewrite Hdiv. reflexivity.
Qed.

(** C10, as stated, fails: at the anchor 2^52 - 0.5 the perturbed anchor is
    2^52, half a unit away, and the echo 2^52 is normalized to 0.0 where
    1 - clamp(e - a, 0, 1) is 0.5. *)
Lemma equal_anchors_half_span :
  F64.sub (F64.add anchor_below_2_pow_52 F64.one) anchor_below_2_pow_52 = one_half
  /\ scale_echo (PyFloat two_pow_52) (PyFloat anchor_below_2_pow_52)
                (PyFloat anchor_below_2_pow_52)
     = Ok (PyFloat F64.zero)
  /\ num_sub (PyFloat F64.one)
             (clamp01 (PyFloat (F64.sub two_pow_52 anchor_below_2_pow_52)))
     = PyFloat one_half.
Proof. vm_compute. repeat split; reflexivity. Qed.

(** C10, amended: for every echo [e] and every anchor [a] to which the
    perturbation adds exactly one unit (the perturbed anchor [a + 1.0] is
    above [a], and [(a + 1.0) - a] is [1.0]), the inversion branch is taken,
    normalize(e, a, a) is 1 - clamp(e - a, 0, 1), and normalize(a, a, a) is
    1.0. *)
Theorem equal_anchors_invert (e a : float) :
  F64.valid e = true -> F64.valid a = true ->
  F64.ltb a (F64.add a F64.one) = true ->
  F64.sub (F64.add a F64.one) a = F64.one ->
  scale_echo (PyFloat e) (PyFloat a) (PyFloat a)
  = Ok (num_sub (PyFloat F64.one) (clamp01 (PyFloat (F64.sub e a))))
  /\ scale_echo (PyFloat a) (PyFloat a) (PyFloat a) = Ok (PyFloat F64.one).
Proof.
  intros He Ha Hlt Hspan. split.
  - now apply scale_echo_equal_anchors.
  - rewrite (scale_echo_equal_anchors a a Ha Ha Hlt Hspan).
    rewrite (sub_self a (ltb_add_one_finite a Hlt)). reflexivity.
Qed.

Lemma equal_anchors_invert_witness :
  scale_echo (PyFloat (F64.of_Z 1400)) (PyFloat (F64.of_Z 1400)) (PyFloat (F64.of_Z 1400))
  = Ok (PyFloat F64.one).
Proof.
  exact (proj2 (equal_anchors_invert (F64.of_Z 1400) (F64.of_Z 1400)
                  eq_refl eq_refl eq_refl eq_refl)).
Defined.

Example equal_anchors_1400 :
  scale_echo (PyFloat (F64.div (F64.of_Z 2801) (F64.of_Z 2)))
             (PyFloat (F64.of_Z 1400)) (PyFloat (F64.of_Z 1400))
  = Ok (PyFloat one_half).
Proof. vm_compute. reflexivity. Qed.

(** C1 does not hold of the code: on two equal anchors of magnitude 2^53
    the perturbation [fa + 1.0] rounds back to [fa], the span is zero and
    the division raises [ZeroDivisionError]. *)
Theorem scale_echo_divides_by_zero :
  F64.add F64.two_pow_53 F64.one = F64.two_pow_53
  /\ scale_echo (PyFloat F64.zero) (PyFloat F64.two_pow_53) (PyFloat F64.two_pow_53)
     = Raise ZeroDivisionError.
Proof. vm_compute. split; reflexivity. Qed.

(** With numpy anchors the same input divides without raising and the
    infinite quotient is clamped. *)
Example scale_echo_2pow53_numpy :
  scale_echo (PyFloat F64.zero) (NpFloat F64.two_pow_53) (NpFloat F64.two_pow_53)
  = Ok (PyFloat F64.zero).
Proof. vm_compute. reflexivity. Qed.

(** A qualifying record with such anchors ends the capture loop. *)
Example degenerate_record_stops_capture :
  capture_loop F64.zero [mkTick (Some degenerate_rec) "f" false; mkTick None "q" false]
               capture_start
  = Raise ZeroDivisionError.
Proof. vm_compute. reflexivity. Qed.

(** The normalizer raises nothing but [ZeroDivisionError]. *)
Lemma scale_echo_raises (e fa sa : num) (x : exn) :
  scale_echo e fa sa = Raise x -> x = ZeroDivisionError.
Proof.
  unfold scale_echo.
  destruct (if num_ltb fa (if num_eqb fa sa then num_add fa (PyFloat F64.one) else sa)
            then _ else _) as [lo hi].
  unfold num_div.
  destruct (is_np _ || is_np _); [discriminate|].
  destruct (F64.is_zero _); simpl; [intros [= <-]; reflexivity | discriminate].
Qed.

(** *** What the rounding step returns *)

(** The two right shifts of [binary_round_aux], with the mantissa rounded
    in between: the result is read off [m1'], a mantissa at most one above
    the shifted input. *)
Lemma binary_round_aux_spec (sx : bool) (mx ex : Z) (lx : location) :
  0 <= mx -> ex <= fexp F64.prec F64.emax (Zdigits2 mx + ex) ->
  let e1 := fexp F64.prec F64.emax (Zdigits2 mx + ex) in
  let m1 := Z.shiftr mx (e1 - ex) in
  exists m1',
    m1 <= m1' <= m1 + 1
    /\ e1 <= fexp F64.prec F64.emax (Zdigits2 m1' + e1)
    /\ binary_round_aux F64.prec F64.emax sx mx ex lx
       = let e2 := fexp F64.prec F64.emax (Zdigits2 m1' + e1) in
         match Z.shiftr m1' (e2 - e1) with
         | Z0 => S754_zero sx
         | Zpos m => if e2 <=? F64.emax - F64.prec then S754_finite sx m e2
                     else S754_infinity sx
         | Zneg _ => S754_nan
         end.
Proof.
  intros Hm He e1 m1. unfold binary_round_aux.
  destruct (shr_fexp_spec mx ex lx Hm He) as [H1 H2].
  destruct (shr_fexp F64.prec F64.emax mx ex lx) as [mrs1 e1']. simpl in H1, H2.
  fold e1 in H1, H2. fold m1 in H1. subst e1'.
  set (m1' := round_nearest_even (shr_m mrs1) (loc_of_shr_record mrs1)).
  pose proof (round_nearest_even_bounds (shr_m mrs1) (loc_of_shr_record mrs1)) as Hr.
  fold m1' in Hr. rewrite H1 in Hr.
  assert (Hm1 : 0 <= m1) by (apply Z.shiftr_nonneg; lia).
  assert (Hd1 : Zdigits2 m1 = Z.max 0 (Zdigits2 mx + ex - e1)).
  { destruct (Z.eq_dec mx 0) as [E0|Hne].
    - unfold m1, e1. rewrite E0, Z.shiftr_0_l. rewrite E0 in He.
      change (Zdigits2 0) with 0 in *. lia.
    - unfold m1. rewrite Zdigits2_shiftr by (unfold e1; lia). lia. }
  assert (Hd1' : Zdigits2 m1 <= Zdigits2 m1' <= Zdigits2 m1 + 1).
  { pose proof (Zdigits2_succ m1 Hm1).
    assert (m1' = m1 \/ m1' = m1 + 1) as [-> | ->] by lia; lia. }
  assert (Hk' : e1 <= fexp F64.prec F64.emax (Zdigits2 m1' + e1)).
  { unfold e1 in *. rewrite !fexp_eq in *. lia. }
  destruct (shr_fexp_spec m1' e1 loc_Exact ltac:(lia) Hk') as [H3 H4].
  destruct (shr_fexp F64.prec F64.emax m1' e1 loc_Exact) as [mrs2 e2]. simpl in H3, H4.
  exists m1'. split; [exact Hr|]. split; [exact Hk'|].
  cbv zeta. rewrite <- H3, <- H4. reflexivity.
Qed.

Lemma pow2_le_digits (m k : Z) : 0 <= k -> 0 < m -> 2 ^ k <= m -> k + 1 <= Zdigits2 m.
Proof.
  intros Hk Hm H. rewrite (Zdigits2_log2 m Hm).
  pose proof (Z.log2_le_pow2 m k Hm). lia.
Qed.

Lemma digits_le_pow2 (m k : Z) : 0 <= k -> 0 <= m -> m < 2 ^ k -> Zdigits2 m <= k.
Proof.
  intros Hk Hm H. destruct (Z.eq_dec m 0) as [->|Hne]; [simpl; lia|].
  rewrite (Zdigits2_log2 m) by lia.
  pose proof (Z.log2_lt_pow2 m k ltac:(lia)). lia.
Qed.

Lemma digits_lt_pow2 (m : Z) : 0 <= m -> m < 2 ^ Zdigits2 m.
Proof.
  intros Hm. destruct (Z.eq_dec m 0) as [->|Hne]; [simpl; lia|].
  rewrite (Zdigits2_log2 m) by lia.
  pose proof (Z.log2_spec m ltac:(lia)). unfold Z.succ in *. lia.
Qed.

Lemma shiftr_lt_pow2 (m a b : Z) :
  0 <= m -> 0 <= b -> 0 <= a -> m < 2 ^ (a + b) -> Z.shiftr m b < 2 ^ a.
Proof.
  intros Hm Hb Ha H. rewrite Z.shiftr_div_pow2 by lia.
  apply Z.div_lt_upper_bound; [lia|]. rewrite <- Z.pow_add_r by lia.
  now rewrite (Z.add_comm b a).
Qed.

Lemma shiftr_le_pow2 (m a b : Z) :
  0 <= m -> 0 <= b -> 0 <= a -> m <= 2 ^ (a + b) -> Z.shiftr m b <= 2 ^ a.
Proof.
  intros Hm Hb Ha H. rewrite Z.shiftr_div_pow2 by lia.
  apply Z.div_le_upper_bound; [lia|]. rewrite <- Z.pow_add_r by lia.
  now rewrite (Z.add_comm b a).
Qed.

Lemma leb_zero_nonneg (r : float) :
  match r with
  | S754_zero _ | S754_finite false _ _ | S754_infinity false => True
  | _ => False
  end -> F64.leb F64.zero r = true.
Proof. destruct r as [s|[]| |[] m e]; simpl; try contradiction; reflexivity. Qed.

Lemma leb_finite_one (m : positive) (e : Z) :
  e <= -52 -> Zpos m <= 2 ^ (- e) ->
  F64.leb (S754_finite false m e) F64.one = true.
Proof.
  intros He Hm. unfold F64.leb, SFleb, F64.one, SFcompare.
  destruct (Z.compare_spec e (-52)) as [E|E|E]; try reflexivity; try lia.
  subst e. change (2 ^ (- (-52))) with (Zpos 4503599627370496) in Hm.
  rewrite Pos.compare_cont_spec. simpl Pos.switch_Eq.
  destruct (Pos.compare_spec m 4503599627370496) as [E|E|E]; try reflexivity. lia.
Qed.

(** Rounding a value below one gives a float between zero and one. *)
Lemma binary_round_aux_unit (mx ex : Z) (lx : location) :
  0 <= mx -> ex <= fexp F64.prec F64.emax (Zdigits2 mx + ex) ->
  ex <= 0 -> mx < 2 ^ (- ex) ->
  F64.in_unit_interval (binary_round_aux F64.prec F64.emax false mx ex lx) = true.
Proof.
  intros Hm He Hex Hlt.
  destruct (binary_round_aux_spec false mx ex lx Hm He) as [m1' [Hr [Hk' ->]]].
  cbv zeta in *.
  remember (fexp F64.prec F64.emax (Zdigits2 mx + ex)) as e1 eqn:De1 in *.
  remember (Z.shiftr mx (e1 - ex)) as m1 eqn:Dm1 in *.
  remember (fexp F64.prec F64.emax (Zdigits2 m1' + e1)) as e2 eqn:De2 in *.
  rewrite fexp_eq in De1, De2.
  pose proof (digits_le_pow2 mx (- ex) ltac:(lia) Hm Hlt) as Hdx.
  pose proof (Zdigits2_nonneg mx) as Hdx0.
  assert (He1 : e1 <= -53 /\ ex <= e1) by lia.
  assert (Hm1 : 0 <= m1 < 2 ^ (- e1)).
  { subst m1. split; [apply Z.shiftr_nonneg; lia|].
    apply shiftr_lt_pow2; try lia. now replace (- e1 + (e1 - ex)) with (- ex) by lia. }
  assert (Hm1' : 0 <= m1' <= 2 ^ (- e1)) by lia.
  assert (Hd1' : Zdigits2 m1' <= - e1 + 1).
  { apply digits_le_pow2; try lia.
    rewrite Z.pow_add_r by lia. change (2 ^ 1) with 2. lia. }
  pose proof (Zdigits2_nonneg m1') as Hd0.
  assert (He2 : e1 <= e2 <= -52) by lia.
  assert (Hm2 : 0 <= Z.shiftr m1' (e2 - e1) <= 2 ^ (- e2)).
  { split; [apply Z.shiftr_nonneg; lia|].
    apply shiftr_le_pow2; try lia. now replace (- e2 + (e2 - e1)) with (- e1) by lia. }
  destruct (Z.shiftr m1' (e2 - e1)) as [|m2|m2] eqn:E2.
  - reflexivity.
  - assert (Hb : (e2 <=? F64.emax - F64.prec) = true)
      by (apply Z.leb_le; unfold F64.emax, F64.prec; lia).
    rewrite Hb. unfold F64.in_unit_interval.
    rewrite leb_finite_one by lia. reflexivity.
  - lia.
Qed.

Lemma iter_xO_value (m d : positive) : Zpos (Pos.iter xO m d) = Zpos m * 2 ^ Zpos d.
Proof.
  induction d as [|d IH] using Pos.peano_ind.
  - simpl. lia.
  - rewrite Pos.iter_succ, Pos2Z.inj_succ, Z.pow_succ_r by lia.
    rewrite Pos2Z.inj_xO, IH. lia.
Qed.

Lemma shl_align_value (m : positive) (e e' : Z) :
  e' <= e ->
  Zpos (fst (shl_align m e e')) = Zpos m * 2 ^ (e - e') /\ snd (shl_align m e e') = e'.
Proof.
  intros H. unfold shl_align.
  destruct (e' - e) as [|d|d] eqn:E; try lia.
  - replace (e - e') with 0 by lia. simpl. split; lia.
  - simpl. rewrite iter_xO_value. replace (e - e') with (Zpos d) by lia. auto.
Qed.

Lemma binary_round_unit (m : positive) (e : Z) :
  e <= 0 -> Zpos m < 2 ^ (- e) ->
  F64.in_unit_interval (binary_round F64.prec F64.emax false m e) = true.
Proof.
  intros He Hm. unfold binary_round.
  pose proof (digits_le_pow2 (Zpos m) (- e) ltac:(lia) ltac:(lia) Hm) as Hdm.
  change (Zdigits2 (Zpos m)) with (Zpos (digits2_pos m)) in Hdm.
  remember (fexp F64.prec F64.emax (Zpos (digits2_pos m) + e)) as f eqn:Df.
  assert (Hf : f <= 0) by (rewrite fexp_eq in Df; lia).
  destruct (Z_le_gt_dec e f) as [Hle|Hgt].
  - assert (Hsh : shl_align m e f = (m, e)).
    { unfold shl_align. destruct (f - e) eqn:E; try reflexivity. lia. }
    rewrite Hsh. apply binary_round_aux_unit; try lia.
    change (Zdigits2 (Zpos m)) with (Zpos (digits2_pos m)). rewrite <- Df. exact Hle.
  - destruct (shl_align_value m e f ltac:(lia)) as [Hv Hs].
    destruct (shl_align m e f) as [mz ez]. cbn [fst snd] in Hv, Hs. subst ez.
    assert (Hd : Zdigits2 (Zpos mz) + f = Zpos (digits2_pos m) + e).
    { assert (Hmz : mz = Pos.iter xO m (Z.to_pos (e - f))).
      { apply Pos2Z.inj. rewrite Hv, iter_xO_value. rewrite Z2Pos.id by lia. reflexivity. }
      subst mz. change (Zdigits2 (Zpos ?p)) with (Zpos (digits2_pos p)).
      rewrite digits2_pos_iter_xO, Z2Pos.id by lia. lia. }
    apply binary_round_aux_unit; try lia.
    + rewrite Hd, <- Df. lia.
    + rewrite Hv. replace (- f) with (- e + (e - f)) by lia.
      rewrite Z.pow_add_r by lia.
      apply Zmult_lt_compat_r; [apply Z.pow_pos_nonneg; lia | exact Hm].
Qed.

Lemma valid_mantissa_bound (s : bool) (m : positive) (e : Z) :
  F64.valid (S754_finite s m e) = true ->
  Zpos m < 2 ^ 53 /\ -1074 <= e <= 971.
Proof.
  unfold F64.valid, valid_binary, bounded, canonical_mantissa. intros H.
  apply andb_true_iff in H. destruct H as [Hc Hb].
  apply Z.eqb_eq in Hc. apply Z.leb_le in Hb.
  rewrite fexp_eq in Hc. unfold F64.emax, F64.prec in Hb.
  split; [|lia].
  pose proof (digits_lt_pow2 (Zpos m) ltac:(lia)) as Hd.
  change (Zdigits2 (Zpos m)) with (Zpos (digits2_pos m)) in Hd.
  apply Z.lt_le_trans with (1 := Hd). apply Z.pow_le_mono_r; lia.
Qed.

(** [1.0 - x] stays between zero and one when [x] is. *)
Lemma sub_one_unit (x : float) :
  F64.valid x = true -> F64.in_unit_interval x = true ->
  F64.in_unit_interval (F64.sub F64.one x) = true.
Proof.
  intros Hv Hx. destruct x as [s|s| |s m e].
  - now destruct s.
  - now destruct s.
  - discriminate.
  - destruct s; [discriminate|].
    destruct (valid_mantissa_bound _ _ _ Hv) as [Hm53 Hev].
    assert (Hle : e < -52 \/ (e = -52 /\ Zpos m <= 2 ^ 52)).
    { unfold F64.in_unit_interval, F64.leb, SFleb, F64.one, SFcompare in Hx.
      cbn [F64.zero andb] in Hx.
      destruct (Z.compare_spec e (-52)) as [E|E|E]; [|lia|discriminate].
      right. split; [exact E|].
      rewrite Pos.compare_cont_spec in Hx. simpl Pos.switch_Eq in Hx.
      change (2 ^ 52) with (Zpos 4503599627370496).
      destruct (Pos.compare_spec m 4503599627370496) as [E1|E1|E1].
      - rewrite E1. apply Z.le_refl.
      - apply Z.lt_le_incl. exact E1.
      - discriminate Hx. }
    unfold F64.sub, F64.one, SFsub.
    replace (Z.min (-52) e) with e by lia.
    destruct (shl_align_value 4503599627370496 (-52) e ltac:(lia)) as [H1 _].
    destruct (shl_align_value m e e ltac:(lia)) as [H2 _].
    cbn [cond_Zopp]. rewrite H1, H2, Z.sub_diag, Z.mul_1_r.
    replace (Zpos 4503599627370496 * 2 ^ (-52 - e)) with (2 ^ (- e)).
    2:{ change (Zpos 4503599627370496) with (2 ^ 52).
        rewrite <- Z.pow_add_r by lia. f_equal. lia. }
    assert (Hpow : Zpos m <= 2 ^ (- e)).
    { destruct Hle as [Hlt|[-> Hm]]; [|exact Hm].
      apply Z.le_trans with (2 ^ 53); [lia|]. apply Z.pow_le_mono_r; lia. }
    destruct (2 ^ (- e) - Zpos m) as [|M|M] eqn:EM; try lia.
    + reflexivity.
    + cbn [binary_normalize]. apply binary_round_unit; lia.
Qed.

(** *** Quotients are binary64 numbers *)

Lemma digits_pow2_le (m : positive) : 2 ^ (Zpos (digits2_pos m) - 1) <= Zpos m.
Proof.
  change (Zpos (digits2_pos m)) with (Zdigits2 (Zpos m)).
  rewrite (Zdigits2_log2 (Zpos m)) by lia.
  replace (Z.log2 (Zpos m) + 1 - 1) with (Z.log2 (Zpos m)) by lia.
  apply Z.log2_spec. lia.
Qed.

Lemma div_core_shift (mx : positive) (s : Z) :
  0 <= s ->
  match s with
  | Zpos _ => Z.shiftl (Zpos mx) s
  | Z0 => Zpos mx
  | Zneg _ => 0
  end = Zpos mx * 2 ^ s.
Proof.
  intros Hs. destruct s as [|p|p].
  - now rewrite Z.pow_0_r, Z.mul_1_r.
  - apply Z.shiftl_mul_pow2. lia.
  - lia.
Qed.

Lemma div_valid (x y : float) :
  F64.valid x = true -> F64.valid y = true -> F64.valid (F64.div x y) = true.
Proof.
  intros Hx Hy. unfold F64.div.
  destruct x as [sx|sx| |sx mx ex], y as [sy|sy| |sy my ey]; try reflexivity.
  unfold SFdiv, SFdiv_core_binary.
  change (Zdigits2 (Zpos mx)) with (Zpos (digits2_pos mx)).
  change (Zdigits2 (Zpos my)) with (Zpos (digits2_pos my)).
  remember (Zpos (digits2_pos mx)) as d1 eqn:Dd1.
  remember (Zpos (digits2_pos my)) as d2 eqn:Dd2.
  remember (Z.min (fexp F64.prec F64.emax (d1 + ex - (d2 + ey))) (ex - ey)) as e' eqn:De'.
  rewrite fexp_eq in De'.
  assert (Hs : 0 <= ex - ey - e') by lia.
  rewrite (div_core_shift mx _ Hs).
  remember (ex - ey - e') as s eqn:Ds.
  destruct (Z.div_eucl (Zpos mx * 2 ^ s) (Zpos my)) as [q r] eqn:Eq.
  assert (Hq : q = Zpos mx * 2 ^ s / Zpos my) by (unfold Z.div; now rewrite Eq).
  assert (Hpow : 0 < 2 ^ s) by (apply Z.pow_pos_nonneg; lia).
  assert (Hq0 : 0 <= q) by (rewrite Hq; apply Z.div_pos; nia).
  apply binary_round_aux_valid; [exact Hq0|].
  rewrite fexp_eq.
  destruct (Z_le_gt_dec e' (-1074)) as [Hlow|Hhigh]; [lia|].
  assert (H52 : 2 ^ 52 <= q).
  { rewrite Hq. apply Z.div_le_lower_bound; [lia|].
    pose proof (digits_pow2_le mx) as Hmx. rewrite <- Dd1 in Hmx.
    pose proof (digits_lt_pow2 (Zpos my) ltac:(lia)) as Hmy.
    change (Zdigits2 (Zpos my)) with (Zpos (digits2_pos my)) in Hmy. rewrite <- Dd2 in Hmy.
    assert (Hd2 : 0 < d2) by (subst d2; lia).
    assert (Hd1 : 0 < d1) by (subst d1; lia).
    apply Z.le_trans with (2 ^ d2 * 2 ^ 52).
    - apply Z.mul_le_mono_nonneg_r; [apply Z.pow_nonneg|]; lia.
    - apply Z.le_trans with (2 ^ (d1 - 1) * 2 ^ s).
      + rewrite <- !Z.pow_add_r by lia. apply Z.pow_le_mono_r; lia.
      + apply Z.mul_le_mono_nonneg_r; lia. }
  pose proof (pow2_le_digits q 52 ltac:(lia) ltac:(lia) H52). lia.
Qed.

(** *** The order of the floats *)

Lemma compare_antisym (a b : float) :
  SFcompare b a = option_map CompOpp (SFcompare a b).
Proof.
  destruct a as [sa|sa| |sa ma ea], b as [sb|sb| |sb mb eb]; simpl;
    try reflexivity; try (destruct sa; reflexivity); try (destruct sb; reflexivity);
    try (destruct sa, sb; reflexivity).
  pose proof (Pos.compare_cont_antisym ma mb Eq) as H. simpl in H.
  destruct sa, sb; try reflexivity; simpl;
    rewrite (Z.compare_antisym ea eb);
    destruct (Z.compare ea eb); simpl; try reflexivity;
    now rewrite H.
Qed.

Lemma not_ltb_leb (a b : float) :
  F64.is_nan a = false -> F64.is_nan b = false ->
  F64.ltb b a = false -> F64.leb a b = true.
Proof.
  intros Ha Hb. unfold F64.ltb, F64.leb, SFltb, SFleb.
  rewrite (compare_antisym a b).
  destruct (SFcompare a b) as [[]|] eqn:E; simpl; try reflexivity; try discriminate.
  destruct a, b; simpl in *; try discriminate;
    repeat match goal with s : bool |- _ => destruct s end; discriminate.
Qed.

Lemma num_val_sub (a b : num) : num_val (num_sub a b) = F64.sub (num_val a) (num_val b).
Proof. unfold num_sub, num_wrap. now destruct (is_np a || is_np b). Qed.

Lemma num_val_add (a b : num) : num_val (num_add a b) = F64.add (num_val a) (num_val b).
Proof. unfold num_add, num_wrap. now destruct (is_np a || is_np b). Qed.

Lemma num_val_div (a b q : num) :
  num_div a b = Ok q -> num_val q = F64.div (num_val a) (num_val b).
Proof.
  unfold num_div. destruct (is_np a || is_np b); [now intros [= <-]|].
  destruct (F64.is_zero (num_val b)); [discriminate | now intros [= <-]].
Qed.

(** The clamp returns zero, one or its argument, and what it returns is NaN
    or lies between zero and one. *)
Lemma clamp01_range (q : num) :
  (num_val (clamp01 q) = num_val q \/ num_val (clamp01 q) = F64.zero
   \/ num_val (clamp01 q) = F64.one)
  /\ (F64.is_nan (num_val (clamp01 q)) = true
      \/ F64.in_unit_interval (num_val (clamp01 q)) = true).
Proof.
  unfold clamp01, num_ltb. cbn [num_val].
  destruct (F64.ltb (num_val q) F64.zero) eqn:E0; [split; auto|].
  destruct (F64.ltb F64.one (num_val q)) eqn:E1; [split; auto|].
  split; [auto|].
  destruct (F64.is_nan (num_val q)) eqn:En; [auto|]. right.
  unfold F64.in_unit_interval.
  now rewrite (not_ltb_leb F64.zero (num_val q)), (not_ltb_leb (num_val q) F64.one).
Qed.

Lemma sub_one_nan : F64.sub F64.one S754_nan = S754_nan.
Proof. reflexivity. Qed.

(** X1. Whenever the normalizer returns, on Python floats or numpy
    scalars alike, what it returns is NaN or a number between zero and
    one. *)
Theorem scale_echo_range (e fa sa r : num) :
  num_valid e = true -> num_valid fa = true -> num_valid sa = true ->
  scale_echo e fa sa = Ok r ->
  F64.is_nan (num_val r) = true \/ F64.in_unit_interval (num_val r) = true.
Proof.
  unfold num_valid. intros He Hfa Hsa. unfold scale_echo.
  set (sa' := if num_eqb fa sa then num_add fa (PyFloat F64.one) else sa).
  assert (Hsa' : F64.valid (num_val sa') = true).
  { unfold sa'. destruct (num_eqb fa sa); [|exact Hsa].
    rewrite num_val_add. now apply add_valid. }
  set (inv := num_ltb fa sa').
  assert (Hlohi : forall lo hi, (if inv then (fa, sa') else (sa', fa)) = (lo, hi) ->
                    F64.valid (num_val lo) = true /\ F64.valid (num_val hi) = true).
  { intros lo hi. destruct inv; intros [= <- <-]; auto. }
  destruct (if inv then (fa, sa') else (sa', fa)) as [lo hi].
  destruct (Hlohi lo hi eq_refl) as [Hlo Hhi]. clear Hlohi.
  destruct (num_div (num_sub e lo) (num_sub hi lo)) as [q|] eqn:Eq; [|discriminate].
  cbn [bind]. intros [= <-].
  assert (Hq : F64.valid (num_val q) = true).
  { rewrite (num_val_div _ _ _ Eq), !num_val_sub.
    apply div_valid; now apply sub_valid. }
  destruct (clamp01_range q) as [Hval Hrange].
  assert (Hx : F64.valid (num_val (clamp01 q)) = true).
  { destruct Hval as [-> | [-> | ->]]; [exact Hq | reflexivity | reflexivity]. }
  destruct inv; [|exact Hrange].
  rewrite num_val_sub. cbn [num_val].
  destruct Hrange as [Hnan | Hunit].
  - left. destruct (num_val (clamp01 q)); try discriminate. reflexivity.
  - right. now apply sub_one_unit.
Qed.

Lemma scale_echo_range_witness :
  F64.is_nan (num_val (PyFloat F64.one)) = true
  \/ F64.in_unit_interval (num_val (PyFloat F64.one)) = true.
Proof.
  apply (scale_echo_range (PyFloat (F64.of_Z 1400)) (PyFloat (F64.of_Z 1400))
           (PyFloat (F64.of_Z 2600)) (PyFloat F64.one)); reflexivity.
Defined.

(** *** Differences of distinct floats *)

Lemma Zdigits2_mul_pow2 (m k : Z) :
  0 < m -> 0 <= k -> Zdigits2 (m * 2 ^ k) = Zdigits2 m + k.
Proof.
  intros Hm Hk.
  assert (0 < m * 2 ^ k) by (apply Z.mul_pos_pos; [lia | apply Z.pow_pos_nonneg; lia]).
  rewrite !Zdigits2_log2, Z.log2_mul_pow2 by lia. lia.
Qed.

(** Two canonical mantissas that agree once aligned are the same float. *)
Lemma aligned_eq (mx my : positive) (ex ey : Z) :
  canonical_mantissa F64.prec F64.emax mx ex = true ->
  canonical_mantissa F64.prec F64.emax my ey = true ->
  Zpos mx * 2 ^ (ex - Z.min ex ey) = Zpos my * 2 ^ (ey - Z.min ex ey) ->
  ex = ey /\ mx = my.
Proof.
  unfold canonical_mantissa. intros Hx Hy H.
  apply Z.eqb_eq in Hx, Hy.
  change (Zpos (digits2_pos mx)) with (Zdigits2 (Zpos mx)) in Hx.
  change (Zpos (digits2_pos my)) with (Zdigits2 (Zpos my)) in Hy.
  assert (Hd : Zdigits2 (Zpos mx) + ex = Zdigits2 (Zpos my) + ey).
  { pose proof (f_equal Zdigits2 H) as Hd.
    rewrite !Zdigits2_mul_pow2 in Hd by lia. lia. }
  assert (He : ex = ey) by (rewrite <- Hx, <- Hy; now rewrite Hd).
  split; [exact He|]. subst ey.
  rewrite Z.min_id, Z.sub_diag in H. simpl in H. lia.
Qed.

Lemma binary_round_aux_nonzero (sx : bool) (mx ex : Z) (lx : location) :
  0 < mx -> ex <= fexp F64.prec F64.emax (Zdigits2 mx + ex) -> -1074 <= ex ->
  F64.is_zero (binary_round_aux F64.prec F64.emax sx mx ex lx) = false.
Proof.
  intros Hm He Hex.
  destruct (binary_round_aux_spec sx mx ex lx ltac:(lia) He) as [m1' [Hr [Hk' ->]]].
  cbv zeta in *.
  remember (fexp F64.prec F64.emax (Zdigits2 mx + ex)) as e1 eqn:De1 in *.
  remember (Z.shiftr mx (e1 - ex)) as m1 eqn:Dm1 in *.
  remember (fexp F64.prec F64.emax (Zdigits2 m1' + e1)) as e2 eqn:De2 in *.
  rewrite fexp_eq in De1, De2.
  assert (Hlog : 0 <= Z.log2 mx) by apply Z.log2_nonneg.
  pose proof (Zdigits2_log2 mx Hm) as Hdx.
  assert (Hm1 : 0 < m1).
  { destruct (Z.eq_dec m1 0) as [E0|E0].
    - rewrite Dm1 in E0. apply Z.shiftr_eq_0_iff in E0. lia.
    - pose proof (proj2 (Z.shiftr_nonneg mx (e1 - ex)) ltac:(lia)). lia. }
  assert (Hm1' : 0 < m1') by lia.
  pose proof (Zdigits2_log2 m1' Hm1') as Hd1.
  assert (Hlog1 : 0 <= Z.log2 m1') by apply Z.log2_nonneg.
  assert (Hd1x : Zdigits2 m1 = Z.max 0 (Zdigits2 mx - (e1 - ex))).
  { rewrite Dm1. apply Zdigits2_shiftr; lia. }
  pose proof (Zdigits2_log2 m1 Hm1) as Hd1m.
  pose proof (Z.log2_nonneg m1) as Hlogm1.
  assert (Hdle : Zdigits2 m1 <= Zdigits2 m1').
  { rewrite Hd1m, Hd1. pose proof (Z.log2_le_mono m1 m1' ltac:(lia)). lia. }
  assert (Hm2 : 0 < Z.shiftr m1' (e2 - e1)).
  { destruct (Z.eq_dec (Z.shiftr m1' (e2 - e1)) 0) as [E0|E0].
    - apply Z.shiftr_eq_0_iff in E0. lia.
    - pose proof (proj2 (Z.shiftr_nonneg m1' (e2 - e1)) ltac:(lia)). lia. }
  destruct (Z.shiftr m1' (e2 - e1)) as [|m2|m2]; try lia.
  now destruct (e2 <=? F64.emax - F64.prec).
Qed.

Lemma binary_round_nonzero (s : bool) (m : positive) (e : Z) :
  -1074 <= e -> F64.is_zero (binary_round F64.prec F64.emax s m e) = false.
Proof.
  intros He. unfold binary_round.
  remember (fexp F64.prec F64.emax (Zpos (digits2_pos m) + e)) as f eqn:Df.
  assert (Hf : -1074 <= f) by (rewrite fexp_eq in Df; lia).
  destruct (Z_le_gt_dec e f) as [Hle|Hgt].
  - assert (Hsh : shl_align m e f = (m, e)).
    { unfold shl_align. destruct (f - e) eqn:E; try reflexivity. lia. }
    rewrite Hsh. apply binary_round_aux_nonzero; try lia.
    change (Zdigits2 (Zpos m)) with (Zpos (digits2_pos m)). now rewrite <- Df.
  - destruct (shl_align_value m e f ltac:(lia)) as [Hv Hs].
    destruct (shl_align m e f) as [mz ez]. cbn [fst snd] in Hv, Hs. subst ez.
    apply binary_round_aux_nonzero; try lia.
    rewrite Hv, Zdigits2_mul_pow2 by lia.
    change (Zdigits2 (Zpos m)) with (Zpos (digits2_pos m)).
    replace (Zpos (digits2_pos m) + (e - f) + f) with (Zpos (digits2_pos m) + e) by lia.
    rewrite <- Df. lia.
Qed.

Lemma eqb_finite_eq (sx sy : bool) (mx my : positive) (ex ey : Z) :
  F64.eqb (S754_finite sx mx ex) (S754_finite sy my ey) = true ->
  sx = sy /\ mx = my /\ ex = ey.
Proof.
  unfold F64.eqb, SFeqb, SFcompare.
  destruct sx, sy; try discriminate;
    destruct (Z.compare_spec ex ey) as [E|E|E]; try discriminate;
    rewrite Pos.compare_cont_spec; simpl Pos.switch_Eq;
    destruct (Pos.compare_spec mx my) as [E1|E1|E1]; try discriminate; auto.
Qed.

Lemma eqb_finite_refl (s : bool) (m : positive) (e : Z) :
  F64.eqb (S754_finite s m e) (S754_finite s m e) = true.
Proof. now apply eqb_refl. Qed.

(** The difference of two floats that are not equal is never zero: the
    subnormal numbers leave no gap around zero. *)
Lemma sub_nonzero (x y : float) :
  F64.valid x = true -> F64.valid y = true ->
  F64.eqb x y = false -> F64.is_zero (F64.sub x y) = false.
Proof.
  intros Hx Hy Hne. unfold F64.sub.
  destruct x as [sx|sx| |sx mx ex], y as [sy|sy| |sy my ey];
    try reflexivity; try discriminate;
    try (destruct sx, sy; reflexivity).
  destruct (valid_mantissa_bound _ _ _ Hx) as [_ Hex].
  destruct (valid_mantissa_bound _ _ _ Hy) as [_ Hey].
  unfold F64.valid, valid_binary, bounded in Hx, Hy.
  apply andb_true_iff in Hx, Hy. destruct Hx as [Hcx _], Hy as [Hcy _].
  unfold SFsub.
  destruct (shl_align_value mx ex (Z.min ex ey) ltac:(lia)) as [H1 _].
  destruct (shl_align_value my ey (Z.min ex ey) ltac:(lia)) as [H2 _].
  remember (Zpos (fst (shl_align mx ex (Z.min ex ey)))) as ax eqn:Dax.
  remember (Zpos (fst (shl_align my ey (Z.min ex ey)))) as ay eqn:Day.
  assert (Hax : 0 < ax) by (subst ax; lia).
  assert (Hay : 0 < ay) by (subst ay; lia).
  assert (HM : cond_Zopp sx ax - cond_Zopp sy ay <> 0).
  { destruct sx, sy; cbn [cond_Zopp]; try lia;
      intros HM; assert (Heq : ax = ay) by lia;
      rewrite H1, H2 in Heq;
      destruct (aligned_eq mx my ex ey Hcx Hcy Heq) as [-> ->];
      now rewrite eqb_finite_refl in Hne. }
  destruct (cond_Zopp sx ax - cond_Zopp sy ay) as [|M|M]; [contradiction| |];
    cbn [binary_normalize]; apply binary_round_nonzero; lia.
Qed.

(** *** A float divided by itself *)

Lemma div_self (s : bool) (m : positive) (e : Z) :
  F64.div (S754_finite s m e) (S754_finite s m e) = F64.one.
Proof.
  unfold F64.div, SFdiv, SFdiv_core_binary.
  replace (Zdigits2 (Zpos m) + e - (Zdigits2 (Zpos m) + e)) with 0 by lia.
  rewrite Z.sub_diag.
  change (Z.min (fexp F64.prec F64.emax 0) 0) with (-53).
  change (0 - -53) with 53. cbv iota.
  rewrite Z.shiftl_mul_pow2 by lia.
  rewrite (Z.mul_comm (Zpos m)), (div_eucl_mul (2 ^ 53) (Zpos m)) by lia.
  assert (Hl : new_location (Zpos m) 0 = loc_Exact).
  { unfold new_location. now destruct (Z.even (Zpos m)). }
  rewrite Hl. now destruct s.
Qed.

Lemma eqb_sym (a b : float) : F64.eqb a b = F64.eqb b a.
Proof.
  unfold F64.eqb, SFeqb. rewrite (compare_antisym b a).
  now destruct (SFcompare b a) as [[]|].
Qed.

Lemma eqb_not_ltb (a b : float) : F64.eqb a b = true -> F64.ltb a b = false.
Proof.
  unfold F64.eqb, F64.ltb, SFeqb, SFltb. now destruct (SFcompare a b) as [[]|].
Qed.

Lemma eqb_finite_l (s : bool) (m : positive) (e : Z) (b : float) :
  F64.eqb (S754_finite s m e) b = true -> b = S754_finite s m e.
Proof.
  destruct b as [sb|sb| |sb mb eb].
  - now destruct s.
  - now destruct s, sb.
  - discriminate.
  - intros H. apply eqb_finite_eq in H. now destruct H as [-> [-> ->]].
Qed.

(** *** When the normalizer raises *)

(** On Python floats the normalizer raises exactly when the span it
    divides by is a zero. *)
Lemma scale_echo_py_raises (e fa sa : float) :
  scale_echo (PyFloat e) (PyFloat fa) (PyFloat sa) = Raise ZeroDivisionError
  <-> (let sa' := if F64.eqb fa sa then F64.add fa F64.one else sa in
       F64.is_zero (if F64.ltb fa sa' then F64.sub sa' fa else F64.sub fa sa') = true).
Proof.
  unfold scale_echo, num_eqb, num_ltb, num_add, num_sub, num_div, num_wrap.
  cbn [num_val is_np orb].
  destruct (F64.eqb fa sa); cbn [num_val is_np orb];
    match goal with |- context [F64.ltb fa ?x] => destruct (F64.ltb fa x) end;
    cbn [num_val is_np orb];
    match goal with |- context [F64.is_zero ?x] => destruct (F64.is_zero x) end;
    cbn [bind]; split; intros H; try reflexivity; try discriminate.
Qed.

Lemma span_nonzero (fa sa' : float) :
  F64.valid fa = true -> F64.valid sa' = true -> F64.eqb fa sa' = false ->
  F64.is_zero (if F64.ltb fa sa' then F64.sub sa' fa else F64.sub fa sa') = false.
Proof.
  intros Hfa Hsa Hne. destruct (F64.ltb fa sa').
  - apply sub_nonzero; try assumption. now rewrite eqb_sym.
  - now apply sub_nonzero.
Qed.

(** X2. On Python floats the normalizer raises ZeroDivisionError exactly
    when the two anchors are equal and finite and adding 1.0 to the anchor
    gives the anchor back; on every other pair of anchors, whatever the
    echo, it returns. *)
Theorem scale_echo_zero_division (e fa sa : float) :
  F64.valid fa = true -> F64.valid sa = true ->
  (scale_echo (PyFloat e) (PyFloat fa) (PyFloat sa) = Raise ZeroDivisionError
   <-> F64.eqb fa sa = true /\ F64.is_finite fa = true
       /\ F64.eqb fa (F64.add fa F64.one) = true).
Proof.
  intros Hfa Hsa. rewrite scale_echo_py_raises. cbv zeta.
  assert (Ha1 : F64.valid (F64.add fa F64.one) = true) by now apply add_valid.
  destruct (F64.eqb fa sa) eqn:E.
  - destruct (F64.eqb fa (F64.add fa F64.one)) eqn:E1.
    + destruct fa as [s|s| |s m x].
      * destruct s; discriminate E1.
      * destruct s; split; intros H; try discriminate H;
          destruct H as (_ & H & _); discriminate H.
      * discriminate E.
      * apply eqb_finite_l in E1 as ->.
        rewrite (eqb_not_ltb _ _ (eqb_finite_refl s m x)), sub_self by reflexivity.
        now repeat split.
    + rewrite (span_nonzero _ _ Hfa Ha1 E1).
      split; intros H; [discriminate H | destruct H as (_ & _ & H); discriminate H].
  - rewrite (span_nonzero _ _ Hfa Hsa E).
    split; intros H; [discriminate H | destruct H as (H & _); discriminate H].
Qed.

Lemma scale_echo_zero_division_witness :
  scale_echo (PyFloat F64.zero) (PyFloat F64.two_pow_53) (PyFloat F64.two_pow_53)
  = Raise ZeroDivisionError
  <-> F64.eqb F64.two_pow_53 F64.two_pow_53 = true
      /\ F64.is_finite F64.two_pow_53 = true
      /\ F64.eqb F64.two_pow_53 (F64.add F64.two_pow_53 F64.one) = true.
Proof.
  apply (scale_echo_zero_division F64.zero F64.two_pow_53 F64.two_pow_53);
    reflexivity.
Defined.

(** *** The anchors themselves *)

Lemma finite_nonzero (d : float) :
  F64.is_finite d = true -> F64.is_zero d = false ->
  exists s m e, d = S754_finite s m e.
Proof. destruct d as [s|s| |s m e]; try discriminate. intros _ _. now exists s, m, e. Qed.

Lemma scale_echo_py_unfold (e fa sa : float) :
  F64.eqb fa sa = false ->
  scale_echo (PyFloat e) (PyFloat fa) (PyFloat sa)
  = if F64.ltb fa sa
    then (if F64.is_zero (F64.sub sa fa) then Raise ZeroDivisionError
          else Ok (num_sub (PyFloat F64.one)
                     (clamp01 (PyFloat (F64.div (F64.sub e fa) (F64.sub sa fa))))))
    else (if F64.is_zero (F64.sub fa sa) then Raise ZeroDivisionError
          else Ok (clamp01 (PyFloat (F64.div (F64.sub e sa) (F64.sub fa sa))))).
Proof.
  intros Hne.
  unfold scale_echo, num_eqb, num_ltb. cbn [num_val]. rewrite Hne. cbn [num_val].
  destruct (F64.ltb fa sa); cbv zeta; unfold num_div, num_sub, num_wrap;
    cbn [num_val is_np orb];
    match goal with |- context [F64.is_zero ?x] => destruct (F64.is_zero x) end;
    reflexivity.
Qed.

(** X3. For two distinct finite anchors whose difference does not
    overflow, the normalizer maps the fresh anchor to 1.0 and the spoiled
    anchor to a zero, whichever of the two is the larger. *)
Theorem scale_echo_endpoints (fa sa : float) :
  F64.valid fa = true -> F64.valid sa = true ->
  F64.is_finite fa = true -> F64.is_finite sa = true ->
  F64.eqb fa sa = false ->
  F64.is_finite (F64.sub sa fa) = true -> F64.is_finite (F64.sub fa sa) = true ->
  scale_echo (PyFloat fa) (PyFloat fa) (PyFloat sa) = Ok (PyFloat F64.one)
  /\ exists z, scale_echo (PyFloat sa) (PyFloat fa) (PyFloat sa) = Ok (PyFloat z)
               /\ F64.is_zero z = true.
Proof.
  intros Hfa Hsa Ffa Fsa Hne Fd1 Fd2.
  rewrite !scale_echo_py_unfold by assumption.
  rewrite !sub_self by assumption.
  destruct (F64.ltb fa sa).
  - assert (Hz : F64.is_zero (F64.sub sa fa) = false)
      by (apply sub_nonzero; try assumption; now rewrite eqb_sym).
    rewrite Hz. destruct (finite_nonzero _ Fd1 Hz) as (s & m & x & ->).
    rewrite div_self. split.
    + now destruct s.
    + exists F64.zero. now split.
  - assert (Hz : F64.is_zero (F64.sub fa sa) = false) by now apply sub_nonzero.
    rewrite Hz. destruct (finite_nonzero _ Fd2 Hz) as (s & m & x & ->).
    rewrite div_self. split.
    + reflexivity.
    + exists (S754_zero s). split; [now destruct s | reflexivity].
Qed.

Lemma scale_echo_endpoints_witness :
  scale_echo (PyFloat (F64.of_Z 1400)) (PyFloat (F64.of_Z 1400)) (PyFloat (F64.of_Z 2600))
  = Ok (PyFloat F64.one)
  /\ exists z, scale_echo (PyFloat (F64.of_Z 2600)) (PyFloat (F64.of_Z 1400))
                 (PyFloat (F64.of_Z 2600)) = Ok (PyFloat z)
               /\ F64.is_zero z = true.
Proof.
  apply (scale_echo_endpoints (F64.of_Z 1400) (F64.of_Z 2600)); reflexivity.
Defined.

(** ** Capture sessions as a whole *)

Lemma subseq_nil_l {A : Type} (l : list A) : subseq [] l.
Proof. induction l; constructor; assumption. Qed.

Lemma subseq_refl {A : Type} (l : list A) : subseq l l.
Proof. induction l; constructor; assumption. Qed.

Lemma subseq_app_skip {A : Type} (pre l1 l2 : list A) :
  subseq l1 l2 -> subseq l1 (pre ++ l2).
Proof. intros H. induction pre; simpl; [assumption | now constructor]. Qed.

Lemma ltb_leb (a b : float) : F64.ltb a b = true -> F64.leb a b = true.
Proof.
  unfold F64.ltb, F64.leb, SFltb, SFleb. now destruct (SFcompare a b) as [[]|].
Qed.



Lemma consume_record_gated mc t ticks st st1 :
  consume_record mc (tick_rec t) st = Ok st1 ->
  rows st1 = rows st
  /\ saved_counts (shown st1) = saved_counts (shown st)
  /\ forall l, subseq l (slot st1 ++ gated mc ticks) ->
               subseq l (slot st ++ gated mc (t :: ticks)).
Proof.
  unfold consume_record, gated. cbn [flat_map].
  destruct (tick_rec t) as [rec|]; [|intros [= <-]; auto].
  destruct (F64.leb mc (confidence rec)); [|intros [= <-]; auto].
  destruct (scale_echo _ _ _); cbn [bind]; [|discriminate].
  intros [= <-]. unfold show, slot. cbn [rows shown rec_current].
  split; [reflexivity|]. split.
  - unfold saved_counts. rewrite flat_map_app. cbn [flat_map]. now rewrite !app_nil_r.
  - intros l H. now apply subseq_app_skip.
Qed.

Lemma saved_counts_snoc (ms : list message) (m : message) :
  saved_counts (ms ++ [m])
  = (saved_counts ms ++ match m with MsgSaved n => [n] | _ => [] end)%list.
Proof. unfold saved_counts. rewrite flat_map_app. cbn [flat_map]. now rewrite app_nil_r. Qed.

Lemma consume_key_cases key st :
  (rows (fst (consume_key key st)) = rows st
   /\ slot (fst (consume_key key st)) = slot st
   /\ saved (fst (consume_key key st)) = saved st
   /\ saved_counts (shown (fst (consume_key key st))) = saved_counts (shown st))
  \/ (exists rec lab, slot st = [rec] /\ is_binary_label lab
        /\ rows (fst (consume_key key st)) = (rows st ++ [labelled rec lab])%list
        /\ slot (fst (consume_key key st)) = []
        /\ saved (fst (consume_key key st)) = saved st + 1
        /\ saved_counts (shown (fst (consume_key key st)))
           = (saved_counts (shown st) ++ [saved st + 1])%list
        /\ snd (consume_key key st) = false).
Proof.
  unfold consume_key, slot.
  destruct (String.eqb key "f" || String.eqb key "s").
  - destruct (rec_current st) as [rec|] eqn:E.
    + right. exists rec, (if String.eqb key "f" then 1 else 0).
      cbn [fst snd rows rec_current saved shown show].
      rewrite saved_counts_snoc. unfold is_binary_label.
      repeat split; try reflexivity. destruct (String.eqb key "f"); auto.
    + left. cbn [fst rows rec_current saved shown show]. rewrite E, saved_counts_snoc.
      now rewrite app_nil_r.
  - destruct (String.eqb key "q"); left; cbn [fst rows rec_current saved shown show];
      rewrite ?saved_counts_snoc, ?app_nil_r; auto.
Qed.

Lemma consume_key_stop key st :
  snd (consume_key key st) = true ->
  key = "q"%string /\ rows (fst (consume_key key st)) = rows st
  /\ saved (fst (consume_key key st)) = saved st
  /\ saved_counts (shown (fst (consume_key key st))) = saved_counts (shown st).
Proof.
  unfold consume_key.
  destruct (String.eqb key "f" || String.eqb key "s").
  - destruct (rec_current st); discriminate.
  - destruct (String.eqb_spec key "q"); [|discriminate].
    intros _. cbn [fst rows saved shown show]. rewrite saved_counts_snoc, app_nil_r. auto.
Qed.

Lemma stale_hint (b : bool) (st : capture_state) :
  rows (if b then show MsgNoData st else st) = rows st
  /\ slot (if b then show MsgNoData st else st) = slot st
  /\ saved (if b then show MsgNoData st else st) = saved st
  /\ saved_counts (shown (if b then show MsgNoData st else st)) = saved_counts (shown st).
Proof.
  destruct b; cbn [show rows saved shown]; unfold slot; cbn [rec_current show];
    rewrite ?saved_counts_snoc, ?app_nil_r; auto.
Qed.

Lemma capture_loop_picks mc ticks : forall st st',
  capture_loop mc ticks st = Ok st' ->
  exists picks,
    rows st' = (rows st ++ map pick_sample picks)%list
    /\ subseq (map fst picks) (slot st ++ gated mc ticks)
    /\ Forall (fun p => is_binary_label (snd p)) picks.
Proof.
  induction ticks as [|t ticks IH]; intros st st'; cbn [capture_loop]; [discriminate|].
  unfold iteration.
  destruct (consume_record mc (tick_rec t) st) as [st1|] eqn:E1; cbn [bind]; [|discriminate].
  destruct (consume_record_gated _ _ ticks _ _ E1) as (Hr1 & _ & Hsub).
  destruct (consume_key (tick_key t) st1) as [st2 stop] eqn:E2.
  pose proof (consume_key_cases (tick_key t) st1) as Hk.
  pose proof (consume_key_stop (tick_key t) st1) as Hq.
  rewrite E2 in Hk, Hq. cbn [fst snd] in Hk, Hq.
  destruct stop; cbn [bind].
  - intros [= <-]. destruct (Hq eq_refl) as (_ & Hr2 & _).
    exists []. cbn [map]. rewrite app_nil_r, Hr2, Hr1.
    repeat split; [apply subseq_nil_l | constructor].
  - intros H. apply IH in H. destruct H as (picks & Hrows & Hs & Hl).
    destruct (stale_hint (tick_stale t) st2) as (Hr3 & Hs3 & _).
    rewrite Hr3, Hs3 in *.
    destruct Hk as [(Hr2 & Hs2 & _)|(rec & lab & Hslot & Hlab & Hr2 & Hs2 & _)].
    + exists picks. rewrite Hrows, Hr2, Hr1. split; [reflexivity|].
      split; [|assumption]. apply Hsub. now rewrite <- Hs2.
    + exists ((rec, lab) :: picks). rewrite Hrows, Hr2, Hr1, <- app_assoc.
      split; [reflexivity|]. split; [|now constructor].
      apply Hsub. rewrite Hslot. cbn [map fst app]. apply subseq_cons.
      now rewrite Hs2 in Hs.
Qed.

(** X5. The samples a capture session collects are, in order, labelled
    copies of readings that passed the confidence gate: each carries label
    0 or 1, and no reading is used for more than one sample. *)
Theorem capture_rows_are_gated_readings (mc : float) (ticks : list tick)
  (st : capture_state) :
  capture_loop mc ticks capture_start = Ok st ->
  exists picks,
    rows st = map pick_sample picks
    /\ subseq (map fst picks) (gated mc ticks)
    /\ Forall (fun p => is_binary_label (snd p)) picks.
Proof. intros H. exact (capture_loop_picks mc ticks capture_start st H). Qed.

Lemma capture_rows_are_gated_readings_witness :
  exists picks,
    rows (mkCapture [labelled example_rec 0] None 1
            [MsgStatus example_rec (PyFloat (F64.sub F64.one (F64.div (F64.of_Z 100) (F64.of_Z 1200))))
               (confidence example_rec);
             MsgStatus example_rec (PyFloat (F64.sub F64.one (F64.div (F64.of_Z 100) (F64.of_Z 1200))))
               (confidence example_rec);
             MsgSaved 1; MsgNoSample; MsgStop])
    = map pick_sample picks
    /\ subseq (map fst picks) (gated (F64.of_Z 60) two_reading_session)
    /\ Forall (fun p => is_binary_label (snd p)) picks.
Proof.
  apply (capture_rows_are_gated_readings (F64.of_Z 60) two_reading_session).
  vm_compute. reflexivity.
Defined.

Lemma consume_key_q (st : capture_state) : snd (consume_key "q" st) = true.
Proof. reflexivity. Qed.

Lemma iteration_stop mc t st st1 :
  iteration mc t st = Ok (st1, true) -> tick_key t = "q"%string.
Proof.
  unfold iteration.
  destruct (consume_record mc (tick_rec t) st) as [s1|]; cbn [bind]; [|discriminate].
  pose proof (consume_key_stop (tick_key t) s1) as Hq.
  destruct (consume_key (tick_key t) s1) as [s2 stop]. cbn [fst snd] in Hq.
  destruct stop; [|discriminate]. intros _. now destruct (Hq eq_refl).
Qed.

Lemma iteration_go mc t st st1 :
  iteration mc t st = Ok (st1, false) -> tick_key t <> "q"%string.
Proof.
  unfold iteration.
  destruct (consume_record mc (tick_rec t) st) as [s1|]; cbn [bind]; [|discriminate].
  intros H Hq. rewrite Hq in H.
  pose proof (consume_key_q s1) as Hs.
  destruct (consume_key "q" s1) as [s2 stop]. cbn [snd] in Hs. subst stop.
  discriminate H.
Qed.

(** X6. A capture loop that ends normally ended on the first [q]: no key
    before it was a [q], and whatever the queues hold after it plays no
    role in the result. *)
Theorem capture_ends_at_first_q (mc : float) (ticks : list tick) :
  forall st st' : capture_state,
  capture_loop mc ticks st = Ok st' ->
  exists pre t post,
    ticks = (pre ++ t :: post)%list
    /\ tick_key t = "q"%string
    /\ Forall (fun u => tick_key u <> "q"%string) pre
    /\ forall post', capture_loop mc (pre ++ t :: post') st = Ok st'.
Proof.
  induction ticks as [|t ticks IH]; intros st st'; cbn [capture_loop]; [discriminate|].
  destruct (iteration mc t st) as [[st1 stop]|] eqn:E; cbn [bind]; [|discriminate].
  destruct stop.
  - intros [= <-]. exists [], t, ticks. cbn [app].
    split; [reflexivity|]. split; [now apply iteration_stop in E|].
    split; [constructor|]. intros post'. cbn [capture_loop]. now rewrite E.
  - intros H. destruct (IH _ _ H) as (pre & u & post & -> & Hu & Hpre & Hrun).
    exists (t :: pre), u, post. cbn [app].
    split; [reflexivity|]. split; [assumption|].
    split; [constructor; [now apply iteration_go in E | assumption]|].
    intros post'. cbn [capture_loop]. rewrite E. cbn [bind]. apply Hrun.
Qed.

Lemma capture_ends_at_first_q_witness :
  exists pre t post,
    two_reading_session = (pre ++ t :: post)%list
    /\ tick_key t = "q"%string
    /\ Forall (fun u => tick_key u <> "q"%string) pre
    /\ forall post',
         capture_loop (F64.of_Z 60) (pre ++ t :: post') capture_start
         = Ok (mkCapture [labelled example_rec 0] None 1
                 [MsgStatus example_rec
                    (PyFloat (F64.sub F64.one (F64.div (F64.of_Z 100) (F64.of_Z 1200))))
                    (confidence example_rec);
                  MsgStatus example_rec
                    (PyFloat (F64.sub F64.one (F64.div (F64.of_Z 100) (F64.of_Z 1200))))
                    (confidence example_rec);
                  MsgSaved 1; MsgNoSample; MsgStop]).
Proof.
  apply (capture_ends_at_first_q (F64.of_Z 60) two_reading_session capture_start).
  vm_compute. reflexivity.
Defined.

Lemma seq_snoc (start len : nat) :
  seq start (S len) = (seq start len ++ [(start + len)%nat])%list.
Proof.
  revert start. induction len as [|len IH]; intros start.
  - cbn. now rewrite Nat.add_0_r.
  - change (seq start (S (S len))) with (start :: seq (S start) (S len)).
    rewrite IH. cbn [seq app]. now rewrite Nat.add_succ_r.
Qed.

Lemma capture_loop_counts mc ticks : forall st st',
  saved st = Z.of_nat (List.length (rows st)) ->
  saved_counts (shown st) = map Z.of_nat (seq 1 (List.length (rows st))) ->
  capture_loop mc ticks st = Ok st' ->
  saved st' = Z.of_nat (List.length (rows st'))
  /\ saved_counts (shown st') = map Z.of_nat (seq 1 (List.length (rows st'))).
Proof.
  induction ticks as [|t ticks IH]; intros st st' Hn Hc; cbn [capture_loop]; [discriminate|].
  unfold iteration.
  destruct (consume_record mc (tick_rec t) st) as [st1|] eqn:E1; cbn [bind]; [|discriminate].
  destruct (consume_record_gated _ _ ticks _ _ E1) as (Hr1 & Hc1 & _).
  destruct (consume_record_rows _ _ _ _ E1) as [_ Hn1].
  destruct (consume_key (tick_key t) st1) as [st2 stop] eqn:E2.
  pose proof (consume_key_cases (tick_key t) st1) as Hk.
  rewrite E2 in Hk. cbn [fst snd] in Hk.
  assert (Inv2 : saved st2 = Z.of_nat (List.length (rows st2))
                 /\ saved_counts (shown st2)
                    = map Z.of_nat (seq 1 (List.length (rows st2)))).
  { destruct Hk as [(Hr2 & _ & Hn2 & Hc2)|(rec & lab & _ & _ & Hr2 & _ & Hn2 & Hc2 & _)].
    - rewrite Hr2, Hn2, Hc2, Hr1, Hn1, Hc1. auto.
    - rewrite Hr2, Hn2, Hc2, Hr1, Hn1, Hc1, Hn, Hc, length_app. cbn [List.length].
      rewrite Nat.add_1_r, seq_snoc, map_app. cbn [map Nat.add].
      split; [lia|]. f_equal. f_equal. lia. }
  destruct stop; cbn [bind].
  - now intros [= <-].
  - destruct (stale_hint (tick_stale t) st2) as (Hr3 & _ & Hn3 & Hc3).
    apply IH; now rewrite ?Hr3, ?Hn3, ?Hc3.
Qed.

(** X7. At the end of a capture session the counter equals the number of
    samples collected, and the [+saved (n)] messages shown along the way
    counted 1, 2, 3, ... up to that number. *)
Theorem capture_counter_counts_samples (mc : float) (ticks : list tick)
  (st : capture_state) :
  capture_loop mc ticks capture_start = Ok st ->
  saved st = Z.of_nat (List.length (rows st))
  /\ saved_counts (shown st) = map Z.of_nat (seq 1 (List.length (rows st))).
Proof. intros H. now apply (capture_loop_counts mc ticks capture_start st). Qed.

Lemma capture_counter_counts_samples_witness :
  saved (mkCapture [labelled example_rec 1] None 1
           [MsgStatus example_rec
              (PyFloat (F64.sub F64.one (F64.div (F64.of_Z 100) (F64.of_Z 1200))))
              (confidence example_rec);
            MsgSaved 1; MsgStop])
  = Z.of_nat (List.length [labelled example_rec 1])
  /\ saved_counts
       [MsgStatus example_rec
          (PyFloat (F64.sub F64.one (F64.div (F64.of_Z 100) (F64.of_Z 1200))))
          (confidence example_rec);
        MsgSaved 1; MsgStop]
     = map Z.of_nat (seq 1 (List.length [labelled example_rec 1])).
Proof.
  apply (capture_counter_counts_samples (F64.of_Z 60) one_sample_session
           (mkCapture [labelled example_rec 1] None 1
              [MsgStatus example_rec
                 (PyFloat (F64.sub F64.one (F64.div (F64.of_Z 100) (F64.of_Z 1200))))
                 (confidence example_rec);
               MsgSaved 1; MsgStop])).
  vm_compute. reflexivity.
Defined.

(** ** Loading and training on arbitrary files *)














Lemma load_csv_save_csv path rows fs :
  load_csv path (save_csv path rows fs) = Ok (map stored rows).
Proof.
  unfold load_csv, save_csv, fs_write. rewrite String.eqb_refl.
  rewrite dict_rows_csv_text. cbn [bind]. apply load_rows_sample_rows.
Qed.

Lemma lookup_zip_row_absent (k : string) (names : list string) : forall row,
  ~ In k names -> Csv.lookup k (Csv.zip_row names row) = None.
Proof.
  induction names as [|n names IH]; intros row Hk; [reflexivity|].
  assert (Hn : String.eqb k n = false).
  { apply String.eqb_neq. intros ->. apply Hk. now left. }
  assert (Hk' : ~ In k names) by (intros H; apply Hk; now right).
  destruct row as [|v row]; cbn [Csv.zip_row Csv.lookup]; now rewrite IH, Hn.
Qed.

Lemma load_row_defaults (d : Csv.dict) (s : Sample.t) :
  load_row d = Ok s ->
  (Csv.lookup "fresh_anchor" d = None -> Sample.fresh_anchor s = F64.of_Z 1400)
  /\ (Csv.lookup "spoil_anchor" d = None -> Sample.spoil_anchor s = F64.of_Z 2600).
Proof.
  unfold load_row, get_default.
  destruct (getitem d "echo_us") as [v1|]; cbn [bind]; [|discriminate].
  destruct (float_of_value v1) as [echo|]; cbn [bind]; [|discriminate].
  destruct (getitem d "label") as [v2|]; cbn [bind]; [|discriminate].
  destruct (int_of_value v2) as [lab|]; cbn [bind]; [|discriminate].
  destruct (Csv.lookup "fresh_anchor" d) as [vf|] eqn:Ef;
    destruct (Csv.lookup "spoil_anchor" d) as [vs|] eqn:Es;
    repeat match goal with
           | |- context [float_of_value ?v] =>
               let x := fresh "x" in
               let E := fresh "E" in
               destruct (float_of_value v) as [x|] eqn:E; cbn [bind]; [|discriminate]
           end;
    intros [= <-]; cbn [Sample.fresh_anchor Sample.spoil_anchor];
    split; intros H; try discriminate H;
    match goal with
    | E : float_of_value (Some _) = Ok _ |- _ =>
        vm_compute in E; injection E as <-; reflexivity
    end.
Qed.

Lemma load_rows_forall (P : Sample.t -> Prop) (ds : list Csv.dict) : forall samples,
  (forall d s, In d ds -> load_row d = Ok s -> P s) ->
  load_rows ds = Ok samples -> Forall P samples.
Proof.
  induction ds as [|d ds IH]; intros samples HP; cbn [load_rows].
  - intros [= <-]. constructor.
  - destruct (load_row d) as [s|] eqn:E; cbn [bind]; [|discriminate].
    destruct (load_rows ds) as [ss|] eqn:E'; cbn [bind]; [|discriminate].
    intros [= <-]. constructor.
    + apply (HP d); [now left | assumption].
    + apply IH; [|reflexivity]. intros d' s' Hin. apply HP. now right.
Qed.

(** X10. When the header of the file has no [fresh_anchor] column every
    loaded sample gets the fresh anchor 1400.0, and when it has no
    [spoil_anchor] column every sample gets the spoil anchor 2600.0. *)
Theorem load_csv_default_anchors (path : string) (fs : filesystem) (text : string)
  (names : list string) (recs : list (list string)) (samples : list Sample.t) :
  fs path = Some text ->
  Csv.reader_rows text = Ok (names :: recs) ->
  load_csv path fs = Ok samples ->
  (~ In "fresh_anchor"%string names ->
   Forall (fun s => Sample.fresh_anchor s = F64.of_Z 1400) samples)
  /\ (~ In "spoil_anchor"%string names ->
      Forall (fun s => Sample.spoil_anchor s = F64.of_Z 2600) samples).
Proof.
  intros Hfs Hrd. unfold load_csv, Csv.dict_rows. rewrite Hfs, Hrd. cbn [bind].
  intros Hl. split; intros Hk.
  - apply (fun HP => load_rows_forall _ _ _ HP Hl).
    intros d s Hin Hd. apply in_map_iff in Hin. destruct Hin as (row & <- & _).
    apply (proj1 (load_row_defaults _ _ Hd)). now apply lookup_zip_row_absent.
  - apply (fun HP => load_rows_forall _ _ _ HP Hl).
    intros d s Hin Hd. apply in_map_iff in Hin. destruct Hin as (row & <- & _).
    apply (proj2 (load_row_defaults _ _ Hd)). now apply lookup_zip_row_absent.
Qed.

Lemma load_csv_default_anchors_witness :
  (~ In "fresh_anchor"%string ["echo_us"; "label"]%string ->
   Forall (fun s => Sample.fresh_anchor s = F64.of_Z 1400)
     [Sample.mk (F64.of_Z 1500) 1 (F64.of_Z 1400) (F64.of_Z 2600)])
  /\ (~ In "spoil_anchor"%string ["echo_us"; "label"]%string ->
      Forall (fun s => Sample.spoil_anchor s = F64.of_Z 2600)
        [Sample.mk (F64.of_Z 1500) 1 (F64.of_Z 1400) (F64.of_Z 2600)]).
Proof.
  apply (load_csv_default_anchors "cap.csv" two_column_files two_column_text
           ["echo_us"; "label"]%string [["1500.000"; "1"]%string]);
    vm_compute; reflexivity.
Defined.

(** X11. The anchor defaults do not apply to a short row: in a file with
    the four-column header, a first data row that is not blank and has
    fewer than four fields makes [load_csv] raise, with TypeError for the
    missing field unless an earlier field already failed to parse with
    ValueError. *)
Theorem load_csv_short_row (path : string) (fs : filesystem) (text : string)
  (row : list string) (recs : list (list string)) :
  fs path = Some text ->
  Csv.reader_rows text = Ok (csv_header :: row :: recs) ->
  Csv.is_blank row = false -> (List.length row < 4)%nat ->
  load_csv path fs = Raise TypeError \/ load_csv path fs = Raise ValueError.
Proof.
  intros Hfs Hrd Hb Hlen. unfold load_csv, Csv.dict_rows. rewrite Hfs, Hrd. cbn [bind].
  cbn [filter]. rewrite Hb. cbn [negb map load_rows].
  assert (H : load_row (Csv.zip_row csv_header row) = Raise TypeError
              \/ load_row (Csv.zip_row csv_header row) = Raise ValueError).
  { unfold load_row, csv_header.
    destruct row as [|a [|b [|c [|d row]]]]; try discriminate Hb;
      try (cbn [List.length] in Hlen; lia).
    - change (getitem (Csv.zip_row _ _) "echo_us") with (@Ok (option string) (Some a)).
      change (getitem (Csv.zip_row _ _) "label") with (@Ok (option string) None).
      cbn [bind float_of_value]. unfold float_of_field.
      destruct (FloatText.py_float a); cbn [bind int_of_value]; auto.
    - change (getitem (Csv.zip_row _ _) "echo_us") with (@Ok (option string) (Some a)).
      change (getitem (Csv.zip_row _ _) "label") with (@Ok (option string) (Some b)).
      change (get_default (Csv.zip_row _ _) "fresh_anchor" "1400") with (@None string).
      cbn [bind float_of_value int_of_value]. unfold float_of_field.
      destruct (FloatText.py_float a); cbn [bind]; auto.
      destruct (Text.py_int b); cbn [bind]; auto.
    - change (getitem (Csv.zip_row _ _) "echo_us") with (@Ok (option string) (Some a)).
      change (getitem (Csv.zip_row _ _) "label") with (@Ok (option string) (Some b)).
      change (get_default (Csv.zip_row _ _) "fresh_anchor" "1400") with (Some c).
      change (get_default (Csv.zip_row _ _) "spoil_anchor" "2600") with (@None string).
      cbn [bind float_of_value int_of_value]. unfold float_of_field.
      destruct (FloatText.py_float a); cbn [bind]; auto.
      destruct (Text.py_int b); cbn [bind]; auto.
      destruct (FloatText.py_float c); cbn [bind]; auto. }
  destruct H as [-> | ->]; cbn [bind]; auto.
Qed.

Lemma load_csv_short_row_witness :
  load_csv "cap.csv" truncated_files = Raise TypeError
  \/ load_csv "cap.csv" truncated_files = Raise ValueError.
Proof.
  apply (load_csv_short_row "cap.csv" truncated_files truncated_text
           ["1500.000"; "1"]%string []).
  - reflexivity.
  - vm_compute. reflexivity.
  - reflexivity.
  - cbn [List.length]. lia.
Defined.

(** ** Integers through [float()] and [int()] *)

Lemma of_ratio_int (neg : bool) (p : positive) :
  Zpos p < 2 ^ 53 ->
  exists M : positive,
    Zpos M = Zpos p * 2 ^ (53 - Zdigits2 (Zpos p))
    /\ FloatText.of_ratio neg p 1
       = S754_finite neg M (Zdigits2 (Zpos p) - 53).
Proof.
  intros Hp.
  pose proof (digits_le_pow2 (Zpos p) 53 ltac:(lia) ltac:(lia) Hp) as Hd.
  assert (Hd1 : 1 <= Zdigits2 (Zpos p)) by (simpl; lia).
  remember (Zdigits2 (Zpos p)) as d eqn:Dd.
  assert (Hpos : 0 < Zpos p * 2 ^ (53 - d))
    by (apply Z.mul_pos_pos; [lia | apply Z.pow_pos_nonneg; lia]).
  exists (Z.to_pos (Zpos p * 2 ^ (53 - d))).
  rewrite Z2Pos.id by exact Hpos. split; [reflexivity|].
  unfold FloatText.of_ratio, SFdiv_core_binary.
  rewrite <- Dd. change (Zdigits2 1) with 1.
  unfold fexp, emin, F64.prec, F64.emax.
  replace (Z.min (Z.max (d + 0 - (1 + 0) - 53) (3 - 1024 - 53)) (0 - 0)) with (d - 54) by lia.
  replace (0 - 0 - (d - 54)) with (54 - d) by lia.
  destruct (54 - d) as [|k|k] eqn:Ek; try lia.
  rewrite <- Ek. rewrite Z.shiftl_mul_pow2 by lia.
  rewrite <- (Z.mul_1_r (Zpos p * 2 ^ (54 - d))) at 1.
  rewrite (div_eucl_mul (Zpos p * 2 ^ (54 - d)) 1) by lia.
  change (new_location 1 0) with loc_Exact.
  assert (Hq : Zpos p * 2 ^ (54 - d) = Zpos (xO (Z.to_pos (Zpos p * 2 ^ (53 - d))))).
  { rewrite (Pos2Z.inj_xO (Z.to_pos (Zpos p * 2 ^ (53 - d)))), Z2Pos.id by exact Hpos.
    replace (54 - d) with (Z.succ (53 - d)) by lia.
    rewrite Z.pow_succ_r by lia. lia. }
  rewrite Hq. replace (d - 54) with (d - 53 - 1) by lia.
  apply round_exact_doubled.
  - unfold canonical_mantissa. apply Z.eqb_eq.
    change (Zpos (digits2_pos ?m)) with (Zdigits2 (Zpos m)).
    rewrite Z2Pos.id by exact Hpos.
    rewrite Zdigits2_mul_pow2 by lia. rewrite <- Dd.
    unfold fexp, emin, F64.prec, F64.emax. lia.
  - apply Z.leb_le. unfold F64.prec, F64.emax. lia.
Qed.

(** [int(float(n))] is [n] for an integer below 2^53 in magnitude. *)
Lemma py_int_of_decimal (neg : bool) (n : N) :
  Z.of_N n < 2 ^ 53 ->
  FloatText.py_int_of_float (FloatText.of_decimal neg n 0)
  = Ok (if neg then - Z.of_N n else Z.of_N n).
Proof.
  intros Hn. destruct n as [|p]; [now destruct neg|].
  cbn [FloatText.of_decimal].
  destruct (of_ratio_int neg p Hn) as (M & HM & ->).
  pose proof (digits_le_pow2 (Zpos p) 53 ltac:(lia) ltac:(lia) Hn) as Hd.
  cbn [FloatText.py_int_of_float Z.of_N].
  remember (Zdigits2 (Zpos p)) as d eqn:Dd.
  destruct (d - 53) as [|k|k] eqn:Ek; try lia.
  - replace (53 - d) with 0 in HM by lia. rewrite Z.pow_0_r, Z.mul_1_r in *.
    now rewrite HM.
  - replace (53 - d) with (Zpos k) in HM by lia.
    rewrite HM, Z.div_mul by (apply Z.pow_nonzero; lia). reflexivity.
Qed.

Lemma scan_digits_str_of_N (n : N) :
  Text.scan_digits 0 0 (Text.str_of_N n) = (n, Text.dec_width n, EmptyString).
Proof.
  rewrite <- (append_nil_r (Text.str_of_N n)). unfold Text.str_of_N.
  rewrite scan_digits_fixed. cbn [Text.scan_digits].
  rewrite N.mul_0_l, N.add_0_l, N.mod_small by apply dec_width_bound. reflexivity.
Qed.

Lemma py_float_str_of_N (neg : bool) (n : N) :
  FloatText.py_float (FloatText.sign_text neg ++ Text.str_of_N n)
  = Some (FloatText.of_decimal neg n 0).
Proof.
  destruct (str_of_N_first n) as [c [s [Hs Hc]]].
  assert (Hplain : Text.all_chars is_plain_char
                     (FloatText.sign_text neg ++ Text.str_of_N n) = true).
  { apply all_chars_weaken with (p := is_numeral_char); [apply numeral_char_plain|].
    rewrite all_chars_app.
    rewrite (all_chars_weaken _ _ _ digit_is_numeral_char (str_of_N_digits n)).
    now destruct neg. }
  unfold FloatText.py_float. rewrite (proj2 (plain_strip _ Hplain)).
  assert (Hsign : Text.scan_sign (FloatText.sign_text neg ++ Text.str_of_N n)
                  = (neg, Text.str_of_N n)).
  { destruct neg; simpl; [reflexivity|]. rewrite Hs. now apply scan_sign_digit. }
  rewrite Hsign.
  destruct (digit_not_name c s Hc) as [Hinf Hnan].
  rewrite Hs, Hinf, Hnan, <- Hs, scan_digits_str_of_N.
  pose proof (dec_width_aux_pos (N.to_nat (N.log2 n)) n) as Hw.
  fold (Text.dec_width n) in Hw.
  destruct (Text.dec_width n) as [|w]; [lia|]. reflexivity.
Qed.

Lemma py_float_str_of_Z (z : Z) :
  FloatText.py_float (Text.str_of_Z z)
  = Some (FloatText.of_decimal (z <? 0) (Z.to_N (Z.abs z)) 0).
Proof.
  destruct z as [|p|p]; cbn [Text.str_of_Z Z.ltb Z.compare Z.abs Z.to_N].
  - reflexivity.
  - apply (py_float_str_of_N false).
  - apply (py_float_str_of_N true).
Qed.

(** [int(float(str(z)))] is [z] for an integer below 2^53 in magnitude. *)
Lemma int_float_str (z : Z) :
  Z.abs z < 2 ^ 53 ->
  exists x, FloatText.py_float (Text.str_of_Z z) = Some x
            /\ FloatText.py_int_of_float x = Ok z.
Proof.
  intros Hz. eexists. split; [apply py_float_str_of_Z|].
  rewrite py_int_of_decimal by (rewrite Z2N.id; lia).
  rewrite Z2N.id by lia. f_equal. destruct (Z.ltb_spec z 0); lia.
Qed.

(** ** The uploader *)

Lemma next_record_writerow (row : list string) (ls : list string) :
  is_plain_row row = true ->
  Uploader.next_record Csv.reset (Csv.writerow row :: ls) = Ok (Some (row, ls)).
Proof.
  intros H. cbn [Uploader.next_record]. now rewrite (process_line_writerow row H).
Qed.

Lemma int_of_cell_format (r : list string) (i : nat) (x : float) :
  nth_error r i = Some (FloatText.format_f 3 x) ->
  Uploader.int_of_cell r i = stored_int x.
Proof.
  intros H. unfold Uploader.int_of_cell, stored_int.
  now rewrite H, py_float_format by lia.
Qed.

Lemma int_of_cell_str (r : list string) (i : nat) (z : Z) :
  Z.abs z < 2 ^ 53 ->
  nth_error r i = Some (Text.str_of_Z z) ->
  Uploader.int_of_cell r i = Some z.
Proof.
  intros Hz H. unfold Uploader.int_of_cell. rewrite H.
  destruct (int_float_str z Hz) as (x & -> & ->). reflexivity.
Qed.

Lemma collect_sample_rows (rows : list Sample.t) :
  Forall (fun r => Z.abs (Sample.label r) < 2 ^ 53) rows ->
  Uploader.collect (0, 1, 2, 3)%nat (map sample_row rows) = flat_map uploaded rows.
Proof.
  unfold Uploader.collect.
  induction 1 as [|r rows Hr _ IH]; [reflexivity|].
  cbn [map flat_map]. rewrite IH. f_equal.
  unfold Uploader.convert, uploaded.
  rewrite (int_of_cell_format (sample_row r) 0 (Sample.echo_us r) eq_refl).
  rewrite (int_of_cell_str (sample_row r) 1 (Sample.label r) Hr eq_refl).
  rewrite (int_of_cell_format (sample_row r) 2 (Sample.fresh_anchor r) eq_refl).
  rewrite (int_of_cell_format (sample_row r) 3 (Sample.spoil_anchor r) eq_refl).
  cbn [sample_row List.length Nat.ltb Nat.leb].
  destruct (stored_int (Sample.echo_us r)), (stored_int (Sample.fresh_anchor r)),
    (stored_int (Sample.spoil_anchor r)); reflexivity.
Qed.

Lemma int_row_plain (r : Uploader.row) : is_plain_row (int_row r) = true.
Proof.
  destruct r as [[[e l] f] s]. unfold is_plain_row, int_row.
  cbn [Csv.is_blank negb forallb andb]. now rewrite !str_of_Z_plain.
Qed.

Lemma int_rows_plain (rs : list Uploader.row) :
  forallb is_plain_row (map int_row rs) = true.
Proof.
  induction rs as [|r rs IH]; [reflexivity|].
  cbn [map forallb]. now rewrite int_row_plain, IH.
Qed.

Lemma isnum_str_of_Z (z : Z) : Uploader.isnum (Text.strip (Text.str_of_Z z)) = true.
Proof.
  pose proof (str_of_Z_plain z) as Hp. unfold is_plain in Hp.
  apply andb_true_iff in Hp. destruct Hp as [_ Hp].
  rewrite (proj1 (plain_strip _ Hp)). unfold Uploader.isnum.
  now rewrite py_float_str_of_Z.
Qed.

Lemma convert_int_row (r : Uploader.row) :
  row_below_2_pow_53 r -> Uploader.convert (0, 1, 2, 3)%nat (int_row r) = Some r.
Proof.
  destruct r as [[[e l] f] s]. unfold row_below_2_pow_53. intros (He & Hl & Hf & Hs).
  unfold Uploader.convert.
  rewrite (int_of_cell_str (int_row (e, l, f, s)) 0 e He eq_refl),
    (int_of_cell_str (int_row (e, l, f, s)) 1 l Hl eq_refl),
    (int_of_cell_str (int_row (e, l, f, s)) 2 f Hf eq_refl),
    (int_of_cell_str (int_row (e, l, f, s)) 3 s Hs eq_refl).
  reflexivity.
Qed.

Lemma collect_int_rows (rs : list Uploader.row) :
  Forall row_below_2_pow_53 rs ->
  Uploader.collect (0, 1, 2, 3)%nat (map int_row rs) = rs.
Proof.
  unfold Uploader.collect.
  induction 1 as [|r rs Hr _ IH]; [reflexivity|].
  cbn [map flat_map]. rewrite IH, (convert_int_row r Hr).
  now destruct r as [[[e l] f] s].
Qed.

(** X13. A file without a header is read from its first row on: a file of
    rows of four integers below 2^53 in magnitude, written as decimal
    numerals, comes back as those rows, the first one included. *)
Theorem read_rows_headerless (path : string) (rs : list Uploader.row) (fs : filesystem) :
  Forall row_below_2_pow_53 rs ->
  Uploader.read_rows path (fs_write path (int_text rs) fs) = Ok rs.
Proof.
  intros Hb. unfold Uploader.read_rows, fs_write, int_text. rewrite String.eqb_refl.
  rewrite <- map_map, (lines_of_rows _ (int_rows_plain rs)).
  pose proof (int_rows_plain rs) as Hp.
  destruct rs as [|r rs]; [reflexivity|].
  cbn [map forallb] in *. apply andb_true_iff in Hp. destruct Hp as [Hr Hp].
  rewrite (next_record_writerow _ _ Hr). cbn [bind].
  assert (Hh : existsb (fun c => negb (Uploader.isnum (Text.strip c))) (int_row r) = false).
  { destruct r as [[[e l] f] s]. cbn [int_row existsb].
    now rewrite !isnum_str_of_Z. }
  rewrite Hh, (read_records_rows _ Hp). cbn [bind].
  change (int_row r :: map int_row rs) with (map int_row (r :: rs)).
  now rewrite collect_int_rows.
Qed.

Lemma read_rows_headerless_witness :
  Uploader.read_rows "rows.csv"
    (fs_write "rows.csv" (int_text [(1500, 1, 1400, 2600); (2500, 0, 1400, 2600)]) no_files)
  = Ok [(1500, 1, 1400, 2600); (2500, 0, 1400, 2600)].
Proof.
  apply (read_rows_headerless "rows.csv" [(1500, 1, 1400, 2600); (2500, 0, 1400, 2600)]
           no_files).
  repeat (constructor; [vm_compute; repeat split; reflexivity|]). constructor.
Defined.

Lemma rstrip_crlf (s : string) :
  Text.all_chars (fun c => negb (Text.is_py_space c)) s = true ->
  Text.rstrip Text.is_py_space (s ++ CRLF) = s.
Proof.
  induction s as [|c s IH]; [reflexivity|].
  cbn [Text.all_chars append Text.rstrip]. intros H.
  apply andb_true_iff in H. destruct H as [Hc Hs]. rewrite (IH Hs).
  apply negb_true_iff in Hc. rewrite Hc. now destruct s.
Qed.

Lemma lstrip_app (s t : string) :
  Text.all_chars (fun c => negb (Text.is_py_space c)) s = true ->
  s <> EmptyString ->
  Text.lstrip Text.is_py_space (s ++ t) = (s ++ t)%string.
Proof.
  destruct s as [|c s]; [contradiction|]. cbn [Text.all_chars append Text.lstrip].
  intros H _. apply andb_true_iff in H. destruct H as [Hc _].
  apply negb_true_iff in Hc. now rewrite Hc.
Qed.

Lemma plain_no_space (s : string) :
  Text.all_chars is_plain_char s = true ->
  Text.all_chars (fun c => negb (Text.is_py_space c)) s = true.
Proof.
  apply all_chars_weaken. intros c Hc.
  destruct (plain_char_not_space c Hc) as [-> _]. reflexivity.
Qed.

Lemma join_no_space (fields : list string) :
  forallb is_plain fields = true ->
  Text.all_chars (fun c => negb (Text.is_py_space c)) (Text.join "," fields) = true.
Proof.
  induction fields as [|f fields IH]; [reflexivity|].
  cbn [forallb]. intros H. apply andb_true_iff in H. destruct H as [Hf Hfs].
  unfold is_plain in Hf. apply andb_true_iff in Hf. destruct Hf as [_ Hf].
  apply plain_no_space in Hf.
  destruct fields as [|g fields]; [exact Hf|].
  change (Text.join "," (f :: g :: fields))
    with (f ++ "," ++ Text.join "," (g :: fields))%string.
  rewrite !all_chars_app, Hf, (IH Hfs). reflexivity.
Qed.

Lemma row_line_join (r : Uploader.row) :
  Uploader.row_line r = (Text.join "," (int_row r) ++ CRLF)%string.
Proof.
  destruct r as [[[e l] f] s]. unfold Uploader.row_line, int_row.
  cbn [Text.join]. now rewrite !append_assoc.
Qed.

(** X14. The line the uploader sends for a row is the four integers as
    decimal numerals, separated by commas and ended by CR LF: stripping
    the line and splitting it at the commas gives four fields that
    [int()] reads back as the row.  It is also the line the csv writer
    emits for these numerals, the format the uploader reads without a
    header. *)
Theorem row_line_round_trip (echo lab fa sa : Z) :
  map Text.py_int (Text.split "," (Text.strip (Uploader.row_line (echo, lab, fa, sa))))
  = [Some echo; Some lab; Some fa; Some sa]
  /\ Uploader.row_line (echo, lab, fa, sa) = Csv.writerow (int_row (echo, lab, fa, sa)).
Proof.
  pose proof (int_row_plain (echo, lab, fa, sa)) as Hp.
  split.
  - rewrite row_line_join. unfold is_plain_row in Hp.
    apply andb_true_iff in Hp. destruct Hp as [_ Hp].
    pose proof (join_no_space _ Hp) as Hj.
    unfold Text.strip, Text.strip_with.
    rewrite lstrip_app, rstrip_crlf; try exact Hj.
    + rewrite split_join; [|discriminate|exact Hp].
      cbn [int_row map]. now rewrite !py_int_str.
    + cbn [int_row Text.join].
      pose proof (str_of_Z_plain echo) as He. unfold is_plain in He.
      destruct (Text.str_of_Z echo); [discriminate He | discriminate].
  - now rewrite row_line_join, (writerow_plain _ Hp).
Qed.

(** ** Opening the port *)

Lemma open_attempts_spec (attempt : nat -> open_outcome) (left : nat) :
  forall i last_err log,
  exists msgs,
    all_busy attempt i msgs
    /\ snd (open_attempts attempt i left last_err log) = (log ++ retry_log i msgs)%list
    /\ (List.length msgs <= left)%nat
    /\ match fst (open_attempts attempt i left last_err log) with
       | Port ser => attempt (i + List.length msgs)%nat = Opened ser
                     /\ (List.length msgs < left)%nat
       | RaiseOther e => attempt (i + List.length msgs)%nat = OtherError e
                         /\ (List.length msgs < left)%nat
       | RaiseLast msg => List.length msgs = left
                          /\ last (map Some msgs) last_err = Some msg
       | RaiseRuntimeError => List.length msgs = left
                              /\ last (map Some msgs) last_err = None
       end.
Proof.
  induction left as [|left IH]; intros i last_err log; cbn [open_attempts].
  - exists []. cbn. rewrite app_nil_r. destruct last_err; auto.
  - destruct (attempt i) as [ser|msg|e] eqn:E.
    + exists []. cbn. rewrite app_nil_r, Nat.add_0_r. repeat split; auto; lia.
    + destruct (IH (S i) (Some msg) (log ++ [(i, msg)])%list) as (msgs & Hb & Hlog & Hlen & Hres).
      exists (msg :: msgs). cbn [all_busy retry_log List.length].
      split; [now split|]. split; [now rewrite Hlog, <- app_assoc|].
      split; [lia|].
      replace (i + S (List.length msgs))%nat with (S i + List.length msgs)%nat by lia.
      assert (Hlast : forall d, last (map Some (msg :: msgs)) d = last (map Some msgs) (Some msg)).
      { intros d. cbn [map]. destruct msgs as [|m ms]; [reflexivity|].
        cbn [map]. clear. revert m. induction ms as [|m' ms IHm]; intros m; [reflexivity|].
        cbn [map last] in *. apply IHm. }
      rewrite Hlast.
      destruct (fst (open_attempts attempt (S i) left (Some msg) (log ++ [(i, msg)])%list));
        intuition lia.
    + exists []. cbn. rewrite app_nil_r, Nat.add_0_r. repeat split; auto; lia.
Qed.

(** X15. Opening the port with retries makes at most [tries] attempts and
    stops at the first one that does not end with a SerialException: it
    returns the port that attempt opened, or lets its exception through.
    When all [tries] attempts end with a SerialException it raises the
    last of them, and with no attempt at all a RuntimeError.  One retry
    line is printed per failed attempt, numbered from 1. *)
Theorem open_port_with_retries_spec (attempt : nat -> open_outcome) (tries : Z) :
  exists msgs,
    all_busy attempt 1 msgs
    /\ snd (open_port_with_retries attempt tries) = retry_log 1 msgs
    /\ match fst (open_port_with_retries attempt tries) with
       | Port ser => attempt (S (List.length msgs)) = Opened ser
                     /\ Z.of_nat (List.length msgs) < tries
       | RaiseOther e => attempt (S (List.length msgs)) = OtherError e
                         /\ Z.of_nat (List.length msgs) < tries
       | RaiseLast msg => Z.of_nat (List.length msgs) = tries
                          /\ last (map Some msgs) None = Some msg
       | RaiseRuntimeError => tries <= 0
       end.
Proof.
  unfold open_port_with_retries.
  destruct (open_attempts_spec attempt (Z.to_nat tries) 1 None []) as (msgs & Hb & Hlog & Hlen & Hres).
  exists msgs. split; [exact Hb|]. split; [exact Hlog|].
  destruct (fst (open_attempts attempt 1 (Z.to_nat tries) None [])).
  - destruct Hres as [Ha Hl]. split; [exact Ha | lia].
  - destruct Hres as [Hl Hm]. split; [|exact Hm].
    destruct msgs as [|m ms]; [discriminate Hm|]. cbn [List.length] in *. lia.
  - destruct Hres as [Ha Hl]. split; [exact Ha | lia].
  - destruct Hres as [Hl Hm].
    destruct msgs as [|m ms]; [cbn in Hl; lia|].
    exfalso. clear - Hm. cbn [map] in Hm.
    revert m Hm. induction ms as [|m' ms IH]; intros m Hm; [discriminate Hm|].
    cbn [map last] in *. now apply (IH m').
Qed.

(** ** Port detection *)

Lemma hex_digit_val (k : N) : (k < 16)%N -> hex_val (hex_digit k) = k.
Proof.
  intros H. destruct k as [|p]; [reflexivity|].
  repeat (destruct p as [p|p|]; try lia; try reflexivity).
Qed.

Lemma unhex_app (a b : string) : forall acc, unhex acc (a ++ b) = unhex (unhex acc a) b.
Proof. induction a as [|c a IH]; intros acc; cbn [append unhex]; [reflexivity | apply IH]. Qed.

Lemma unhex_hex_fixed (w : nat) : forall n acc,
  unhex acc (hex_fixed w n) = (acc * 16 ^ N.of_nat w + n mod 16 ^ N.of_nat w)%N.
Proof.
  induction w as [|w IH]; intros n acc.
  - cbn [hex_fixed unhex N.of_nat]. rewrite N.pow_0_r, N.mod_1_r. lia.
  - cbn [hex_fixed]. rewrite unhex_app, IH. cbn [unhex].
    rewrite hex_digit_val by (apply N.mod_lt; discriminate).
    rewrite Nat2N.inj_succ, N.pow_succ_r'.
    rewrite (N.Div0.mod_mul_r n 16 (16 ^ N.of_nat w)). lia.
Qed.

Lemma hex_width_aux_bound (fuel : nat) : forall n,
  (n < 16 ^ N.of_nat (S fuel))%N ->
  (n < 16 ^ N.of_nat (hex_width_aux fuel n))%N.
Proof.
  induction fuel as [|f IH]; intros n H.
  - exact H.
  - cbn [hex_width_aux]. destruct (n <? 16)%N eqn:E.
    + apply N.ltb_lt in E. exact E.
    + apply N.ltb_ge in E.
      assert (Hq : (n / 16 < 16 ^ N.of_nat (S f))%N).
      { apply N.Div0.div_lt_upper_bound.
        replace (16 * 16 ^ N.of_nat (S f))%N with (16 ^ N.of_nat (S (S f)))%N; [exact H|].
        rewrite (Nat2N.inj_succ (S f)), N.pow_succ_r'. reflexivity. }
      specialize (IH _ Hq).
      rewrite Nat2N.inj_succ, N.pow_succ_r'.
      pose proof (N.div_mod n 16 ltac:(discriminate)) as Hdm.
      pose proof (N.mod_lt n 16 ltac:(discriminate)) as Hm.
      lia.
Qed.

Lemma hex_width_bound (n : N) : (n < 16 ^ N.of_nat (hex_width n))%N.
Proof.
  unfold hex_width. apply hex_width_aux_bound.
  rewrite Nat2N.inj_succ, N2Nat.id.
  destruct n as [|p]; [reflexivity|].
  apply N.lt_le_trans with (2 ^ N.succ (N.log2 (Npos p)))%N.
  - apply N.log2_spec. reflexivity.
  - apply N.pow_le_mono_l. lia.
Qed.

(** The hexadecimal rendering reads back as the number. *)
Lemma unhex_format_04X (v : N) : unhex 0 (format_04X v) = v.
Proof.
  unfold format_04X. rewrite unhex_hex_fixed, N.mul_0_l, N.add_0_l.
  apply N.mod_small.
  apply N.lt_le_trans with (16 ^ N.of_nat (hex_width v))%N; [apply hex_width_bound|].
  apply N.pow_le_mono_r; lia.
Qed.

Lemma format_04X_eqb (v w : N) :
  String.eqb (format_04X v) (format_04X w) = N.eqb v w.
Proof.
  destruct (N.eqb_spec v w) as [->|Hne]; [apply String.eqb_refl|].
  apply String.eqb_neq. intros H. apply Hne.
  now rewrite <- (unhex_format_04X v), <- (unhex_format_04X w), H.
Qed.

Lemma preferred_vid (v : N) :
  existsb (String.eqb (format_04X v)) preferred_vids
  = existsb (N.eqb v) preferred_vid_numbers.
Proof.
  change preferred_vids with (map format_04X preferred_vid_numbers).
  induction preferred_vid_numbers as [|w ws IH]; [reflexivity|].
  cbn [map existsb]. now rewrite format_04X_eqb, IH.
Qed.

(** X16. Port detection returns the device of the first port that has one
    of the vendor ids 0x1A86, 0x2341, 0x2A03, 0x10C4 or whose description
    contains CH340 or Arduino, and nothing when there is no such port: the
    comparison of the four-digit hexadecimal text of the id is a
    comparison of the id. *)
Theorem autodetect_port_first_known (ports : list Ports.info) :
  autodetect_port ports = option_map Ports.device (List.find is_known_port ports).
Proof.
  induction ports as [|p ports IH]; [reflexivity|].
  cbn [autodetect_port List.find]. unfold is_known_port at 1.
  destruct (Ports.vid p) as [v|].
  - rewrite preferred_vid.
    destruct (existsb (N.eqb v) preferred_vid_numbers); [reflexivity|].
    destruct (Ports.description p) as [d|]; cbn [or_empty orb].
    + destruct (contains "CH340" d || contains "Arduino" d); [reflexivity | exact IH].
    + exact IH.
  - cbn [existsb String.eqb preferred_vids orb].
    destruct (Ports.description p) as [d|]; cbn [or_empty].
    + destruct (contains "CH340" d || contains "Arduino" d); [reflexivity | exact IH].
    + exact IH.
Qed.

(** ** The reader thread *)

Section ReaderThreadProperties.

Variable parse_human_line : string -> option Rec.t.

Lemma reader_run_app (a b : list turn) : forall st,
  reader_run parse_human_line (a ++ b) st
  = if snd (reader_run parse_human_line a st)
    then reader_run parse_human_line b (fst (reader_run parse_human_line a st))
    else reader_run parse_human_line a st.
Proof.
  induction a as [|t a IH]; intros st; cbn [app reader_run]; [reflexivity|].
  destruct (reader_turn parse_human_line t st) as [st'|]; [apply IH | reflexivity].
Qed.

Lemma reader_turn_latched (t : turn) (st st' : reader_state) :
  got_any st = true -> reader_turn parse_human_line t st = Some st' ->
  got_any st' = true /\ nudges st' = nudges st.
Proof.
  intros Hg. unfold reader_turn. rewrite Hg.
  destruct (turn_line t) as [line|]; [|discriminate].
  cbn [negb]. rewrite andb_false_r. cbn [andb].
  destruct (String.eqb (Text.strip line) EmptyString); [now intros [= <-]|].
  destruct (parse_line parse_human_line (Text.strip line)) as [[rec|]|];
    [| |discriminate]; intros [= <-]; auto.
Qed.

Lemma reader_run_latched (ts : list turn) : forall st,
  got_any st = true ->
  got_any (fst (reader_run parse_human_line ts st)) = true
  /\ nudges (fst (reader_run parse_human_line ts st)) = nudges st.
Proof.
  induction ts as [|t ts IH]; intros st Hg; cbn [reader_run]; [auto|].
  destruct (reader_turn parse_human_line t st) as [st'|] eqn:E; [|auto].
  destruct (reader_turn_latched t st st' Hg E) as [Hg' <-]. now apply IH.
Qed.

Lemma reader_turn_text (t : turn) (st st' : reader_state) :
  turn_has_text t = true -> reader_turn parse_human_line t st = Some st' ->
  got_any st' = true.
Proof.
  unfold turn_has_text, reader_turn.
  destruct (turn_line t) as [line|]; [|discriminate].
  intros H. apply negb_true_iff in H. rewrite H. cbn [andb].
  destruct (parse_line parse_human_line (Text.strip line)) as [[rec|]|];
    [| |discriminate]; now intros [= <-].
Qed.

(** X17. The reader thread stops nudging the device once it has heard
    from it: after a turn that read a line with something on it, no
    further TRAIN:ON is written, whatever is read later and however long
    the line stays silent. *)
Theorem reader_nudges_until_first_line (pre post : list turn) (t : turn)
  (st : reader_state) :
  turn_has_text t = true ->
  nudges (fst (reader_run parse_human_line (pre ++ t :: post) st))
  = nudges (fst (reader_run parse_human_line (pre ++ [t]) st)).
Proof.
  intros Ht. rewrite !reader_run_app.
  destruct (reader_run parse_human_line pre st) as [st1 alive]. cbn [fst snd].
  destruct alive; [|reflexivity].
  cbn [reader_run].
  destruct (reader_turn parse_human_line t st1) as [st2|] eqn:E; [|reflexivity].
  cbn [fst]. now apply reader_run_latched, (reader_turn_text t st1).
Qed.

Lemma reader_turn_records (t : turn) (st st' : reader_state) :
  reader_turn parse_human_line t st = Some st' ->
  qrecs st' = (qrecs st ++ turn_records parse_human_line t)%list.
Proof.
  unfold reader_turn, turn_records.
  destruct (turn_line t) as [line|]; [|discriminate].
  destruct (String.eqb (Text.strip line) EmptyString).
  - cbn [andb].
    destruct (negb (got_any st) && _).
    + destruct (turn_write_ok t); [|discriminate].
      intros [= <-]. cbn [qrecs]. now rewrite app_nil_r.
    + intros [= <-]. now rewrite app_nil_r.
  - cbn [andb].
    destruct (parse_line parse_human_line (Text.strip line)) as [[rec|]|];
      [| |discriminate]; intros [= <-]; cbn [qrecs]; now rewrite ?app_nil_r.
Qed.

(** X18. While the reader thread runs, the queue holds exactly the
    records parsed from the lines read, in the order read: blank lines
    and lines no parser accepts add nothing, nudges add nothing, and
    nothing is dropped or repeated. *)
Theorem reader_queue_is_parsed_lines (ts : list turn) : forall st : reader_state,
  snd (reader_run parse_human_line ts st) = true ->
  qrecs (fst (reader_run parse_human_line ts st))
  = (qrecs st ++ flat_map (turn_records parse_human_line) ts)%list.
Proof.
  induction ts as [|t ts IH]; intros st; cbn [reader_run flat_map].
  - now rewrite app_nil_r.
  - destruct (reader_turn parse_human_line t st) as [st'|] eqn:E; [|discriminate].
    intros H. rewrite (IH st' H), (reader_turn_records t st st' E).
    now rewrite app_assoc.
Qed.

End ReaderThreadProperties.

Lemma reader_nudges_until_first_line_witness :
  nudges (fst (reader_run no_human_line (quiet_turns ++ record_turn :: late_turns)
                 reader_started))
  = nudges (fst (reader_run no_human_line (quiet_turns ++ [record_turn]) reader_started)).
Proof.
  apply (reader_nudges_until_first_line no_human_line quiet_turns late_turns record_turn
           reader_started).
  vm_compute. reflexivity.
Defined.

Lemma reader_queue_is_parsed_lines_witness :
  qrecs (fst (reader_run no_human_line (quiet_turns ++ record_turn :: late_turns)
                reader_started))
  = (qrecs reader_started
     ++ flat_map (turn_records no_human_line) (quiet_turns ++ record_turn :: late_turns))%list.
Proof.
  apply (reader_queue_is_parsed_lines no_human_line
           (quiet_turns ++ record_turn :: late_turns) reader_started).
  vm_compute. reflexivity.
Defined.

Example reader_example :
  reader_run no_human_line (quiet_turns ++ record_turn :: late_turns) reader_started
  = (mkReaderState true (F64.of_Z 2) 2 [example_rec], true).
Proof. vm_compute. reflexivity. Qed.

(** ** Keys and live test *)

Lemma lstrip_head sp (s : string) (c : ascii) (r : string) :
  Text.lstrip sp s = String c r -> sp c = false.
Proof.
  induction s as [|x s IH]; cbn [Text.lstrip]; [discriminate|].
  destruct (sp x) eqn:E; [exact IH|]. now intros [= <- _].
Qed.

Lemma rstrip_head sp (s : string) (c : ascii) (r : string) :
  Text.rstrip sp s = String c r -> exists r', s = String c r'.
Proof.
  destruct s as [|x s]; cbn [Text.rstrip]; [discriminate|].
  destruct (Text.rstrip sp s).
  - destruct (sp x); [discriminate|]. intros [= <- _]. now exists s.
  - intros [= <- _]. now exists s.
Qed.

Lemma strip_head (line : string) (c : ascii) (r : string) :
  Text.strip line = String c r -> Text.is_py_space c = false.
Proof.
  unfold Text.strip, Text.strip_with. intros H.
  apply rstrip_head in H. destruct H as [r' H]. now apply lstrip_head in H.
Qed.

(** X19. Where keys are read as lines, a line counts as the key of its
    first non-blank character, in lower case: with a candidate pending, a
    line starting with f or F labels it fresh (1), one starting with s or
    S labels it spoiled (0), one starting with q or Q stops the session,
    and a blank line gives no key at all. *)
Theorem typed_line_is_its_first_key (line : string) (st : capture_state) (rec : Rec.t) :
  rec_current st = Some rec ->
  match Text.strip line with
  | EmptyString => key_of_line line = None
  | String c _ =>
      Text.is_py_space c = false
      /\ exists k, key_of_line line = Some k
         /\ (Text.to_lower c = "f"%char ->
             rows (fst (consume_key k st)) = (rows st ++ [labelled rec 1])%list)
         /\ (Text.to_lower c = "s"%char ->
             rows (fst (consume_key k st)) = (rows st ++ [labelled rec 0])%list)
         /\ (Text.to_lower c = "q"%char -> snd (consume_key k st) = true)
  end.
Proof.
  intros Hrec. unfold key_of_line.
  destruct (Text.strip line) as [|c r] eqn:E; [reflexivity|].
  split; [now apply strip_head in E|].
  cbn [Text.lower]. eexists. split; [reflexivity|].
  unfold consume_key. rewrite Hrec.
  repeat split; intros ->; reflexivity.
Qed.

Lemma typed_line_is_its_first_key_witness :
  Text.is_py_space "F" = false
  /\ exists k, key_of_line "  Fresh " = Some k
     /\ (Text.to_lower "F" = "f"%char ->
         rows (fst (consume_key k (mkCapture [] (Some example_rec) 0 [])))
         = ([] ++ [labelled example_rec 1])%list)
     /\ (Text.to_lower "F" = "s"%char ->
         rows (fst (consume_key k (mkCapture [] (Some example_rec) 0 [])))
         = ([] ++ [labelled example_rec 0])%list)
     /\ (Text.to_lower "F" = "q"%char ->
         snd (consume_key k (mkCapture [] (Some example_rec) 0 [])) = true).
Proof.
  apply (typed_line_is_its_first_key "  Fresh " (mkCapture [] (Some example_rec) 0 [])
           example_rec).
  reflexivity.
Defined.

Lemma parse_line_returns (parse_human_line : string -> option Rec.t) (raw : string) :
  exists r, parse_line parse_human_line raw = Ok r.
Proof.
  unfold parse_line, parse_device_csv_line.
  destruct (parse_device_csv_fields raw) as [[rec|]|]; cbn [bind]; eauto.
Qed.

Lemma scale_echo_default_anchors (e : float) :
  exists x, scale_echo (PyFloat e) (PyFloat (F64.of_Z 1400)) (PyFloat (F64.of_Z 2600)) = Ok x.
Proof.
  destruct (scale_echo (PyFloat e) (PyFloat (F64.of_Z 1400)) (PyFloat (F64.of_Z 2600)))
    as [x|err] eqn:E; [now exists x|].
  pose proof (scale_echo_raises _ _ _ _ E) as ->.
  apply scale_echo_py_raises in E. cbv zeta in E.
  change (F64.eqb (F64.of_Z 1400) (F64.of_Z 2600)) with false in E. cbv iota in E.
  rewrite span_nonzero in E by reflexivity. discriminate E.
Qed.

(** X20. The live test cannot fail on a line it receives: whatever the
    line and whatever the loaded rows, the body of its loop returns,
    displaying something or skipping the line.  In particular it never
    divides by zero, since its anchors are numpy scalars or the distinct
    defaults 1400 and 2600. *)
Theorem live_line_never_raises (median : list float -> float)
  (parse_human_line : string -> option Rec.t) (rows : list Sample.t) (line : string) :
  exists r, live_line median parse_human_line rows line = Ok r.
Proof.
  unfold live_line.
  destruct (parse_line_returns parse_human_line (Text.strip line)) as [[rec|] ->];
    cbn [bind]; [|eauto].
  destruct rows as [|r rows]; cbn [live_anchors].
  - destruct (scale_echo_default_anchors (Rec.echo_us rec)) as [x ->]. cbn [bind]. eauto.
  - destruct (scale_echo_np (PyFloat (Rec.echo_us rec))
                (median (map Sample.fresh_anchor (r :: rows)))
                (median (map Sample.spoil_anchor (r :: rows)))) as [x ->].
    cbn [bind]. eauto.
Qed.

(** X21. With the anchors numpy scalars, as they are in training, the
    normalizer returns on every input; and wherever the call on plain
    floats returns too, both give the same number. *)
Theorem scale_echo_numpy_returns (e fa sa : float) :
  exists v',
    scale_echo (PyFloat e) (NpFloat fa) (NpFloat sa) = Ok v'
    /\ forall v, scale_echo (PyFloat e) (PyFloat fa) (PyFloat sa) = Ok v ->
                 num_val v' = num_val v.
Proof.
  destruct (scale_echo_np (PyFloat e) fa sa) as [v' Hv'].
  exists v'. split; [exact Hv'|].
  intros v Hv. destruct (scale_echo_np_agrees e fa sa v Hv) as (w & Hw & <-).
  rewrite Hv' in Hw. now injection Hw as ->.
Qed.

(** ** Sessions that never see a [q] *)

Lemma capture_loop_without_q (mc : float) (ticks : list tick) :
  Forall (fun t => tick_key t <> "q"%string) ticks ->
  forall st, exists e, capture_loop mc ticks st = Raise e.
Proof.
  induction 1 as [|t ticks Ht _ IH]; intros st; cbn [capture_loop].
  - now exists KeyboardInterrupt.
  - destruct (iteration mc t st) as [[st1 stop]|e] eqn:E; cbn [bind].
    + destruct stop; [|apply IH].
      apply iteration_stop in E. contradiction.
    + now exists e.
Qed.

(** X22. Samples are stored only when the operator pressed [q]: a capture
    session in which no [q] is ever pressed ends with an exception, the
    interrupt of the operator included, and the samples labelled so far
    are not written to the output file. *)
Theorem capture_without_q_stores_nothing (args : capture_args) (ser : serial)
  (ticks : list tick) (fs : filesystem) :
  forallb (fun t => negb (String.eqb (tick_key t) "q")) ticks = true ->
  exists e, capture_mode args ser ticks fs = Raise e.
Proof.
  intros H. unfold capture_mode.
  destruct (snd (teardown ser)) as [u|e]; [|now exists e].
  assert (HF : Forall (fun t => tick_key t <> "q"%string) ticks).
  { apply Forall_forall. intros t Ht.
    rewrite forallb_forall in H. specialize (H t Ht).
    apply negb_true_iff in H. now apply String.eqb_neq. }
  destruct (capture_loop_without_q (min_conf args) ticks HF capture_start) as [e ->].
  now exists e.
Qed.

Lemma capture_without_q_stores_nothing_witness :
  exists e,
    capture_mode (mkArgs (F64.of_Z 60) (Some "cap.csv"%string)) (mkSerial true true)
      [mkTick (Some example_rec) "f" false] no_files = Raise e.
Proof.
  apply (capture_without_q_stores_nothing
           (mkArgs (F64.of_Z 60) (Some "cap.csv"%string)) (mkSerial true true)
           [mkTick (Some example_rec) "f" false] no_files).
  reflexivity.
Defined.

(** ** Decimal numerals *)

Lemma digits_value_app (a b : string) : forall acc,
  digits_value acc (a ++ b) = digits_value (digits_value acc a) b.
Proof. induction a as [|c a IH]; intros acc; cbn [append digits_value]; [reflexivity | apply IH]. Qed.

Lemma digits_value_fixed (w : nat) : forall n acc,
  digits_value acc (Text.fixed_digits w n) = (acc * 10 ^ N.of_nat w + n mod 10 ^ N.of_nat w)%N.
Proof.
  induction w as [|w IH]; intros n acc.
  - cbn [Text.fixed_digits digits_value N.of_nat]. rewrite N.pow_0_r, N.mod_1_r. lia.
  - cbn [Text.fixed_digits]. rewrite digits_value_app, IH. cbn [digits_value].
    destruct (digit_char_spec (n mod 10)) as [_ ->]; [apply N.mod_lt; discriminate|].
    rewrite Nat2N.inj_succ, N.pow_succ_r'.
    rewrite (N.Div0.mod_mul_r n 10 (10 ^ N.of_nat w)). lia.
Qed.

Lemma digits_value_str_of_N (n : N) : digits_value 0 (Text.str_of_N n) = n.
Proof.
  unfold Text.str_of_N. rewrite digits_value_fixed, N.mul_0_l, N.add_0_l.
  apply N.mod_small, dec_width_bound.
Qed.

Lemma digit_not_point (c : ascii) : Text.is_digit c = true -> Ascii.eqb c "." = false.
Proof.
  destruct c as [[] [] [] [] [] [] [] []]; try reflexivity; vm_compute; discriminate.
Qed.

Lemma split_point_digits (a : string) :
  Text.all_chars Text.is_digit a = true -> Text.split "." a = [a].
Proof.
  induction a as [|c a IH]; [reflexivity|].
  cbn [Text.all_chars Text.split]. intros H. apply andb_true_iff in H. destruct H as [Hc Ha].
  now rewrite (digit_not_point c Hc), (IH Ha).
Qed.

Lemma split_point (a b : string) :
  Text.all_chars Text.is_digit a = true -> Text.all_chars Text.is_digit b = true ->
  Text.split "." (a ++ String "." b) = [a; b].
Proof.
  intros Ha Hb. induction a as [|c a IH].
  - cbn [append Text.split Ascii.eqb Bool.eqb]. now rewrite (split_point_digits b Hb).
  - cbn [Text.all_chars] in Ha. apply andb_true_iff in Ha. destruct Ha as [Hc Ha].
    cbn [append Text.split]. now rewrite (digit_not_point c Hc), (IH Ha).
Qed.

Lemma has_minus_digit (c : ascii) (s : string) :
  Text.is_digit c = true -> has_minus (String c s) = false.
Proof.
  destruct c as [[] [] [] [] [] [] [] []]; try reflexivity; vm_compute; discriminate.
Qed.

(** What the formatter prints for the integer [n] at [d] decimals reads as
    the sign and [n]. *)
Lemma decimal_of_fixed_text (neg : bool) (d : nat) (n : N) :
  (1 <= d)%nat ->
  decimal_of d (FloatText.sign_text neg ++ FloatText.fixed_text d n) = Some (neg, n).
Proof.
  intros Hd. destruct d as [|d]; [lia|]. clear Hd.
  assert (Hu : unsigned_decimal (S d) (FloatText.fixed_text (S d) n) = Some n).
  { unfold unsigned_decimal, FloatText.fixed_text.
    rewrite split_point by (apply str_of_N_digits || apply fixed_digits_are_digits).
    unfold is_digits. rewrite str_of_N_digits, fixed_digits_are_digits, fixed_digits_length.
    destruct (str_of_N_first (n / 10 ^ N.of_nat (S d))) as [c [s [Hs _]]].
    rewrite Hs at 1. cbn [String.eqb negb andb]. rewrite Nat.eqb_refl.
    rewrite digits_value_str_of_N, digits_value_fixed, N.mul_0_l, N.add_0_l.
    f_equal. rewrite N.mul_comm. symmetry. apply N.div_mod'. }
  unfold decimal_of. destruct neg; cbn [FloatText.sign_text append].
  - cbn [drop_minus]. rewrite Hu. reflexivity.
  - unfold FloatText.fixed_text in *.
    destruct (str_of_N_first (n / 10 ^ N.of_nat (S d))) as [c [s [Hs Hc]]].
    rewrite Hs in *. cbn [append] in *.
    rewrite (drop_minus_digit c _ Hc), Hu, (has_minus_digit c _ Hc). reflexivity.
Qed.

(** ** Nearest integers *)

Lemma even_of_N (n : N) : Z.even (Z.of_N n) = N.even n.
Proof. destruct n as [|[p|p|]]; reflexivity. Qed.

Lemma div_half_even_nearest (a b : N) :
  (0 < b)%N ->
  let n := Z.of_N (FloatText.div_half_even a b) in
  2 * Z.abs (n * Z.of_N b - Z.of_N a) <= Z.of_N b
  /\ (2 * Z.abs (n * Z.of_N b - Z.of_N a) = Z.of_N b -> Z.even n = true).
Proof.
  intros Hb. unfold FloatText.div_half_even.
  pose proof (N.div_mod a b ltac:(lia)) as Hdm.
  pose proof (N.mod_lt a b ltac:(lia)) as Hr.
  remember (a / b)%N as q eqn:Dq. remember (a mod b)%N as r eqn:Dr.
  destruct (N.compare_spec (2 * r) b) as [E|E|E]; cbv zeta.
  - destruct (N.even q) eqn:Ev.
    + split; [nia|]. intros _. now rewrite even_of_N.
    + split; [nia|]. intros _. rewrite even_of_N.
      rewrite N.add_1_r, N.even_succ. rewrite <- N.negb_even, Ev. reflexivity.
  - split; [nia|]. intros H. exfalso. nia.
  - split; [nia|]. intros H. exfalso. nia.
Qed.

Lemma pow2_pos_nonneg (e : Z) : 0 <= e -> pow2_pos e = 2 ^ e /\ pow2_neg e = 1.
Proof.
  intros H. unfold pow2_pos, pow2_neg.
  rewrite Z.max_r by lia. now rewrite Z.max_l by lia.
Qed.

Lemma pow2_neg_neg (e : Z) : e < 0 -> pow2_pos e = 1 /\ pow2_neg e = 2 ^ (- e).
Proof.
  intros H. unfold pow2_pos, pow2_neg.
  rewrite Z.max_l by lia. now rewrite Z.max_r by lia.
Qed.

(** The integer the formatter prints is the nearest one. *)
Lemma scaled_nearest (d : nat) (m : positive) (e : Z) :
  nearest_scaled d m e (Z.of_N (FloatText.scaled d m e)).
Proof.
  unfold nearest_scaled. cbv zeta.
  assert (H10 : Z.of_N (10 ^ N.of_nat d) = 10 ^ Z.of_nat d)
    by (rewrite N2Z.inj_pow, nat_N_Z; reflexivity).
  destruct e as [|k|k].
  - destruct (pow2_pos_nonneg 0 ltac:(lia)) as [-> ->].
    cbn [FloatText.scaled Z.to_N]. rewrite !N2Z.inj_mul, H10.
    change (Z.of_N (2 ^ 0)) with 1. change (2 ^ 0) with 1.
    change (Z.of_N (Npos m)) with (Zpos m).
    replace (Zpos m * 1 * 10 ^ Z.of_nat d * 1 - Zpos m * 1 * 10 ^ Z.of_nat d) with 0 by lia.
    cbn. split; [lia | discriminate].
  - destruct (pow2_pos_nonneg (Zpos k) ltac:(lia)) as [-> ->].
    cbn [FloatText.scaled Z.to_N]. rewrite !N2Z.inj_mul, H10, N2Z.inj_pow.
    change (Z.of_N (Npos m)) with (Zpos m). change (Z.of_N 2) with 2.
    change (Z.of_N (Npos k)) with (Zpos k).
    replace (Zpos m * 2 ^ Zpos k * 10 ^ Z.of_nat d * 1 - Zpos m * 2 ^ Zpos k * 10 ^ Z.of_nat d)
      with 0 by lia.
    cbn. split; [lia | discriminate].
  - destruct (pow2_neg_neg (Zneg k) ltac:(lia)) as [-> ->].
    cbn [FloatText.scaled Z.opp].
    assert (Hb : (0 < 2 ^ Npos k)%N) by (apply N.neq_0_lt_0, N.pow_nonzero; discriminate).
    pose proof (div_half_even_nearest (Npos m * 10 ^ N.of_nat d) (2 ^ Npos k) Hb) as H.
    cbv zeta in H. rewrite N2Z.inj_mul, H10, N2Z.inj_pow in H.
    change (Z.of_N (Npos m)) with (Zpos m) in H. change (Z.of_N 2) with 2 in H.
    change (Z.of_N (Npos k)) with (Zpos k) in H.
    now rewrite Z.mul_1_r.
Qed.

(** What [format_f] prints for a finite float is, digit for digit, the
    numeral with [d] decimals nearest to it. *)
Lemma format_f_decimal (d : nat) (x : float) :
  (1 <= d)%nat -> F64.is_finite x = true ->
  exists neg n, decimal_of d (FloatText.format_f d x) = Some (neg, n)
                /\ decimal_rounding d x neg n.
Proof.
  intros Hd Hx. destruct x as [s|s| |s m e]; try discriminate; cbn [FloatText.format_f].
  - exists s, 0%N. split; [now apply decimal_of_fixed_text | now split].
  - exists s, (FloatText.scaled d m e).
    split; [now apply decimal_of_fixed_text|]. split; [reflexivity | apply scaled_nearest].
Qed.

(** ** Rounding, in integers *)

Lemma loc_of_record_of_loc (m : Z) (l : location) :
  loc_of_shr_record (shr_record_of_loc m l) = l.
Proof. destruct l as [|[]]; reflexivity. Qed.

Lemma shr_1_located (D X : Z) (mrs : shr_record) :
  0 < D -> 0 <= shr_m mrs ->
  located D X (shr_m mrs) (loc_of_shr_record mrs) ->
  located (2 * D) X (shr_m (shr_1 mrs)) (loc_of_shr_record (shr_1 mrs)).
Proof.
  intros HD Hm. destruct mrs as [m r s]. cbn [shr_m] in *.
  unfold located. destruct m as [|[p|p|]|p].
  - destruct r, s; cbn [shr_1 shr_m loc_of_shr_record orb]; intros [Hi Hl];
      split; lia.
  - destruct r, s; cbn [shr_1 shr_m loc_of_shr_record orb]; rewrite (Pos2Z.inj_xI p);
      intros [Hi Hl]; split; lia.
  - destruct r, s; cbn [shr_1 shr_m loc_of_shr_record orb]; rewrite (Pos2Z.inj_xO p);
      intros [Hi Hl]; split; lia.
  - destruct r, s; cbn [shr_1 shr_m loc_of_shr_record orb]; intros [Hi Hl];
      split; lia.
  - lia.
Qed.

Lemma shr_1_nonneg (mrs : shr_record) : 0 <= shr_m mrs -> 0 <= shr_m (shr_1 mrs).
Proof. intros H. rewrite shr_1_m by exact H. apply Z.shiftr_nonneg. exact H. Qed.

Lemma iter_shr_nonneg (p : positive) (mrs : shr_record) :
  0 <= shr_m mrs -> 0 <= shr_m (iter_pos shr_1 p mrs).
Proof. intros H. rewrite iter_shr_m by exact H. apply Z.shiftr_nonneg. exact H. Qed.

Lemma iter_shr_located (p : positive) : forall D X mrs,
  0 < D -> 0 <= shr_m mrs ->
  located D X (shr_m mrs) (loc_of_shr_record mrs) ->
  located (2 ^ Zpos p * D) X (shr_m (iter_pos shr_1 p mrs))
          (loc_of_shr_record (iter_pos shr_1 p mrs)).
Proof.
  induction p as [p IH|p IH|]; intros D X mrs HD Hm H; cbn [iter_pos].
  - pose proof (shr_1_located D X mrs HD Hm H) as H1.
    pose proof (shr_1_nonneg mrs Hm) as Hm1.
    pose proof (IH (2 * D) X (shr_1 mrs) ltac:(lia) Hm1 H1) as H2.
    pose proof (iter_shr_nonneg p (shr_1 mrs) Hm1) as Hm2.
    assert (HP : 0 < 2 ^ Zpos p) by (apply Z.pow_pos_nonneg; lia).
    pose proof (IH (2 ^ Zpos p * (2 * D)) X _ ltac:(nia) Hm2 H2) as H3.
    replace (2 ^ Zpos p~1 * D) with (2 ^ Zpos p * (2 ^ Zpos p * (2 * D))); [exact H3|].
    rewrite (Pos2Z.inj_xI p). replace (2 * Zpos p + 1) with (Zpos p + Zpos p + 1) by lia.
    rewrite !Z.pow_add_r by lia. change (2 ^ 1) with 2. ring.
  - pose proof (IH D X mrs HD Hm H) as H2.
    pose proof (iter_shr_nonneg p mrs Hm) as Hm2.
    assert (HP : 0 < 2 ^ Zpos p) by (apply Z.pow_pos_nonneg; lia).
    pose proof (IH (2 ^ Zpos p * D) X _ ltac:(nia) Hm2 H2) as H3.
    replace (2 ^ Zpos p~0 * D) with (2 ^ Zpos p * (2 ^ Zpos p * D)); [exact H3|].
    rewrite (Pos2Z.inj_xO p). replace (2 * Zpos p) with (Zpos p + Zpos p) by lia.
    rewrite !Z.pow_add_r by lia. ring.
  - change (2 ^ 1 * D) with (2 * D). now apply shr_1_located.
Qed.

(** The first right shift keeps track of the place of the value. *)
Lemma shr_fexp_located (D X m e : Z) (l : location) :
  0 < D -> 0 <= m -> e <= fexp F64.prec F64.emax (Zdigits2 m + e) ->
  located D X m l ->
  let e1 := fexp F64.prec F64.emax (Zdigits2 m + e) in
  located (2 ^ (e1 - e) * D) X
          (shr_m (fst (shr_fexp F64.prec F64.emax m e l)))
          (loc_of_shr_record (fst (shr_fexp F64.prec F64.emax m e l))).
Proof.
  intros HD Hm He H e1. unfold shr_fexp. fold e1.
  destruct (e1 - e) as [|p|p] eqn:E; try lia; cbn [shr fst].
  - rewrite shr_record_of_loc_m, loc_of_record_of_loc, Z.pow_0_r, Z.mul_1_l. exact H.
  - apply iter_shr_located; [exact HD | now rewrite shr_record_of_loc_m |].
    now rewrite shr_record_of_loc_m, loc_of_record_of_loc.
Qed.

(** Rounding to nearest, ties to even, on a located value. *)
Lemma round_nearest_even_located (D X m : Z) (l : location) :
  0 < D -> located D X m l ->
  let m' := round_nearest_even m l in
  2 * Z.abs (m' * D - X) <= D
  /\ (2 * Z.abs (m' * D - X) = D -> Z.even m' = true)
  /\ (forall k, X = k * D -> m' = k).
Proof.
  intros HD [Hi Hl] m'. subst m'.
  assert (Hex : forall k, X = k * D -> k = m) by (intros k Hk; nia).
  destruct l as [|[]]; cbn [round_nearest_even].
  - split; [lia|]. split; [lia|]. intros k Hk. symmetry. now apply Hex.
  - destruct (Z.even m) eqn:Ev.
    + split; [lia|]. split; [intros _; exact Ev|].
      intros k Hk. pose proof (Hex k Hk). subst k. lia.
    + split; [lia|]. split.
      * intros _. rewrite Z.add_1_r, Z.even_succ, <- Z.negb_even, Ev. reflexivity.
      * intros k Hk. pose proof (Hex k Hk). subst k. lia.
  - split; [lia|]. split; [lia|]. intros k Hk. pose proof (Hex k Hk). subst k. lia.
  - split; [lia|]. split; [lia|]. intros k Hk. pose proof (Hex k Hk). subst k. lia.
Qed.

(** The rounding step of the float operations, on a located value: the
    mantissa [m'] it settles on is the nearest one at the exponent [e1] of
    the value, and the float returned is [m' * 2 ^ e1]. *)
Lemma binary_round_aux_nearest (sx : bool) (mx ex : Z) (lx : location) (D X : Z) :
  0 < D -> 0 <= mx -> ex <= fexp F64.prec F64.emax (Zdigits2 mx + ex) ->
  located D X mx lx ->
  let e1 := fexp F64.prec F64.emax (Zdigits2 mx + ex) in
  let D1 := 2 ^ (e1 - ex) * D in
  exists m',
    2 * Z.abs (m' * D1 - X) <= D1
    /\ (forall k, X = k * D1 -> m' = k)
    /\ Z.shiftr mx (e1 - ex) <= m' <= Z.shiftr mx (e1 - ex) + 1
    /\ ((m' = 0 /\ binary_round_aux F64.prec F64.emax sx mx ex lx = S754_zero sx)
        \/ (0 < m' /\ exists m2 e2,
              e1 <= e2 <= e1 + 1
              /\ Zpos m2 * 2 ^ (e2 - e1) = m'
              /\ e2 = fexp F64.prec F64.emax (Zdigits2 m' + e1)
              /\ binary_round_aux F64.prec F64.emax sx mx ex lx
                 = if e2 <=? F64.emax - F64.prec then S754_finite sx m2 e2
                   else S754_infinity sx)).
Proof.
  intros HD Hm He Hloc e1 D1.
  pose proof (shr_fexp_located D X mx ex lx HD Hm He Hloc) as Hl1. cbv zeta in Hl1.
  fold e1 in Hl1. fold D1 in Hl1.
  unfold binary_round_aux.
  destruct (shr_fexp_spec mx ex lx Hm He) as [H1 H2]. fold e1 in H1, H2.
  destruct (shr_fexp F64.prec F64.emax mx ex lx) as [mrs1 e1']. cbn [fst snd] in *.
  subst e1'.
  assert (HD1 : 0 < D1) by (unfold D1; apply Z.mul_pos_pos; [apply Z.pow_pos_nonneg|]; lia).
  destruct (round_nearest_even_located D1 X (shr_m mrs1) (loc_of_shr_record mrs1) HD1 Hl1)
    as (Hnear & _ & Hexact).
  pose proof (round_nearest_even_bounds (shr_m mrs1) (loc_of_shr_record mrs1)) as Hr.
  remember (round_nearest_even (shr_m mrs1) (loc_of_shr_record mrs1)) as m' eqn:Dm'.
  remember (shr_m mrs1) as m1 eqn:Dm1.
  assert (Hm1 : 0 <= m1) by (rewrite H1; apply Z.shiftr_nonneg; lia).
  assert (He1 : e1 = Z.max (Zdigits2 mx + ex - 53) (-1074)) by (unfold e1; apply fexp_eq).
  assert (Hd1 : Zdigits2 m1 = Z.max 0 (Zdigits2 mx + ex - e1)).
  { destruct (Z.eq_dec mx 0) as [E0|Hne].
    - rewrite H1, E0, Z.shiftr_0_l. rewrite E0 in He1. change (Zdigits2 0) with 0 in *. lia.
    - rewrite H1, Zdigits2_shiftr by lia. lia. }
  assert (Hd1' : Zdigits2 m1 <= Zdigits2 m' <= Zdigits2 m1 + 1).
  { pose proof (Zdigits2_succ m1 Hm1).
    assert (m' = m1 \/ m' = m1 + 1) as [-> | ->] by lia; lia. }
  pose proof (Zdigits2_nonneg mx) as Hdx.
  assert (Hk' : e1 <= fexp F64.prec F64.emax (Zdigits2 m' + e1)) by (rewrite fexp_eq; lia).
  destruct (shr_fexp_spec m' e1 loc_Exact ltac:(lia) Hk') as [H3 H4].
  destruct (shr_fexp F64.prec F64.emax m' e1 loc_Exact) as [mrs2 e2]. cbn [fst snd] in *.
  rewrite <- H4 in H3.
  exists m'. split; [exact Hnear|]. split; [exact Hexact|].
  split; [rewrite <- H1; exact Hr|].
  destruct (Z.eq_dec m' 0) as [E0|E0].
  - left. split; [exact E0|]. rewrite H3, E0, Z.shiftr_0_l. reflexivity.
  - right. split; [lia|].
    assert (Hpos : 0 < m') by lia.
    assert (He2 : e1 <= e2 <= e1 + 1) by (rewrite H4, fexp_eq; lia).
    assert (Hsh : Z.shiftr m' (e2 - e1) * 2 ^ (e2 - e1) = m').
    { destruct (Z.eq_dec e2 e1) as [->|Hne].
      - rewrite Z.sub_diag, Z.shiftr_0_r. simpl. lia.
      - replace (e2 - e1) with 1 by lia.
        assert (Hd54 : Zdigits2 m' = 54) by (rewrite fexp_eq in H4; lia).
        assert (Hlt : m1 < 2 ^ 53).
        { apply Z.lt_le_trans with (2 ^ Zdigits2 m1); [now apply digits_lt_pow2|].
          apply Z.pow_le_mono_r; lia. }
        assert (Hge : 2 ^ 53 <= m').
        { destruct m' as [|p|p]; try lia.
          pose proof (digits_pow2_le p) as Hp.
          change (Zpos (digits2_pos p)) with (Zdigits2 (Zpos p)) in Hp.
          now rewrite Hd54 in Hp. }
        assert (Em : m' = 2 ^ 53) by lia.
        rewrite Em. reflexivity. }
    assert (Hm2 : 0 < Z.shiftr m' (e2 - e1)).
    { assert (0 < 2 ^ (e2 - e1)) by (apply Z.pow_pos_nonneg; lia).
      pose proof (proj2 (Z.shiftr_nonneg m' (e2 - e1)) ltac:(lia)). nia. }
    rewrite H3. destruct (Z.shiftr m' (e2 - e1)) as [|m2|m2] eqn:E2; try lia.
    exists m2, e2. split; [exact He2|]. split; [exact Hsh|]. split; [exact H4|]. reflexivity.
Qed.

Lemma float_near_of_scaled (num den : Z) (m : positive) (e k : Z) :
  0 < den -> 0 <= k -> 0 <= e + k ->
  2 * Z.abs (den * (Zpos m * 2 ^ (e + k)) - num * 2 ^ k) <= den * 2 ^ (e + k) ->
  float_near num den m e.
Proof.
  intros Hden Hk Hek H. unfold float_near, pow2_pos, pow2_neg.
  destruct (Z_le_gt_dec 0 e) as [He|He].
  - rewrite (Z.max_r 0 e) by lia. rewrite (Z.max_l 0 (- e)) by lia.
    rewrite Z.pow_0_r, Z.mul_1_r.
    assert (HA : 0 < 2 ^ k) by (apply Z.pow_pos_nonneg; lia).
    rewrite Z.pow_add_r in H by lia.
    replace (den * (Zpos m * (2 ^ e * 2 ^ k)) - num * 2 ^ k)
      with ((den * (Zpos m * 2 ^ e) - num) * 2 ^ k) in H by ring.
    rewrite Z.abs_mul, (Z.abs_eq (2 ^ k)) in H by lia.
    apply (Z.mul_le_mono_pos_r _ _ (2 ^ k) HA). lia.
  - rewrite (Z.max_l 0 e) by lia. rewrite (Z.max_r 0 (- e)) by lia.
    rewrite Z.pow_0_r, !Z.mul_1_r.
    assert (HB : 0 < 2 ^ (e + k)) by (apply Z.pow_pos_nonneg; lia).
    replace k with (- e + (e + k)) in H at 2 by lia.
    rewrite (Z.pow_add_r 2 (- e) (e + k)) in H by lia.
    replace (den * (Zpos m * 2 ^ (e + k)) - num * (2 ^ (- e) * 2 ^ (e + k)))
      with ((den * Zpos m - num * 2 ^ (- e)) * 2 ^ (e + k)) in H by ring.
    rewrite Z.abs_mul, (Z.abs_eq (2 ^ (e + k))) in H by lia.
    apply (Z.mul_le_mono_pos_r _ _ (2 ^ (e + k)) HB). lia.
Qed.

(** The location the division computes from its remainder. *)
Lemma new_location_located (d r q X : Z) :
  0 < d -> 0 <= r < d -> X = q * d + r -> located d X q (new_location d r).
Proof.
  intros Hd Hr ->. unfold located. split; [lia|].
  unfold new_location, new_location_even, new_location_odd.
  destruct (Z.even d) eqn:Ev.
  - destruct (Z.eqb_spec r 0) as [->|Hne]; [lia|].
    destruct (Z.compare_spec (2 * r) d); lia.
  - assert (Hodd : Z.odd d = true) by (now rewrite <- Z.negb_even, Ev).
    apply Z.odd_spec in Hodd. destruct Hodd as [h Hh].
    destruct (Z.eqb_spec r 0) as [->|Hne]; [lia|].
    destruct (Z.compare_spec (2 * r + 1) d); lia.
Qed.

(** The division of [FloatText.of_ratio], with its shift written out. *)
Lemma of_ratio_unfold (neg : bool) (n d : positive) :
  let e' := Z.min (fexp F64.prec F64.emax (Zdigits2 (Zpos n) - Zdigits2 (Zpos d))) 0 in
  let X := Zpos n * 2 ^ (- e') in
  FloatText.of_ratio neg n d
  = binary_round_aux F64.prec F64.emax neg (X / Zpos d) e'
      (new_location (Zpos d) (X mod Zpos d)).
Proof.
  intros e' X. unfold FloatText.of_ratio, SFdiv_core_binary.
  rewrite !Z.add_0_r. change (0 - 0) with 0. fold e'.
  assert (Hs : 0 <= 0 - e') by (unfold e'; lia).
  rewrite (div_core_shift n (0 - e') Hs).
  replace (0 - e') with (- e') by lia. fold X.
  unfold Z.div, Z.modulo. now destruct (Z.div_eucl X (Zpos d)).
Qed.

Lemma ratio_quotient_digits (n d : positive) :
  let e' := Z.min (fexp F64.prec F64.emax (Zdigits2 (Zpos n) - Zdigits2 (Zpos d))) 0 in
  let q := Zpos n * 2 ^ (- e') / Zpos d in
  0 <= q
  /\ e' <= fexp F64.prec F64.emax (Zdigits2 q + e')
  /\ (-1074 < e' -> 2 ^ 52 <= q)
  /\ Zdigits2 q + e' <= Z.max (Zdigits2 (Zpos n) - Zdigits2 (Zpos d) + 1) e'.
Proof.
  intros e' q.
  pose proof (digits_pow2_le n) as Hn1.
  pose proof (digits_lt_pow2 (Zpos n) ltac:(lia)) as Hn2.
  pose proof (digits_pow2_le d) as Hd1.
  pose proof (digits_lt_pow2 (Zpos d) ltac:(lia)) as Hd2.
  change (Zpos (digits2_pos n)) with (Zdigits2 (Zpos n)) in Hn1.
  change (Zpos (digits2_pos d)) with (Zdigits2 (Zpos d)) in Hd1.
  assert (Hdn : 1 <= Zdigits2 (Zpos n)) by (simpl; lia).
  assert (Hdd : 1 <= Zdigits2 (Zpos d)) by (simpl; lia).
  remember (Zdigits2 (Zpos n)) as dn eqn:Ddn.
  remember (Zdigits2 (Zpos d)) as dd eqn:Ddd.
  assert (He' : e' = Z.min (Z.max (dn - dd - 53) (-1074)) 0) by (unfold e'; now rewrite fexp_eq).
  assert (Hs : 0 <= - e') by lia.
  assert (Hpow : 0 < 2 ^ (- e')) by (apply Z.pow_pos_nonneg; lia).
  assert (Hq0 : 0 <= q) by (unfold q; apply Z.div_pos; nia).
  assert (H52 : -1074 < e' -> 2 ^ 52 <= q).
  { intros Hhigh. unfold q. apply Z.div_le_lower_bound; [lia|].
    apply Z.le_trans with (2 ^ dd * 2 ^ 52).
    - apply Z.mul_le_mono_nonneg_r; [apply Z.pow_nonneg|]; lia.
    - apply Z.le_trans with (2 ^ (dn - 1) * 2 ^ (- e')).
      + rewrite <- !Z.pow_add_r by lia. apply Z.pow_le_mono_r; lia.
      + apply Z.mul_le_mono_nonneg_r; lia. }
  split; [exact Hq0|]. split; [|split; [exact H52|]].
  - rewrite fexp_eq.
    destruct (Z_le_gt_dec e' (-1074)) as [Hlow|Hhigh]; [lia|].
    pose proof (pow2_le_digits q 52 ltac:(lia) ltac:(specialize (H52 ltac:(lia)); lia)
                  (H52 ltac:(lia))). lia.
  - destruct (Z_le_gt_dec 0 (dn - e' - dd + 1)) as [Hk|Hk].
    + assert (Hlt : q < 2 ^ (dn - e' - dd + 1)).
      { unfold q. apply Z.div_lt_upper_bound; [lia|].
        apply Z.lt_le_trans with (2 ^ dn * 2 ^ (- e')).
        - apply Z.mul_lt_mono_pos_r; lia.
        - apply Z.le_trans with (2 ^ (dd - 1) * 2 ^ (dn - e' - dd + 1)).
          + rewrite <- !Z.pow_add_r by lia. apply Z.pow_le_mono_r; lia.
          + apply Z.mul_le_mono_nonneg_r; [apply Z.pow_nonneg|]; lia. }
      pose proof (digits_le_pow2 q _ Hk Hq0 Hlt). lia.
    + assert (Hq : q = 0).
      { unfold q. apply Z.div_small. split; [nia|].
        apply Z.lt_le_trans with (2 ^ dn * 2 ^ (- e')).
        - apply Z.mul_lt_mono_pos_r; lia.
        - apply Z.le_trans with (2 ^ (dd - 1)); [|lia].
          rewrite <- Z.pow_add_r by lia. apply Z.pow_le_mono_r; lia. }
      rewrite Hq. change (Zdigits2 0) with 0. lia.
Qed.

(** What [FloatText.of_ratio] returns: the mantissa [m'] nearest to
    [n / d] at the exponent [e1] of the quotient. *)
Lemma of_ratio_round (neg : bool) (n d : positive) :
  let e' := Z.min (fexp F64.prec F64.emax (Zdigits2 (Zpos n) - Zdigits2 (Zpos d))) 0 in
  let X := Zpos n * 2 ^ (- e') in
  let q := X / Zpos d in
  let e1 := fexp F64.prec F64.emax (Zdigits2 q + e') in
  let D1 := 2 ^ (e1 - e') * Zpos d in
  exists m',
    2 * Z.abs (m' * D1 - X) <= D1
    /\ (forall k, X = k * D1 -> m' = k)
    /\ Z.shiftr q (e1 - e') <= m' <= Z.shiftr q (e1 - e') + 1
    /\ ((m' = 0 /\ FloatText.of_ratio neg n d = S754_zero neg)
        \/ (0 < m' /\ exists m2 e2,
              e1 <= e2 <= e1 + 1
              /\ Zpos m2 * 2 ^ (e2 - e1) = m'
              /\ e2 = fexp F64.prec F64.emax (Zdigits2 m' + e1)
              /\ FloatText.of_ratio neg n d
                 = if e2 <=? F64.emax - F64.prec then S754_finite neg m2 e2
                   else S754_infinity neg)).
Proof.
  intros e' X q e1 D1.
  pose proof (of_ratio_unfold neg n d) as Hu. cbv zeta in Hu. fold e' in Hu.
  fold X in Hu. fold q in Hu. rewrite Hu.
  destruct (ratio_quotient_digits n d) as (Hq0 & Hfe & _).
  fold e' in Hq0, Hfe. fold X in Hq0, Hfe. fold q in Hq0, Hfe.
  apply (binary_round_aux_nearest neg q e' (new_location (Zpos d) (X mod Zpos d))
           (Zpos d) X); [lia | exact Hq0 | exact Hfe |].
  apply new_location_located; [lia | apply Z.mod_pos_bound; lia |].
  unfold q. rewrite (Z.mul_comm (X / Zpos d)). apply Z.div_mod. lia.
Qed.

Lemma of_ratio_valid (neg : bool) (n d : positive) :
  F64.valid (FloatText.of_ratio neg n d) = true.
Proof.
  pose proof (of_ratio_unfold neg n d) as Hu. cbv zeta in Hu. rewrite Hu.
  destruct (ratio_quotient_digits n d) as (Hq0 & Hfe & _).
  now apply binary_round_aux_valid.
Qed.

(** Away from the ends of the exponent range the result is a finite float
    within half a unit of its last place of [n / d]. *)
Lemma of_ratio_finite (neg : bool) (n d : positive) :
  -1020 <= Zdigits2 (Zpos n) - Zdigits2 (Zpos d) <= 1022 ->
  exists my ey,
    FloatText.of_ratio neg n d = S754_finite neg my ey
    /\ float_near (Zpos n) (Zpos d) my ey.
Proof.
  intros Hr.
  destruct (of_ratio_round neg n d) as (m' & Hnear & _ & Hsh & Hres).
  destruct (ratio_quotient_digits n d) as (Hq0 & Hfe & H52 & Hdig).
  cbv zeta in *.
  remember (Z.min (fexp F64.prec F64.emax (Zdigits2 (Zpos n) - Zdigits2 (Zpos d))) 0)
    as e' eqn:De'.
  remember (Zpos n * 2 ^ (- e')) as X eqn:DX.
  remember (X / Zpos d) as q eqn:Dq.
  rewrite fexp_eq in De'.
  assert (He' : -1074 < e' <= 0) by lia.
  specialize (H52 ltac:(lia)).
  assert (Hq : 0 < q) by lia.
  pose proof (pow2_le_digits q 52 ltac:(lia) Hq H52) as Hdq.
  rewrite fexp_eq in *.
  remember (Z.max (Zdigits2 q + e' - 53) (-1074)) as e1 eqn:De1.
  assert (Ee1 : e1 - e' = Zdigits2 q - 53) by lia.
  assert (Hm' : 0 < m').
  { pose proof (Zdigits2_shiftr q (e1 - e') Hq ltac:(lia)) as Hd.
    pose proof (proj2 (Z.shiftr_nonneg q (e1 - e')) ltac:(lia)) as Hnn.
    destruct (Z.eq_dec (Z.shiftr q (e1 - e')) 0) as [E0|E0]; [|lia].
    rewrite E0 in Hd. change (Zdigits2 0) with 0 in Hd. lia. }
  destruct Hres as [[E0 _] | (_ & m2 & e2 & He2 & Hm2 & _ & Hres)]; [lia|].
  exists m2, e2.
  assert (Hle : (e2 <=? F64.emax - F64.prec) = true).
  { apply Z.leb_le. unfold F64.emax, F64.prec. lia. }
  rewrite Hle in Hres. split; [exact Hres|].
  apply (float_near_of_scaled (Zpos n) (Zpos d) m2 e2 (- e')); [lia | lia | lia |].
  rewrite <- DX.
  assert (Hp1 : 0 < 2 ^ (e1 - e')) by (apply Z.pow_pos_nonneg; lia).
  assert (Hpow : 2 ^ (e2 + - e') = 2 ^ (e2 - e1) * 2 ^ (e1 - e')).
  { rewrite <- Z.pow_add_r by lia. f_equal. lia. }
  assert (Hmono : 2 ^ (e1 - e') <= 2 ^ (e2 + - e')) by (apply Z.pow_le_mono_r; lia).
  rewrite Hpow at 1.
  replace (Zpos d * (Zpos m2 * (2 ^ (e2 - e1) * 2 ^ (e1 - e'))) - X)
    with (Zpos m2 * 2 ^ (e2 - e1) * (2 ^ (e1 - e') * Zpos d) - X) by ring.
  rewrite Hm2.
  apply Z.le_trans with (2 ^ (e1 - e') * Zpos d); [exact Hnear|]. nia.
Qed.

(** A ratio that is a binary64 number is returned as it is. *)
Lemma of_ratio_exact (neg : bool) (n d m : positive) (e : Z) :
  F64.valid (S754_finite neg m e) = true ->
  Zpos n * pow2_neg e = Zpos m * pow2_pos e * Zpos d ->
  FloatText.of_ratio neg n d = S754_finite neg m e.
Proof.
  intros Hv Heq.
  assert (Hcan : fexp F64.prec F64.emax (Zdigits2 (Zpos m) + e) = e /\ e <= 971).
  { unfold F64.valid, valid_binary, bounded, canonical_mantissa in Hv.
    apply andb_true_iff in Hv. destruct Hv as [H1 H2].
    apply Z.eqb_eq in H1. apply Z.leb_le in H2.
    change (Zpos (digits2_pos m)) with (Zdigits2 (Zpos m)) in H1.
    unfold F64.emax, F64.prec in H2. split; [exact H1 | lia]. }
  destruct Hcan as [Hcan He971]. rewrite fexp_eq in Hcan.
  pose proof (digits_lt_pow2 (Zpos n) ltac:(lia)) as Hn2.
  pose proof (digits_lt_pow2 (Zpos m) ltac:(lia)) as Hm2.
  pose proof (digits_lt_pow2 (Zpos d) ltac:(lia)) as Hd2.
  assert (Hdn : 1 <= Zdigits2 (Zpos n)) by (simpl; lia).
  assert (Hdm : 1 <= Zdigits2 (Zpos m)) by (simpl; lia).
  assert (Hdd : 1 <= Zdigits2 (Zpos d)) by (simpl; lia).
  remember (Zdigits2 (Zpos n)) as dn eqn:Ddn.
  remember (Zdigits2 (Zpos m)) as dm eqn:Ddm.
  remember (Zdigits2 (Zpos d)) as dd eqn:Ddd.
  assert (Hmd : Zpos m * Zpos d < 2 ^ (dm + dd)).
  { rewrite Z.pow_add_r by lia. nia. }
  assert (Hdig : dn <= dm + e + dd).
  { rewrite Ddn. unfold pow2_neg, pow2_pos in Heq.
    destruct (Z_le_gt_dec 0 e) as [He|He].
    - rewrite (Z.max_r 0 e), (Z.max_l 0 (- e)) in Heq by lia.
      rewrite Z.pow_0_r, Z.mul_1_r in Heq.
      apply digits_le_pow2; [lia | lia|].
      rewrite Heq. replace (dm + e + dd) with (dm + dd + e) by lia.
      rewrite (Z.pow_add_r 2 (dm + dd) e) by lia.
      assert (0 < 2 ^ e) by (apply Z.pow_pos_nonneg; lia). nia.
    - rewrite (Z.max_l 0 e), (Z.max_r 0 (- e)) in Heq by lia.
      rewrite Z.pow_0_r, Z.mul_1_r in Heq.
      assert (Hpe : 0 < 2 ^ (- e)) by (apply Z.pow_pos_nonneg; lia).
      destruct (Z_le_gt_dec 0 (dm + e + dd)) as [Hk|Hk].
      + apply digits_le_pow2; [lia | lia|].
        destruct (Z_lt_le_dec (Zpos n) (2 ^ (dm + e + dd))) as [Hlt|Hge]; [exact Hlt|].
        exfalso.
        assert (2 ^ (dm + dd) <= Zpos n * 2 ^ (- e)).
        { replace (dm + dd) with (dm + e + dd + - e) by lia.
          rewrite Z.pow_add_r by lia. nia. }
        lia.
      + exfalso.
        assert (2 ^ (dm + dd) <= 2 ^ (- e)) by (apply Z.pow_le_mono_r; lia).
        nia. }
  destruct (of_ratio_round neg n d) as (m' & _ & Hexact & _ & Hres).
  cbv zeta in *. rewrite <- Ddn, <- Ddd in *.
  remember (Z.min (fexp F64.prec F64.emax (dn - dd)) 0) as e' eqn:De'.
  rewrite fexp_eq in De'.
  assert (He' : e' <= e /\ e' <= 0) by lia.
  assert (Hp : 0 < 2 ^ (e - e')) by (apply Z.pow_pos_nonneg; lia).
  assert (HX : Zpos n * 2 ^ (- e') = Zpos m * 2 ^ (e - e') * Zpos d).
  { unfold pow2_neg, pow2_pos in Heq.
    destruct (Z_le_gt_dec 0 e) as [He|He].
    - rewrite (Z.max_r 0 e), (Z.max_l 0 (- e)) in Heq by lia.
      rewrite Z.pow_0_r, Z.mul_1_r in Heq.
      replace (e - e') with (e + - e') by lia. rewrite Z.pow_add_r by lia.
      rewrite Heq. ring.
    - rewrite (Z.max_l 0 e), (Z.max_r 0 (- e)) in Heq by lia.
      rewrite Z.pow_0_r, Z.mul_1_r in Heq.
      replace (- e') with (- e + (e - e')) by lia. rewrite Z.pow_add_r by lia.
      rewrite Z.mul_assoc, Heq. ring. }
  rewrite HX in *.
  assert (Hq : Zpos m * 2 ^ (e - e') * Zpos d / Zpos d = Zpos m * 2 ^ (e - e'))
    by (apply Z.div_mul; lia).
  rewrite Hq in *. rewrite Zdigits2_mul_pow2 in * by lia. rewrite <- Ddm in *.
  replace (dm + (e - e') + e') with (dm + e) in * by lia.
  rewrite fexp_eq in *. rewrite Hcan in *.
  specialize (Hexact (Zpos m) ltac:(ring)). subst m'.
  destruct Hres as [[E0 _] | (_ & m2 & e2 & He2 & Hmm & He2' & Hres)]; [lia|].
  rewrite <- Ddm, fexp_eq, Hcan in He2'. subst e2.
  rewrite Z.sub_diag, Z.pow_0_r, Z.mul_1_r in Hmm. injection Hmm as ->.
  rewrite Hres.
  replace (e <=? F64.emax - F64.prec) with true; [reflexivity|].
  symmetry. apply Z.leb_le. unfold F64.emax, F64.prec. lia.
Qed.

Lemma pow2_pos_gt0 (e : Z) : 0 < pow2_pos e.
Proof. unfold pow2_pos. apply Z.pow_pos_nonneg; lia. Qed.

Lemma pow2_neg_gt0 (e : Z) : 0 < pow2_neg e.
Proof. unfold pow2_neg. apply Z.pow_pos_nonneg; lia. Qed.

Lemma nearest_scaled_nonneg (d : nat) (m : positive) (e n : Z) :
  nearest_scaled d m e n -> 0 <= n.
Proof.
  unfold nearest_scaled. cbv zeta. intros [H _].
  pose proof (pow2_neg_gt0 e) as Hp. pose proof (pow2_pos_gt0 e) as Hq.
  assert (H10 : 0 < 10 ^ Z.of_nat d) by (apply Z.pow_pos_nonneg; lia).
  assert (Hv : 0 <= Zpos m * pow2_pos e * 10 ^ Z.of_nat d) by nia.
  destruct (Z_lt_le_dec n 0) as [Hn|Hn]; [|exact Hn]. exfalso.
  assert (n * pow2_neg e <= - pow2_neg e) by nia. lia.
Qed.

(** The nearest integer is one integer. *)
Lemma nearest_scaled_unique (d : nat) (m : positive) (e n n' : Z) :
  nearest_scaled d m e n -> nearest_scaled d m e n' -> n = n'.
Proof.
  unfold nearest_scaled. cbv zeta.
  pose proof (pow2_neg_gt0 e) as HP.
  remember (pow2_neg e) as P eqn:DP.
  remember (Zpos m * pow2_pos e * 10 ^ Z.of_nat d) as v eqn:Dv.
  intros [H1 E1] [H2 E2].
  destruct (Z.eq_dec n n') as [Heq|Hne]; [exact Heq|]. exfalso.
  assert (Hd : n' = n + 1 \/ n = n' + 1).
  { assert (Hlt : n < n' \/ n' < n) by lia.
    destruct Hlt as [Hlt|Hlt]; [left | right].
    - assert (n' * P - n * P <= P) by lia.
      assert ((n' - n) * P <= 1 * P) by lia.
      assert (n' - n <= 1) by (apply (Z.mul_le_mono_pos_r _ _ P HP); lia). lia.
    - assert (n * P - n' * P <= P) by lia.
      assert ((n - n') * P <= 1 * P) by lia.
      assert (n - n' <= 1) by (apply (Z.mul_le_mono_pos_r _ _ P HP); lia). lia. }
  destruct Hd as [-> | ->].
  - assert (Ha : 2 * Z.abs (n * P - v) = P) by lia.
    assert (Hb : 2 * Z.abs ((n + 1) * P - v) = P) by lia.
    specialize (E1 Ha). specialize (E2 Hb).
    rewrite Z.even_add in E2. rewrite E1 in E2. discriminate.
  - assert (Ha : 2 * Z.abs (n' * P - v) = P) by lia.
    assert (Hb : 2 * Z.abs ((n' + 1) * P - v) = P) by lia.
    specialize (E1 Hb). specialize (E2 Ha).
    rewrite Z.even_add in E1. rewrite E2 in E1. discriminate.
Qed.

Lemma valid_canonical (s : bool) (m : positive) (e : Z) :
  F64.valid (S754_finite s m e) = true ->
  e = Z.max (Zdigits2 (Zpos m) + e - 53) (-1074) /\ e <= 971.
Proof.
  intros Hv. unfold F64.valid, valid_binary, bounded, canonical_mantissa in Hv.
  apply andb_true_iff in Hv. destruct Hv as [H1 H2].
  apply Z.eqb_eq in H1. apply Z.leb_le in H2.
  change (Zpos (digits2_pos m)) with (Zdigits2 (Zpos m)) in H1.
  rewrite fexp_eq in H1. unfold F64.emax, F64.prec in H2. lia.
Qed.

(** Three decimals and back: [float(f"{x:.3f}")] for a binary64 number. *)
Lemma round_decimals_3 (x : float) :
  F64.valid x = true -> rounded_to 3 x (FloatText.round_decimals 3 x).
Proof.
  intros Hv. destruct x as [s|s| |s m e]; try reflexivity.
  unfold rounded_to.
  change (FloatText.round_decimals 3 (S754_finite s m e))
    with (FloatText.of_decimal s (FloatText.scaled 3 m e) (-3)).
  pose proof (scaled_nearest 3 m e) as Hn.
  exists (Z.of_N (FloatText.scaled 3 m e)). split; [exact Hn|].
  change (10 ^ Z.of_nat 3) with 1000 in *.
  destruct (valid_mantissa_bound s m e Hv) as [Hm He].
  assert (Hexact : Z.of_N (FloatText.scaled 3 m e) * pow2_neg e = Zpos m * pow2_pos e * 1000 ->
                   FloatText.of_decimal s (FloatText.scaled 3 m e) (-3) = S754_finite s m e).
  { intros Heq. destruct (FloatText.scaled 3 m e) as [|p].
    - exfalso. pose proof (pow2_pos_gt0 e). cbn [Z.of_N] in Heq. nia.
    - cbn [FloatText.of_decimal]. change (10 ^ 3)%positive with 1000%positive.
      now apply of_ratio_exact. }
  split; [|exact Hexact].
  unfold nearest_scaled in Hn. cbv zeta in Hn. change (10 ^ Z.of_nat 3) with 1000 in Hn.
  destruct Hn as [Hn _].
  destruct (FloatText.scaled 3 m e) as [|p] eqn:Es.
  - left. split; reflexivity.
  - right. cbn [Z.of_N] in *. split; [lia|].
    destruct (Z_le_gt_dec 0 e) as [Hpos|Hneg].
    + destruct (pow2_pos_nonneg e Hpos) as [E1 E2]. rewrite E1, E2 in *.
      assert (Heq : Zpos p * 1 = Zpos m * 2 ^ e * 1000) by lia.
      rewrite (Hexact Heq). exists m, e. split; [reflexivity|]. split; [exact Hv|].
      unfold float_near. rewrite E1, E2.
      replace (1000 * (Zpos m * 2 ^ e) - Zpos p * 1) with 0 by lia.
      assert (0 < 2 ^ e) by (apply Z.pow_pos_nonneg; lia). simpl Z.abs. lia.
    + destruct (pow2_neg_neg e ltac:(lia)) as [E1 E2]. rewrite E1, E2 in *.
      cbn [FloatText.of_decimal]. change (10 ^ 3)%positive with 1000%positive.
      assert (Hp2 : 2 <= 2 ^ (- e)).
      { change 2 with (2 ^ 1) at 1. apply Z.pow_le_mono_r; lia. }
      assert (Hp : Zpos p < 2 ^ 63).
      { apply (Z.mul_lt_mono_pos_r (2 ^ (- e))); lia. }
      pose proof (digits_le_pow2 (Zpos p) 63 ltac:(lia) ltac:(lia) Hp) as Hdp.
      assert (Hdp1 : 1 <= Zdigits2 (Zpos p)) by (simpl; lia).
      destruct (of_ratio_finite s p 1000) as (my & ey & Hy & Hnear).
      { change (Zdigits2 1000) with 10. lia. }
      exists my, ey. split; [exact Hy|]. split; [|exact Hnear].
      apply of_ratio_valid.
Qed.

Lemma nearest_scaled_below (m : positive) (e n : Z) :
  nearest_scaled 3 m e n -> Zdigits2 (Zpos m) + e <= 43 -> n <= 1000 * 2 ^ 43.
Proof.
  unfold nearest_scaled. cbv zeta. change (10 ^ Z.of_nat 3) with 1000.
  intros [Hn _] Hb.
  pose proof (digits_lt_pow2 (Zpos m) ltac:(lia)) as Hm.
  assert (Hdm : 1 <= Zdigits2 (Zpos m)) by (simpl; lia).
  remember (Zdigits2 (Zpos m)) as dm eqn:Ddm.
  destruct (Z_le_gt_dec 0 e) as [Hpos|Hneg].
  - destruct (pow2_pos_nonneg e Hpos) as [E1 E2]. rewrite E1, E2 in Hn.
    assert (Hp : 0 < 2 ^ e) by (apply Z.pow_pos_nonneg; lia).
    assert (Hlt : Zpos m * 2 ^ e < 2 ^ 43).
    { apply Z.lt_le_trans with (2 ^ dm * 2 ^ e); [nia|].
      rewrite <- Z.pow_add_r by lia. apply Z.pow_le_mono_r; lia. }
    lia.
  - destruct (pow2_neg_neg e ltac:(lia)) as [E1 E2]. rewrite E1, E2 in Hn.
    assert (Hp : 0 < 2 ^ (- e)) by (apply Z.pow_pos_nonneg; lia).
    assert (Hlt : Zpos m < 2 ^ 43 * 2 ^ (- e)).
    { apply Z.lt_le_trans with (2 ^ dm); [exact Hm|].
      rewrite <- Z.pow_add_r by lia. apply Z.pow_le_mono_r; lia. }
    assert (n * 2 ^ (- e) < (1000 * 2 ^ 43 + 1) * 2 ^ (- e)) by lia.
    assert (n < 1000 * 2 ^ 43 + 1) by (apply (Z.mul_lt_mono_pos_r (2 ^ (- e))); lia).
    lia.
Qed.

(** A binary64 number within half a unit of its last place of [n / 1000],
    for [n / 1000] up to 2^43, has the integer part of [n / 1000]. *)
Lemma near_integer_part (n : Z) (my : positive) (ey : Z) :
  0 <= n <= 1000 * 2 ^ 43 ->
  F64.valid (S754_finite false my ey) = true ->
  float_near n 1000 my ey ->
  match ey with
  | Zneg k => Zpos my / 2 ^ Zpos k
  | _ => Zpos my * 2 ^ ey
  end = n / 1000.
Proof.
  intros Hn Hv Hnear.
  destruct (valid_canonical false my ey Hv) as [Hcan _].
  unfold float_near in Hnear.
  assert (Hey : ey <= -9).
  { destruct (Z_le_gt_dec ey (-9)) as [H|H]; [exact H|]. exfalso.
    assert (Hd : Zdigits2 (Zpos my) = 53) by lia.
    pose proof (digits_pow2_le my) as H52.
    change (Zpos (digits2_pos my)) with (Zdigits2 (Zpos my)) in H52.
    rewrite Hd in H52. change (2 ^ (53 - 1)) with (2 ^ 52) in H52.
    destruct (Z_le_gt_dec 0 ey) as [Hpos|Hneg].
    - destruct (pow2_pos_nonneg ey Hpos) as [E1 E2]. rewrite E1, E2 in Hnear.
      assert (Hp : 1 <= 2 ^ ey).
      { change 1 with (2 ^ 0). apply Z.pow_le_mono_r; lia. }
      assert (2 ^ 52 * 2 ^ ey <= Zpos my * 2 ^ ey) by nia.
      lia.
    - destruct (pow2_neg_neg ey ltac:(lia)) as [E1 E2]. rewrite E1, E2 in Hnear.
      assert (Hp : 0 < 2 ^ (- ey) <= 2 ^ 8).
      { split; [apply Z.pow_pos_nonneg; lia | apply Z.pow_le_mono_r; lia]. }
      assert (n * 2 ^ (- ey) <= 1000 * 2 ^ 43 * 2 ^ 8) by nia.
      lia. }
  destruct ey as [|k|k]; try lia.
  destruct (pow2_neg_neg (Zneg k) ltac:(lia)) as [E1 E2]. rewrite E1, E2 in Hnear.
  change (- Zneg k) with (Zpos k) in Hnear.
  assert (HP : 2 ^ 9 <= 2 ^ Zpos k) by (apply Z.pow_le_mono_r; lia).
  remember (2 ^ Zpos k) as P eqn:DP.
  pose proof (Z.div_mod n 1000 ltac:(lia)) as Hdm.
  pose proof (Z.mod_pos_bound n 1000 ltac:(lia)) as Hj.
  remember (n / 1000) as K eqn:DK. remember (n mod 1000) as j eqn:Dj.
  assert (HjP : 0 <= j * P <= 999 * P) by nia.
  assert (HnP : n * P = 1000 * (K * P) + j * P) by (rewrite Hdm; ring).
  rewrite HnP in Hnear. rewrite Z.mul_1_r in Hnear.
  symmetry. apply (Z.div_unique_pos (Zpos my) P K (Zpos my - K * P)); [|lia].
  change (2 ^ 9) with 512 in HP. lia.
Qed.

(** What the uploader reads from a float the trainer stored. *)
Lemma stored_int_rounded (x : float) :
  F64.valid x = true -> below_2_pow_43 x = true -> rounded_int x (stored_int x).
Proof.
  intros Hv Hb. destruct x as [s|s| |s m e]; try reflexivity.
  destruct (round_decimals_3 _ Hv) as (n & Hn & Hy & _).
  unfold rounded_int. exists n. split; [exact Hn|].
  unfold stored_int.
  destruct Hy as [[-> ->] | (Hn0 & my & ey & -> & Hvy & Hnear)].
  - now destruct s.
  - cbn [FloatText.py_int_of_float]. f_equal.
    cbn [below_2_pow_43] in Hb. apply Z.leb_le in Hb.
    pose proof (nearest_scaled_below m e n Hn Hb) as Hle.
    assert (Hvy' : F64.valid (S754_finite false my ey) = true) by exact Hvy.
    change (10 ^ Z.of_nat 3) with 1000 in Hnear.
    now rewrite (near_integer_part n my ey ltac:(lia) Hvy' Hnear).
Qed.

(** ** The store, numerically *)

Lemma stored_rounded (r : Sample.t) : sample_rounded r (stored r).
Proof.
  unfold sample_rounded, stored.
  cbn [Sample.label Sample.echo_us Sample.fresh_anchor Sample.spoil_anchor].
  split; [reflexivity|]. repeat split; intros H; now apply round_decimals_3.
Qed.

Lemma stored_rows_rounded (rows : list Sample.t) :
  Forall2 sample_rounded rows (map stored rows).
Proof.
  induction rows as [|r rows IH]; cbn [map]; constructor;
    [apply stored_rounded | exact IH].
Qed.

(** C4: loading what [save_csv] saved returns the samples in the order they
    were given, each with its label unchanged and its echo and two anchors
    rounded to three decimals: a loaded float has the sign of the original
    and is the binary64 number within half a unit of its last place of the
    decimal with three decimals nearest to the original (ties to the even
    last digit), and it is the original when that has at most three
    decimals, is a zero, an infinity or NaN. *)
Theorem load_save_round_trip (path : string) (rows : list Sample.t) (fs : filesystem) :
  load_csv path (save_csv path rows fs) = Ok (map stored rows)
  /\ map Sample.label (map stored rows) = map Sample.label rows
  /\ map Sample.echo_us (map stored rows)
     = map (fun r => FloatText.round_decimals 3 (Sample.echo_us r)) rows
  /\ map Sample.fresh_anchor (map stored rows)
     = map (fun r => FloatText.round_decimals 3 (Sample.fresh_anchor r)) rows
  /\ map Sample.spoil_anchor (map stored rows)
     = map (fun r => FloatText.round_decimals 3 (Sample.spoil_anchor r)) rows
  /\ exists loaded,
       load_csv path (save_csv path rows fs) = Ok loaded
       /\ Forall2 sample_rounded rows loaded.
Proof.
  split; [apply load_csv_save_csv|].
  rewrite !map_map. repeat (split; [reflexivity|]).
  exists (map stored rows). split; [apply load_csv_save_csv | apply stored_rows_rounded].
Qed.

Lemma load_save_round_trip_witness :
  exists loaded,
    load_csv "run.csv" (save_csv "run.csv" [off_grid_sample] no_files) = Ok loaded
    /\ Forall2 sample_rounded [off_grid_sample] loaded.
Proof.
  exact (proj2 (proj2 (proj2 (proj2 (proj2
           (load_save_round_trip "run.csv" [off_grid_sample] no_files)))))).
Defined.

(** The echo 1500.0004 is stored as 1500.000 and comes back as 1500.0. *)
Example round_trip_off_grid :
  load_csv "run.csv" (save_csv "run.csv" [off_grid_sample] no_files)
  = Ok [example_sample 1].
Proof. vm_compute. reflexivity. Qed.

(** The echo 1500.0004 is not on the grid of three decimals: it comes back
    as 1500.0, another float, and neither as zero nor as 1501.0. *)
Example off_grid_rounded :
  rounded_to 3 echo_off_grid (F64.of_Z 1500) /\ echo_off_grid <> F64.of_Z 1500.
Proof.
  split; [|vm_compute; discriminate].
  exact (round_decimals_3 echo_off_grid eq_refl).
Qed.

Example off_grid_not_zero : ~ rounded_to 3 echo_off_grid F64.zero.
Proof.
  unfold rounded_to, echo_off_grid. intros (n & Hn & Hy & _).
  pose proof (nearest_scaled_unique _ _ _ _ _ Hn (scaled_nearest 3 _ _)) as E.
  vm_compute in E. subst n.
  destruct Hy as [[H _] | (_ & my & ey & H & _)]; discriminate.
Qed.

(** ** The weight line, numerically *)

Lemma W_field_denotes (x : float) :
  F64.is_finite x = true ->
  is_fixed_point 6 (FloatText.format_f 6 x) = true
  /\ exists neg n, decimal_of 6 (FloatText.format_f 6 x) = Some (neg, n)
                   /\ decimal_rounding 6 x neg n.
Proof.
  intros H. split; [apply format_f_fixed_point; [lia | exact H]|].
  apply format_f_decimal; [lia | exact H].
Qed.

(** C5: for finite [w] and [b] the weight line is [W:] followed by eleven
    comma-separated fields, each a numeral with exactly six decimals: the
    first is [w], the next nine are the literal 0.000000, the last is [b];
    the numeral of [w] and of [b] has the sign of the float and the digits
    of the integer nearest to the float times 10^6 (ties to even). *)
Theorem W_line_shape (w b : float) :
  F64.is_finite w = true -> F64.is_finite b = true ->
  emit_W_line w b = ("W:" ++ Text.join "," (W_fields w b))%string
  /\ Text.split "," (Text.join "," (W_fields w b)) = W_fields w b
  /\ List.length (W_fields w b) = 11%nat
  /\ forallb (is_fixed_point 6) (W_fields w b) = true
  /\ nth 0 (W_fields w b) EmptyString = FloatText.format_f 6 w
  /\ firstn 9 (skipn 1 (W_fields w b)) = repeat "0.000000"%string 9
  /\ nth 10 (W_fields w b) EmptyString = FloatText.format_f 6 b
  /\ FloatText.py_float (FloatText.format_f 6 w) = Some (FloatText.round_decimals 6 w)
  /\ FloatText.py_float (FloatText.format_f 6 b) = Some (FloatText.round_decimals 6 b)
  /\ exists fields,
       emit_W_line w b = ("W:" ++ Text.join "," fields)%string
       /\ Text.split "," (Text.join "," fields) = fields
       /\ Forall2 (fun x f =>
                     is_fixed_point 6 f = true
                     /\ exists neg n, decimal_of 6 f = Some (neg, n)
                                      /\ decimal_rounding 6 x neg n)
                  (w :: repeat F64.zero 9 ++ [b]) fields.
Proof.
  intros Hw Hb.
  assert (Hplain : forallb is_plain (W_fields w b) = true).
  { unfold W_fields. cbn [repeat app forallb].
    rewrite !format_f_plain. reflexivity. }
  assert (Hline : emit_W_line w b = ("W:" ++ Text.join "," (W_fields w b))%string).
  { unfold emit_W_line, W_fields. cbn [repeat list_set map app].
    change (FloatText.format_f 6 F64.zero) with "0.000000"%string.
    cbn [Text.join]. rewrite !append_assoc. reflexivity. }
  assert (Hsplit : Text.split "," (Text.join "," (W_fields w b)) = W_fields w b)
    by (apply split_join; [discriminate | exact Hplain]).
  split; [exact Hline|]. split; [exact Hsplit|]. split; [reflexivity|].
  split.
  { unfold W_fields. cbn [repeat app forallb].
    rewrite !format_f_fixed_point by (assumption || lia). reflexivity. }
  split; [reflexivity|]. split; [reflexivity|]. split; [reflexivity|].
  split; [apply py_float_format; lia|]. split; [apply py_float_format; lia|].
  exists (W_fields w b). split; [exact Hline|]. split; [exact Hsplit|].
  unfold W_fields. cbn [repeat app].
  constructor; [now apply W_field_denotes|].
  do 9 (constructor; [apply (W_field_denotes F64.zero eq_refl)|]).
  constructor; [now apply W_field_denotes | constructor].
Qed.

Lemma W_line_shape_witness :
  emit_W_line three_quarters minus_third
  = "W:0.750000,0.000000,0.000000,0.000000,0.000000,0.000000,0.000000,0.000000,0.000000,0.000000,-0.333333"%string.
Proof.
  rewrite (proj1 (W_line_shape three_quarters minus_third eq_refl eq_refl)).
  vm_compute. reflexivity.
Defined.

(** The numeral 0.000000 is not the numeral of 0.75. *)
Example three_quarters_not_zero : ~ decimal_rounding 6 three_quarters false 0.
Proof.
  unfold decimal_rounding, three_quarters. intros [_ Hn].
  pose proof (nearest_scaled_unique _ _ _ _ _ Hn (scaled_nearest 6 _ _)) as E.
  vm_compute in E. discriminate.
Qed.

(** ** Capture, store and training *)

(** X9. Capture and training compose: when a capture session with an
    output path ends normally, training on the file it wrote runs on the
    samples the session collected, in order, each with its label and with
    its floats rounded to three decimals (to the binary64 number nearest to
    the nearest decimal with three decimals). *)
Theorem capture_then_train (median : list float -> float)
  (fit : list float -> list Z -> result (float * float))
  (args : capture_args) (ser : serial) (ticks : list tick) (fs fs' : filesystem)
  (path : string) :
  out args = Some path -> String.eqb path EmptyString = false ->
  capture_mode args ser ticks fs = Ok fs' ->
  exists st loaded,
    capture_loop (min_conf args) ticks capture_start = Ok st
    /\ load_csv path fs' = Ok loaded
    /\ Forall2 sample_rounded (rows st) loaded
    /\ train_from_csv median fit path fs' = train_rows median fit loaded
    /\ train_from_csv median fit path fs' = train_rows median fit (map stored (rows st)).
Proof.
  intros Hout Hpath. unfold capture_mode.
  destruct (snd (teardown ser)); [|discriminate].
  destruct (capture_loop (min_conf args) ticks capture_start) as [st|]; cbn [bind];
    [|discriminate].
  intros [= <-]. exists st, (map stored (rows st)).
  rewrite Hout. unfold store_rows. rewrite Hpath.
  unfold train_from_csv. rewrite load_csv_save_csv.
  repeat split; try reflexivity. apply stored_rows_rounded.
Qed.

Lemma capture_then_train_witness :
  exists st loaded,
    capture_loop (F64.of_Z 60) one_sample_session capture_start = Ok st
    /\ load_csv "cap.csv" (save_csv "cap.csv" [labelled example_rec 1] no_files) = Ok loaded
    /\ Forall2 sample_rounded (rows st) loaded
    /\ train_from_csv median_of null_solver "cap.csv"
         (save_csv "cap.csv" [labelled example_rec 1] no_files)
       = train_rows median_of null_solver loaded
    /\ train_from_csv median_of null_solver "cap.csv"
         (save_csv "cap.csv" [labelled example_rec 1] no_files)
       = train_rows median_of null_solver (map stored (rows st)).
Proof.
  apply (capture_then_train median_of null_solver
           (mkArgs (F64.of_Z 60) (Some "cap.csv"%string)) (mkSerial true true)
           one_sample_session no_files
           (save_csv "cap.csv" [labelled example_rec 1] no_files) "cap.csv").
  - reflexivity.
  - reflexivity.
  - vm_compute. reflexivity.
Defined.

(** ** The uploader on the trainer's file *)

Lemma rounded_int_finite (x : float) (o : option Z) :
  rounded_int x o ->
  if F64.is_finite x then exists z, o = Some z else o = None.
Proof.
  destruct x as [s|s| |s m e]; cbn [rounded_int F64.is_finite].
  - intros ->. now exists 0.
  - intros ->. reflexivity.
  - intros ->. reflexivity.
  - intros (n & _ & ->). eauto.
Qed.

Lemma uploaded_uploads (r : Sample.t) :
  upload_range r = true -> uploads r (uploaded r).
Proof.
  unfold upload_range, uploads, uploaded. intros H.
  repeat (apply andb_true_iff in H; let H' := fresh "H" in destruct H as [H H']).
  pose proof (stored_int_rounded (Sample.echo_us r) ltac:(assumption) ltac:(assumption)) as He.
  pose proof (stored_int_rounded (Sample.fresh_anchor r) ltac:(assumption) ltac:(assumption))
    as Hf.
  pose proof (stored_int_rounded (Sample.spoil_anchor r) ltac:(assumption) ltac:(assumption))
    as Hs.
  pose proof (rounded_int_finite _ _ He) as He'.
  pose proof (rounded_int_finite _ _ Hf) as Hf'.
  pose proof (rounded_int_finite _ _ Hs) as Hs'.
  destruct (F64.is_finite (Sample.echo_us r));
    [destruct He' as [ze He'] | rewrite He'; reflexivity].
  rewrite He' in *.
  destruct (F64.is_finite (Sample.fresh_anchor r));
    [destruct Hf' as [zf Hf'] | rewrite Hf'; reflexivity].
  rewrite Hf' in *.
  destruct (F64.is_finite (Sample.spoil_anchor r));
    [destruct Hs' as [zs Hs'] | rewrite Hs'; reflexivity].
  rewrite Hs' in *. cbn [andb].
  exists ze, zf, zs. auto.
Qed.

(** X12. The uploader reads what the trainer saved: from a file written by
    [save_csv] it returns, in order, one row per sample whose three floats
    are finite, holding the label as it is and, for each float, an integer;
    samples with an infinite or NaN value are skipped.  For a binary64
    number below 2^43 in magnitude that integer is the decimal with three
    decimals nearest to the float (ties to the even last digit), truncated
    toward zero: 1500.9996 is uploaded as 1501. *)
Theorem read_rows_of_saved (path : string) (rows : list Sample.t) (fs : filesystem) :
  Forall (fun r => Z.abs (Sample.label r) < 2 ^ 53) rows ->
  Uploader.read_rows path (save_csv path rows fs) = Ok (flat_map uploaded rows)
  /\ Forall (fun r => upload_range r = true -> uploads r (uploaded r)) rows.
Proof.
  intros Hl. split.
  - unfold Uploader.read_rows, save_csv, fs_write. rewrite String.eqb_refl.
    pose proof (sample_rows_plain rows) as Hp.
    rewrite csv_text_rows, (lines_of_rows _ Hp).
    cbn [map forallb] in *. apply andb_true_iff in Hp. destruct Hp as [Hh Hp].
    rewrite (next_record_writerow _ _ Hh). cbn [bind].
    replace (existsb (fun c => negb (Uploader.isnum (Text.strip c))) csv_header)
      with true by (vm_compute; reflexivity).
    replace (Uploader.index_names 0 (map Uploader.column_name csv_header) [])
      with [("echo_us"%string, 0%nat); ("label"%string, 1%nat);
            ("fresh_anchor"%string, 2%nat); ("spoil_anchor"%string, 3%nat)]
      by (vm_compute; reflexivity).
    change (Uploader.find "echo_us" _) with (Some 0%nat).
    change (Uploader.find "label" _) with (Some 1%nat).
    change (Uploader.find "fresh_anchor" _) with (Some 2%nat).
    change (Uploader.find "spoil_anchor" _) with (Some 3%nat).
    cbv iota. rewrite (read_records_rows _ Hp). cbn [bind].
    now rewrite collect_sample_rows.
  - apply Forall_forall. intros r _. apply uploaded_uploads.
Qed.

Lemma read_rows_of_saved_witness :
  Uploader.read_rows "cap.csv" (save_csv "cap.csv" [near_1501_sample] no_files)
  = Ok [(1501, 1, 1400, 2600)]
  /\ Forall (fun r => upload_range r = true -> uploads r (uploaded r)) [near_1501_sample].
Proof.
  apply (read_rows_of_saved "cap.csv" [near_1501_sample] no_files).
  constructor; [vm_compute; reflexivity | constructor].
Defined.

(** ** The confidence gate *)

Lemma leb_refl (a : float) : F64.is_nan a = false -> F64.leb a a = true.
Proof. intros H. unfold F64.leb, SFleb. now rewrite compare_refl. Qed.

(** [max(a, b)] is one of its arguments, is not below [a], and is not below
    [b] unless [b] is NaN. *)
Lemma py_max_spec (a b : float) :
  F64.is_nan a = false ->
  (py_max a b = a \/ py_max a b = b)
  /\ F64.leb a (py_max a b) = true
  /\ (F64.is_nan b = false -> F64.leb b (py_max a b) = true).
Proof.
  intros Ha. unfold py_max. destruct (F64.ltb a b) eqn:E.
  - split; [now right|]. split; [now apply ltb_leb|].
    intros Hb. now apply leb_refl.
  - split; [now left|]. split; [now apply leb_refl|].
    intros Hb. now apply not_ltb_leb.
Qed.

(** C8: the confidence the threshold test uses is the device-reported
    [conf_pct] when that is strictly positive; otherwise it is
    max(0, (1 - mad / (2 * 120)) * 100): one of 0 and the proxy, not below
    0, and not below the proxy (unless the proxy is NaN, where [max] gives
    0).  The record replaces the pending candidate exactly when that
    confidence reaches the minimum, and leaves the slot and the samples
    as they were when it does not. *)
Theorem confidence_gate (min_conf : float) (rec : Rec.t) (st : capture_state) :
  let proxy := F64.mul (F64.sub F64.one
                          (F64.div (Rec.mad_us rec) (F64.mul (F64.of_Z 2) (F64.of_Z 120))))
                       (F64.of_Z 100) in
  confidence rec = spec_confidence rec
  /\ (F64.ltb F64.zero (Rec.conf_pct rec) = true -> confidence rec = Rec.conf_pct rec)
  /\ (F64.ltb F64.zero (Rec.conf_pct rec) = false ->
      (confidence rec = F64.zero \/ confidence rec = proxy)
      /\ F64.leb F64.zero (confidence rec) = true
      /\ (F64.is_nan proxy = false -> F64.leb proxy (confidence rec) = true))
  /\ match consume_record min_conf (Some rec) st with
     | Ok st' =>
         rec_current st' = spec_slot min_conf (spec_confidence rec) rec (rec_current st)
         /\ rec_current st' = (if F64.leb min_conf (confidence rec) then Some rec
                               else rec_current st)
         /\ rows st' = rows st
     | Raise _ => F64.leb min_conf (spec_confidence rec) = true
     end.
Proof.
  intros proxy. split; [reflexivity|]. split; [|split].
  - intros H. unfold confidence. now rewrite H.
  - intros H. unfold confidence. rewrite H.
    change (F64.mul (F64.sub F64.one (F64.div (Rec.mad_us rec) f240)) f100) with proxy.
    apply py_max_spec. reflexivity.
  - destruct (consume_record min_conf (Some rec) st) as [st'|e] eqn:E.
    + split; [|split].
      * rewrite <- confidence_spec. now apply consume_record_slot.
      * apply consume_record_slot in E. exact E.
      * now apply consume_record_rows in E.
    + rewrite <- confidence_spec. unfold consume_record in E.
      destruct (F64.leb min_conf (confidence rec)); [reflexivity | discriminate].
Qed.

Lemma confidence_gate_witness :
  (confidence wide_spread_rec = F64.zero
   \/ confidence wide_spread_rec
      = F64.mul (F64.sub F64.one
                   (F64.div (Rec.mad_us wide_spread_rec)
                      (F64.mul (F64.of_Z 2) (F64.of_Z 120))))
                (F64.of_Z 100))
  /\ F64.leb F64.zero (confidence wide_spread_rec) = true
  /\ F64.leb (F64.mul (F64.sub F64.one
                         (F64.div (Rec.mad_us wide_spread_rec)
                            (F64.mul (F64.of_Z 2) (F64.of_Z 120))))
                      (F64.of_Z 100))
             (confidence wide_spread_rec) = true.
Proof.
  destruct (proj1 (proj2 (proj2 (confidence_gate F64.zero wide_spread_rec capture_start)))
              eq_refl) as (H1 & H2 & H3).
  exact (conj H1 (conj H2 (H3 eq_refl))).
Defined.
